(** * Telegram Chat Manager: classification, spam analysis and optimistic delete

    A shallow embedding of the chat classifier ([cli_manager.categorize_chats]),
    the spam analyzers ([cli_manager.analyze_user_chats],
    [fastapi_manager.analyze]), the FastAPI endpoints [get_chats],
    [delete_chat] and [export_data_endpoint], and the browser-side
    delete/undo coordinator ([deleteChat], [undoDelete], [deleteSelected],
    [restoreChat]) embedded in [fastapi_manager.HTML_TEMPLATE]. *)

From Stdlib Require Import Ascii.
From stdpp Require Import gmap strings list fin_maps.

Local Open Scope string_scope.
Local Open Scope list_scope.

#[local] Set Warnings "-clear-no-such-hyp".

(** ** Exceptions, and a state-and-exception monad for the Python code *)

(** A raised exception: the name of its class ([type(e).__name__]) and its
    message ([str(e)]). *)
Record exn : Type := mkExn { exc_type_name : string; exc_str : string }.

Inductive res (A : Type) : Type :=
| Ok (a : A)
| Raise (e : exn).
Arguments Ok {A} a.
Arguments Raise {A} e.

Module PyMonad.
Section PyMonad.
Context {St : Type}.

(** A computation over the mutable state [St]: what it has written stays
    written when it raises. *)
Definition M (A : Type) : Type := St -> res A * St.

Definition ret {A} (a : A) : M A := fun s => (Ok a, s).

Definition bind {A B} (m : M A) (k : A -> M B) : M B :=
  fun s =>
    match m s with
    | (Ok a, s') => k a s'
    | (Raise e, s') => (Raise e, s')
    end.

Definition lift {A} (r : res A) : M A := fun s => (r, s).

Definition modify (f : St -> St) : M unit := fun s => (Ok tt, f s).

Definition gets {A} (f : St -> A) : M A := fun s => (Ok (f s), s).

(** [try: body except Exception as e: handler e]. *)
Definition try_except {A} (body : M A) (handler : exn -> M A) : M A :=
  fun s =>
    match body s with
    | (Ok a, s') => (Ok a, s')
    | (Raise e, s') => handler e s'
    end.

(** [for x in l: body x]. *)
Fixpoint for_each {A} (l : list A) (body : A -> M unit) : M unit :=
  match l with
  | [] => ret tt
  | x :: xs => bind (body x) (fun _ => for_each xs body)
  end.

End PyMonad.
End PyMonad.

Import PyMonad.

#[global] Instance M_ret {St} : MRet (@M St) := @ret St.
#[global] Instance M_bind {St} : MBind (@M St) := fun A B k m => @bind St A B m k.

(** ** The client library's entity classes, as far as the code inspects them *)

Module Telethon.

(** What [getattr(obj, name, default)] can meet: a stored value, a missing
    attribute (the default is used), or an attribute whose inspection
    raises. *)
Inductive attr : Type :=
| AttrVal (b : bool)
| AttrMissing
| AttrRaises (e : exn).

Definition getattr (a : attr) (default : bool) : res bool :=
  match a with
  | AttrVal b => Ok b
  | AttrMissing => Ok default
  | AttrRaises e => Raise e
  end.

(** Plain attribute access [obj.name]. *)
Definition attribute (a : attr) (name : string) : res bool :=
  match a with
  | AttrVal b => Ok b
  | AttrMissing => Raise (mkExn "AttributeError" name)
  | AttrRaises e => Raise e
  end.

Record User : Type := mkUser {
  user_id : Z;
  first_name : option string;
  last_name : option string;
  username : option string;
  deleted : bool;
  bot : attr;
  scam : attr;
  fake : attr
}.

Record Chat : Type := mkChat {
  chat_id : Z;
  chat_title : string;
  chat_participants : option Z
}.

Record Channel : Type := mkChannel {
  channel_id : Z;
  channel_title : string;
  channel_username : option string;
  broadcast : attr;
  megagroup : attr;
  channel_participants : option Z
}.

(** A dialog's entity: one of the three classes, or anything else. *)
Inductive entity : Type :=
| EUser (u : User)
| EChat (c : Chat)
| EChannel (c : Channel)
| EOther (id : Z) (title : option string).

Record message : Type := mkMessage { out : bool }.

End Telethon.

Import Telethon.

(** ** cli_manager.categorize_chats and print_chat_statistics *)

Module Classifier.

(** The dictionary returned by [categorize_chats], keys in insertion
    order. *)
Record categorized : Type := mkCategorized {
  groups : list entity;
  supergroups : list entity;
  basic_groups : list entity;
  channels : list entity;
  users : list entity;
  unknown : list entity
}.

(** The five accumulators of the loop ([groups] is only built after it). *)
Record acc : Type := mkAcc {
  a_channels : list entity;
  a_supergroups : list entity;
  a_users : list entity;
  a_basic_groups : list entity;
  a_unknown : list entity
}.

Definition acc0 : acc := mkAcc [] [] [] [] [].

Inductive bucket : Type := BUsers | BBasic | BChannels | BSuper | BUnknown.

(** The body of the [try]: which list the chat is appended to; [None] when
    an inspection raises before any append. *)
Definition try_branch (chat : entity) : option bucket :=
  match chat with
  | EUser _ => Some BUsers
  | EChat _ => Some BBasic
  | EChannel c =>
      match getattr (broadcast c) false with
      | Raise _ => None
      | Ok true => Some BChannels
      | Ok false =>
          match getattr (megagroup c) false with
          | Raise _ => None
          | Ok true => Some BSuper
          | Ok false => Some BSuper
          end
      end
  | EOther _ _ => Some BUnknown
  end.

(** [try: ... except Exception: unknown.append(chat)]. *)
Definition bucket_of (chat : entity) : bucket :=
  match try_branch chat with
  | Some b => b
  | None => BUnknown
  end.

Definition append_to (a : acc) (b : bucket) (chat : entity) : acc :=
  match b with
  | BUsers => mkAcc (a_channels a) (a_supergroups a) (a_users a ++ [chat]) (a_basic_groups a) (a_unknown a)
  | BBasic => mkAcc (a_channels a) (a_supergroups a) (a_users a) (a_basic_groups a ++ [chat]) (a_unknown a)
  | BChannels => mkAcc (a_channels a ++ [chat]) (a_supergroups a) (a_users a) (a_basic_groups a) (a_unknown a)
  | BSuper => mkAcc (a_channels a) (a_supergroups a ++ [chat]) (a_users a) (a_basic_groups a) (a_unknown a)
  | BUnknown => mkAcc (a_channels a) (a_supergroups a) (a_users a) (a_basic_groups a) (a_unknown a ++ [chat])
  end.

Definition loop_body (a : acc) (chat : entity) : acc :=
  append_to a (bucket_of chat) chat.

Definition categorize_loop (a : acc) (all_chats : list entity) : acc :=
  fold_left loop_body all_chats a.

Definition categorize_chats (all_chats : list entity) : categorized :=
  let a := categorize_loop acc0 all_chats in
  let all_groups := a_basic_groups a ++ a_supergroups a in
  {| groups := all_groups;
     supergroups := a_supergroups a;
     basic_groups := a_basic_groups a;
     channels := a_channels a;
     users := a_users a;
     unknown := a_unknown a |}.

(** [categorized.values()], in the dictionary's order. *)
Definition values (c : categorized) : list (list entity) :=
  [groups c; supergroups c; basic_groups c; channels c; users c; unknown c].

(** The number printed after "Total Chats:" by [print_chat_statistics]:
    [sum([len(v) for v in categorized.values()])]. *)
Definition print_chat_statistics_total (c : categorized) : nat :=
  foldr Nat.add 0%nat (map length (values c)).

(** The five disjoint buckets, without the derived [groups]. *)
Definition five_total (c : categorized) : nat :=
  (length (users c) + length (basic_groups c) + length (supergroups c)
   + length (channels c) + length (unknown c))%nat.

End Classifier.

(** ** Small string helpers standing for Python's [str] methods (ASCII) *)

Module PyStr.

(** [c.isspace()] on ASCII: TAB..CR, FS..US and the blank. *)
Definition is_space (c : ascii) : bool :=
  let n := nat_of_ascii c in
  ((9 <=? n)%nat && (n <=? 13)%nat) || ((28 <=? n)%nat && (n <=? 32)%nat).

Fixpoint lstrip (s : string) : string :=
  match s with
  | EmptyString => EmptyString
  | String c s' => if is_space c then lstrip s' else s
  end.

Definition reverse (s : string) : string :=
  String.string_of_list_ascii (rev (String.list_ascii_of_string s)).

Definition strip (s : string) : string :=
  reverse (lstrip (reverse (lstrip s))).

(** [x or d] for an optional string [x]: [None] and [''] are falsy. *)
Definition or_str (x : option string) (d : string) : string :=
  match x with
  | None => d
  | Some EmptyString => d
  | Some s => s
  end.

(** [s or d] for a string [s]. *)
Definition nonempty_or (s d : string) : string :=
  match s with
  | EmptyString => d
  | _ => s
  end.

End PyStr.

(** ** The spam analyzers *)

Module Analyzer.

(** *** cli_manager.analyze_user_chats *)

Record cli_state : Type := mkCli {
  deleted_users : list User;
  no_messages : list User;
  only_incoming : list User;
  bots : list User;
  scam_users : list User;
  fake_users : list User;
  active_chats : list User;
  (** ids passed to [client.get_messages], oldest first *)
  cli_probe_calls : list Z
}.

Definition cli_state0 : cli_state := mkCli [] [] [] [] [] [] [] [].

Definition append_deleted (u : User) (s : cli_state) : cli_state :=
  mkCli (deleted_users s ++ [u]) (no_messages s) (only_incoming s) (bots s)
        (scam_users s) (fake_users s) (active_chats s) (cli_probe_calls s).
Definition append_no_messages (u : User) (s : cli_state) : cli_state :=
  mkCli (deleted_users s) (no_messages s ++ [u]) (only_incoming s) (bots s)
        (scam_users s) (fake_users s) (active_chats s) (cli_probe_calls s).
Definition append_only_incoming (u : User) (s : cli_state) : cli_state :=
  mkCli (deleted_users s) (no_messages s) (only_incoming s ++ [u]) (bots s)
        (scam_users s) (fake_users s) (active_chats s) (cli_probe_calls s).
Definition append_bots (u : User) (s : cli_state) : cli_state :=
  mkCli (deleted_users s) (no_messages s) (only_incoming s) (bots s ++ [u])
        (scam_users s) (fake_users s) (active_chats s) (cli_probe_calls s).
Definition append_scam (u : User) (s : cli_state) : cli_state :=
  mkCli (deleted_users s) (no_messages s) (only_incoming s) (bots s)
        (scam_users s ++ [u]) (fake_users s) (active_chats s) (cli_probe_calls s).
Definition append_fake (u : User) (s : cli_state) : cli_state :=
  mkCli (deleted_users s) (no_messages s) (only_incoming s) (bots s)
        (scam_users s) (fake_users s ++ [u]) (active_chats s) (cli_probe_calls s).
Definition append_active (u : User) (s : cli_state) : cli_state :=
  mkCli (deleted_users s) (no_messages s) (only_incoming s) (bots s)
        (scam_users s) (fake_users s) (active_chats s ++ [u]) (cli_probe_calls s).
Definition log_cli_probe (u : User) (s : cli_state) : cli_state :=
  mkCli (deleted_users s) (no_messages s) (only_incoming s) (bots s)
        (scam_users s) (fake_users s) (active_chats s)
        (cli_probe_calls s ++ [user_id u]).

Section Cli.
(** [client.get_messages(user, limit=n)]: the messages, or an exception. *)
Variable get_messages : User -> nat -> res (list message).

Definition cli_get_messages (u : User) (limit : nat) : M (list message) :=
  modify (log_cli_probe u) ≫= λ _, lift (get_messages u limit).

(** The body of the [try] for one user. *)
Definition cli_try (user : User) : M unit :=
  if deleted user then modify (append_deleted user)
  else
    is_bot ← lift (getattr (bot user) false);
    if is_bot : bool then modify (append_bots user)
    else
      is_scam ← lift (getattr (scam user) false);
      if is_scam : bool then modify (append_scam user)
      else
        is_fake ← lift (getattr (fake user) false);
        if is_fake : bool then modify (append_fake user)
        else
          messages ← cli_get_messages user 10;
          if (length messages =? 0)%nat then modify (append_no_messages user)
          else
            let has_outgoing := existsb out messages in
            if negb has_outgoing then modify (append_only_incoming user)
            else modify (append_active user).

(** One iteration: [try: ... except Exception: no_messages.append(user)]. *)
Definition cli_body (user : User) : M unit :=
  try_except (cli_try user) (fun _ => modify (append_no_messages user)).

Definition analyze_user_chats (users : list User) : res unit * cli_state :=
  for_each users cli_body cli_state0.

End Cli.

(** *** fastapi_manager.analyze (portable_manager.analyze runs the same
    loop, with an [only_incoming] list that is never appended to) *)

Record user_data : Type := mkUserData { ud_id : Z; ud_title : string }.

Record analysis : Type := mkAnalysis {
  an_deleted : list user_data;
  an_no_messages : list user_data;
  an_bots : list user_data;
  an_scam : list user_data;
  an_fake : list user_data;
  an_active : list user_data
}.

Inductive key : Type := KDeleted | KNoMessages | KBots | KScam | KFake | KActive.

(** [analysis[k]]. *)
Definition bucket (a : analysis) (k : key) : list user_data :=
  match k with
  | KDeleted => an_deleted a
  | KNoMessages => an_no_messages a
  | KBots => an_bots a
  | KScam => an_scam a
  | KFake => an_fake a
  | KActive => an_active a
  end.

(** [analysis[k].append(d)]. *)
Definition append (k : key) (d : user_data) (a : analysis) : analysis :=
  match k with
  | KDeleted => mkAnalysis (an_deleted a ++ [d]) (an_no_messages a) (an_bots a) (an_scam a) (an_fake a) (an_active a)
  | KNoMessages => mkAnalysis (an_deleted a) (an_no_messages a ++ [d]) (an_bots a) (an_scam a) (an_fake a) (an_active a)
  | KBots => mkAnalysis (an_deleted a) (an_no_messages a) (an_bots a ++ [d]) (an_scam a) (an_fake a) (an_active a)
  | KScam => mkAnalysis (an_deleted a) (an_no_messages a) (an_bots a) (an_scam a ++ [d]) (an_fake a) (an_active a)
  | KFake => mkAnalysis (an_deleted a) (an_no_messages a) (an_bots a) (an_scam a) (an_fake a ++ [d]) (an_active a)
  | KActive => mkAnalysis (an_deleted a) (an_no_messages a) (an_bots a) (an_scam a) (an_fake a) (an_active a ++ [d])
  end.

Record api_state : Type := mkApi {
  users_checked : nat;
  result : analysis;
  (** ids passed to [client.get_messages], oldest first *)
  probe_calls : list Z
}.

Definition api_state0 : api_state :=
  mkApi 0 (mkAnalysis [] [] [] [] [] []) [].

Definition incr_users_checked (s : api_state) : api_state :=
  mkApi (S (users_checked s)) (result s) (probe_calls s).
Definition put (k : key) (d : user_data) (s : api_state) : api_state :=
  mkApi (users_checked s) (append k d (result s)) (probe_calls s).
Definition log_probe (u : User) (s : api_state) : api_state :=
  mkApi (users_checked s) (result s) (probe_calls s ++ [user_id u]).

(** [f"{user.first_name or ''} {user.last_name or ''}".strip() or "Unknown"] *)
Definition user_title (user : User) : string :=
  PyStr.nonempty_or
    (PyStr.strip (PyStr.or_str (first_name user) "" +:+ " "
                  +:+ PyStr.or_str (last_name user) ""))
    "Unknown".

(** The errors an endpoint hands to the framework. *)
Inductive api_error : Type :=
| NotConnectedError
| TelegramError (message code : string)
| Unhandled (e : exn).

Record counts : Type := mkCounts {
  n_deleted : nat; n_no_messages : nat; n_bots : nat;
  n_scam : nat; n_fake : nat; n_active : nat
}.

Section Api.
Variable get_messages : User -> nat -> res (list message).

Definition api_get_messages (u : User) (limit : nat) : M (list message) :=
  modify (log_probe u) ≫= λ _, lift (get_messages u limit).

(** The message check of the last [else] branch. *)
Definition message_check (user : User) (data : user_data) : M unit :=
  n ← gets users_checked;
  if (n <=? 50)%nat then
    try_except
      (messages ← api_get_messages user 1;
       if (length messages =? 0)%nat then modify (put KNoMessages data)
       else modify (put KActive data))
      (fun _ => modify (put KNoMessages data))
  else modify (put KActive data).

(** One iteration of [async for dialog in client.iter_dialogs()]. *)
Definition api_body (dialog : entity) : M unit :=
  match dialog with
  | EUser user =>
      modify incr_users_checked ≫= λ _,
      let data := mkUserData (user_id user) (user_title user) in
      if deleted user then modify (put KDeleted data)
      else
        is_bot ← lift (getattr (bot user) false);
        if is_bot : bool then
          modify (put KBots (mkUserData (user_id user)
                               (PyStr.or_str (first_name user) "Unknown Bot")))
        else
          is_scam ← lift (getattr (scam user) false);
          if is_scam : bool then modify (put KScam data)
          else
            is_fake ← lift (getattr (fake user) false);
            if is_fake : bool then modify (put KFake data)
            else message_check user data
  | _ => mret tt
  end.

Definition analyze_loop (dialogs : list entity) : res unit * api_state :=
  for_each dialogs api_body api_state0.

Definition counts_of (a : analysis) : counts :=
  mkCounts (length (an_deleted a)) (length (an_no_messages a))
           (length (an_bots a)) (length (an_scam a))
           (length (an_fake a)) (length (an_active a)).

(** The endpoint: the guard, the loop, the outer [try/except]. *)
Definition analyze (connected : bool) (dialogs : list entity)
  : api_error + (counts * analysis) :=
  if negb connected then inl NotConnectedError
  else
    match analyze_loop dialogs with
    | (Ok _, s) => inr (counts_of (result s), result s)
    | (Raise e, _) => inl (TelegramError (exc_str e) "ANALYSIS_ERROR")
    end.

End Api.

End Analyzer.

(** ** FastAPI endpoints: get_chats, delete_chat, export_data_endpoint *)

Module Server.
Import Analyzer.

(** The dictionary [chat_data] built by [get_chats]; a key that a branch
    does not set is [None]. *)
Record chat_data : Type := mkChatData {
  cd_id : Z;
  cd_type : string;
  cd_title : string;
  cd_username : option (option string);
  cd_members : option (option Z);
  cd_is_deleted : option bool;
  cd_is_bot : option bool;
  cd_is_scam : option bool
}.

Record stats : Type := mkStats {
  st_groups : nat; st_channels : nat; st_users : nat; st_total : nat
}.

(** A value held in [all_chats_cache]: a plain dictionary, or an object of
    the client library. *)
Inductive pyobj : Type :=
| PyDict (d : chat_data)
| PyEntity (e : entity).

Record chats_state : Type := mkChats { chats : list chat_data; st : stats }.

Definition bump_users (s : chats_state) : chats_state :=
  mkChats (chats s) (mkStats (st_groups (st s)) (st_channels (st s)) (S (st_users (st s))) (st_total (st s))).
Definition bump_channels (s : chats_state) : chats_state :=
  mkChats (chats s) (mkStats (st_groups (st s)) (S (st_channels (st s))) (st_users (st s)) (st_total (st s))).
Definition bump_groups (s : chats_state) : chats_state :=
  mkChats (chats s) (mkStats (S (st_groups (st s))) (st_channels (st s)) (st_users (st s)) (st_total (st s))).
Definition push_chat (d : chat_data) (s : chats_state) : chats_state :=
  mkChats (chats s ++ [d])
          (mkStats (st_groups (st s)) (st_channels (st s)) (st_users (st s)) (S (st_total (st s)))).

(** One iteration of the loop of [get_chats]. *)
Definition get_chats_body (chat : entity) : M unit :=
  (match chat with
   | EUser u =>
       modify bump_users ≫= λ _,
       is_bot ← lift (getattr (bot u) false);
       is_scam ← lift (getattr (scam u) false);
       mret (mkChatData (user_id u) "user" (user_title u)
               (Some (username u)) None
               (Some (deleted u)) (Some is_bot) (Some is_scam))
   | EChannel c =>
       is_broadcast ← lift (attribute (broadcast c) "broadcast");
       (if is_broadcast : bool then modify bump_channels else modify bump_groups) ≫= λ _,
       mret (mkChatData (channel_id c)
               (if is_broadcast : bool then "channel" else "supergroup")
               (channel_title c) (Some (channel_username c))
               (Some (channel_participants c)) None None None)
   | EChat c =>
       modify bump_groups ≫= λ _,
       mret (mkChatData (chat_id c) "group" (chat_title c) None
               (Some (chat_participants c)) None None None)
   | EOther i t =>
       modify bump_groups ≫= λ _,
       mret (mkChatData i "group" (default "Unknown" t) None
               (Some (Some 0%Z)) None None None)
   end) ≫= λ d, modify (push_chat d).

Definition chats_state0 : chats_state := mkChats [] (mkStats 0 0 0 0).

(** [get_chats]: the answer, and the new value of [all_chats_cache]
    (unchanged when the endpoint raises). *)
Definition get_chats (connected : bool) (dialogs : list entity)
    (all_chats_cache : option (list pyobj))
  : (api_error + (list chat_data * stats)) * option (list pyobj) :=
  if negb connected then (inl NotConnectedError, all_chats_cache)
  else
    match for_each dialogs get_chats_body chats_state0 with
    | (Ok _, s) => (inr (chats s, st s), Some (PyDict <$> chats s))
    | (Raise e, _) =>
        (inl (TelegramError (exc_str e) "LOAD_CHATS_ERROR"), all_chats_cache)
    end.

(** *** delete_chat *)

Fixpoint prefix_of (p s : string) : bool :=
  match p, s with
  | EmptyString, _ => true
  | String a p', String b s' => if Ascii.eqb a b then prefix_of p' s' else false
  | String _ _, EmptyString => false
  end.

(** [p in s] on strings. *)
Fixpoint contains (p s : string) : bool :=
  if prefix_of p s then true
  else match s with
       | EmptyString => false
       | String _ s' => contains p s'
       end.

Definition lower_ascii (c : ascii) : ascii :=
  let n := nat_of_ascii c in
  if ((65 <=? n)%nat && (n <=? 90)%nat) then ascii_of_nat (n + 32) else c.

(** [s.lower()] (ASCII letters). *)
Fixpoint lower (s : string) : string :=
  match s with
  | EmptyString => EmptyString
  | String c s' => String (lower_ascii c) (lower s')
  end.

Definition digit_of (c : ascii) : option Z :=
  let n := nat_of_ascii c in
  if ((48 <=? n)%nat && (n <=? 57)%nat) then Some (Z.of_nat (n - 48)) else None.

(** The value of a leading run of digits, given the value read so far. *)
Fixpoint read_digits (acc : Z) (s : string) : Z :=
  match s with
  | EmptyString => acc
  | String c s' =>
      match digit_of c with
      | Some d => read_digits (10 * acc + d)%Z s'
      | None => acc
      end
  end.

(** [re.search(r'(\d+)', s)] followed by [int(match.group(1))]: the first
    maximal run of digits, [None] when there is no digit. *)
Fixpoint search_int (s : string) : option Z :=
  match s with
  | EmptyString => None
  | String c s' =>
      match digit_of c with
      | Some d => Some (read_digits d s')
      | None => search_int s'
      end
  end.

Inductive delete_response : Type :=
| DeleteSuccess
| RateLimited (retry_after : Z).

(** The [except Exception as e] clause of [delete_chat]. *)
Definition delete_chat_except (e : exn) : api_error + delete_response :=
  let error_str := exc_str e in
  if contains "FloodWaitError" (exc_type_name e) || contains "flood" (lower error_str)
  then
    let wait_time := default 30%Z (search_int error_str) in
    inr (RateLimited wait_time)
  else inl (TelegramError (exc_str e) "DELETE_ERROR").

Section DeleteChat.
Variable get_entity : Z -> res entity.
Variable delete_dialog : entity -> res unit.

Definition delete_chat (connected : bool) (chat_id : Z)
  : api_error + delete_response :=
  if negb connected then inl NotConnectedError
  else
    match get_entity chat_id with
    | Raise e => delete_chat_except e
    | Ok entity =>
        match delete_dialog entity with
        | Raise e => delete_chat_except e
        | Ok _ => inr DeleteSuccess
        end
    end.
End DeleteChat.

(** What the browser sees: the status code and the fields of the JSON body
    that the page reads. *)
Record http_response : Type := mkResponse {
  status_code : nat;
  body_error : option string;
  body_retry_after : option Z
}.

(** The exception handlers registered on the app. *)
Definition handle_error (e : api_error) : http_response :=
  match e with
  | TelegramError message _ => mkResponse 400 (Some message) None
  | NotConnectedError => mkResponse 400 (Some "Not connected to Telegram") None
  | Unhandled _ => mkResponse 500 (Some "An unexpected error occurred") None
  end.

Definition delete_chat_http (r : api_error + delete_response) : http_response :=
  match r with
  | inl e => handle_error e
  | inr DeleteSuccess => mkResponse 200 None None
  | inr (RateLimited w) => mkResponse 429 (Some "Rate limited") (Some w)
  end.

(** *** export_data_endpoint *)

Definition isinstance_User (c : pyobj) : bool :=
  match c with PyEntity (EUser _) => true | _ => false end.
Definition isinstance_Chat (c : pyobj) : bool :=
  match c with PyEntity (EChat _) => true | _ => false end.
Definition isinstance_Channel (c : pyobj) : bool :=
  match c with PyEntity (EChannel _) => true | _ => false end.

(** [getattr(c, "megagroup", False)]: only a [Channel] has the attribute. *)
Definition getattr_megagroup (c : pyobj) : res bool :=
  match c with
  | PyEntity (EChannel ch) => getattr (megagroup ch) false
  | _ => Ok false
  end.

(** [chat_to_dict] and [load_chats] are called by the endpoint but defined
    nowhere in the module: calling either raises [NameError]. *)
Definition chat_to_dict (c : pyobj) : res chat_data :=
  Raise (mkExn "NameError" "name 'chat_to_dict' is not defined").
Definition load_chats : res unit :=
  Raise (mkExn "NameError" "name 'load_chats' is not defined").

Definition and_then (a : bool) (b : res bool) : res bool :=
  if a then b else Ok false.

(** [isinstance(c, (Chat, Channel)) and
     (getattr(c, "megagroup", False) or isinstance(c, Chat))] *)
Definition is_group (c : pyobj) : res bool :=
  and_then (isinstance_Chat c || isinstance_Channel c)
    (match getattr_megagroup c with
     | Ok true => Ok true
     | Ok false => Ok (isinstance_Chat c)
     | Raise e => Raise e
     end).

(** [isinstance(c, Channel) and not getattr(c, "megagroup", False)] *)
Definition is_channel (c : pyobj) : res bool :=
  and_then (isinstance_Channel c)
    (match getattr_megagroup c with
     | Ok b => Ok (negb b)
     | Raise e => Raise e
     end).

(** [isinstance(c, User)] *)
Definition is_user (c : pyobj) : res bool := Ok (isinstance_User c).

(** [[chat_to_dict(c) for c in cache if cond(c)]]. *)
Fixpoint comprehension (cond : pyobj -> res bool) (cache : list pyobj)
  : res (list chat_data) :=
  match cache with
  | [] => Ok []
  | c :: rest =>
      match cond c with
      | Raise e => Raise e
      | Ok false => comprehension cond rest
      | Ok true =>
          match chat_to_dict c with
          | Raise e => Raise e
          | Ok d =>
              match comprehension cond rest with
              | Raise e => Raise e
              | Ok ds => Ok (d :: ds)
              end
          end
      end
  end.

(** The [data] list computed in the endpoint's [try] block. *)
Definition export_data (export_type : string) (cache : list pyobj)
  : res (list chat_data) :=
  if String.eqb export_type "groups" then comprehension is_group cache
  else if String.eqb export_type "channels" then comprehension is_channel cache
  else if String.eqb export_type "users" then comprehension is_user cache
  else Raise (mkExn "HTTPException" "400: Invalid export type").

(** [not all_chats_cache]: [None] and the empty list are falsy. *)
Definition cache_is_falsy (cache : option (list pyobj)) : bool :=
  match cache with
  | None | Some [] => true
  | Some (_ :: _) => false
  end.

(** The endpoint up to the serialisation of [data] (the file name and the
    CSV/JSON rendering are left out). The call of [load_chats] is outside
    the [try], so its exception reaches the framework unhandled. *)
Definition export_data_endpoint (connected : bool)
    (all_chats_cache : option (list pyobj)) (export_type : string)
  : api_error + list chat_data :=
  if negb connected then inl NotConnectedError
  else
    match (if cache_is_falsy all_chats_cache then load_chats else Ok tt) with
    | Raise e => inl (Unhandled e)
    | Ok _ =>
        match export_data export_type (default [] all_chats_cache) with
        | Ok data => inr data
        | Raise e => inl (TelegramError (exc_str e) "EXPORT_ERROR")
        end
    end.

End Server.

(** ** The page's delete/undo coordinator (script of HTML_TEMPLATE) *)

Module Coordinator.
Import Server.

(** A chat object as the page holds it (an entry of [data.chats] or of an
    analysis list). *)
Record chat : Type := JsChat {
  id : Z;
  title : string;
  type : option string
}.

(** Where [findChatById] found a chat: [source] and, for the analysis
    lists, [category]. *)
Inductive source : Type :=
| Main
| Analysis (category : string).

(** An element of [storedItems]: [{ ...found, id }]. *)
Record item : Type := mkItem {
  item_chat : chat;
  item_source : source;
  item_id : Z
}.

(** A value of the [pendingDeletes] map. [Bulk] is the record whose
    [chatData] is an array. *)
Inductive pending : Type :=
| Single (timeoutId : nat) (title : string) (chatData : chat) (src : source)
| Bulk (timeoutId : nat) (items : list item).

Definition timeoutId_of (p : pending) : nat :=
  match p with Single t _ _ _ | Bulk t _ => t end.

(** The closures handed to [setTimeout]. *)
Inductive callback : Type :=
| CommitSingle (id : Z) (title : string) (c : chat) (src : source)
| RetrySingle (id : Z) (title : string)
| CommitBulk (bulkId : Z) (toDeleteIds : list Z) (count : nat)
| BulkRetryWait (id : Z) (rest : list Z) (deleted failed count : nat).

(** What runs when an awaited [fetch] settles. *)
Inductive continuation : Type :=
| AwaitSingle (id : Z) (title : string) (c : chat) (src : source)
| AwaitSingleStats (id : Z)
| AwaitBulk (id : Z) (rest : list Z) (deleted failed count : nat)
| AwaitBulkRetry (id : Z) (rest : list Z) (deleted failed count : nat)
| AwaitBulkSync.

Inductive fetch_result : Type :=
| Rejected
| Response (r : http_response).

Record page : Type := mkPage {
  currentChats : list chat;
  (** [window.analysisData], entries in key order; the empty list also
      stands for [undefined], which [findChatById] treats alike *)
  analysisData : list (string * list chat);
  selectedChats : list Z;
  bulkDeleteCancelled : bool;
  pendingDeletes : gmap Z pending;
  (** live timers: delay in milliseconds and closure *)
  timers : gmap nat (Z * callback);
  next_timer : nat;
  (** fetches in flight *)
  requests : gmap nat continuation;
  next_request : nat;
  (** ids of the [POST /api/delete/{id}] requests issued, oldest first *)
  calls : list Z;
  alerts : list string;
  (** the locals [deleted] and [failed] of the running or last bulk loop *)
  counters : nat * nat
}.

Definition init : page :=
  mkPage [] [] [] false ∅ ∅ 0 ∅ 0 [] [] (0, 0)%nat.

Definition set_currentChats (v : list chat) (s : page) : page :=
  mkPage v (analysisData s) (selectedChats s) (bulkDeleteCancelled s)
    (pendingDeletes s) (timers s) (next_timer s) (requests s)
    (next_request s) (calls s) (alerts s) (counters s).
Definition set_analysisData (v : list (string * list chat)) (s : page) : page :=
  mkPage (currentChats s) v (selectedChats s) (bulkDeleteCancelled s)
    (pendingDeletes s) (timers s) (next_timer s) (requests s)
    (next_request s) (calls s) (alerts s) (counters s).
Definition set_selectedChats (v : list Z) (s : page) : page :=
  mkPage (currentChats s) (analysisData s) v (bulkDeleteCancelled s)
    (pendingDeletes s) (timers s) (next_timer s) (requests s)
    (next_request s) (calls s) (alerts s) (counters s).
Definition set_bulkDeleteCancelled (v : bool) (s : page) : page :=
  mkPage (currentChats s) (analysisData s) (selectedChats s) v
    (pendingDeletes s) (timers s) (next_timer s) (requests s)
    (next_request s) (calls s) (alerts s) (counters s).
Definition set_pendingDeletes (v : gmap Z pending) (s : page) : page :=
  mkPage (currentChats s) (analysisData s) (selectedChats s)
    (bulkDeleteCancelled s) v (timers s) (next_timer s) (requests s)
    (next_request s) (calls s) (alerts s) (counters s).
Definition set_timers (v : gmap nat (Z * callback)) (n : nat) (s : page) : page :=
  mkPage (currentChats s) (analysisData s) (selectedChats s)
    (bulkDeleteCancelled s) (pendingDeletes s) v n (requests s)
    (next_request s) (calls s) (alerts s) (counters s).
Definition set_requests (v : gmap nat continuation) (n : nat) (s : page) : page :=
  mkPage (currentChats s) (analysisData s) (selectedChats s)
    (bulkDeleteCancelled s) (pendingDeletes s) (timers s) (next_timer s) v
    n (calls s) (alerts s) (counters s).
Definition set_calls (v : list Z) (s : page) : page :=
  mkPage (currentChats s) (analysisData s) (selectedChats s)
    (bulkDeleteCancelled s) (pendingDeletes s) (timers s) (next_timer s)
    (requests s) (next_request s) v (alerts s) (counters s).
Definition set_alerts (v : list string) (s : page) : page :=
  mkPage (currentChats s) (analysisData s) (selectedChats s)
    (bulkDeleteCancelled s) (pendingDeletes s) (timers s) (next_timer s)
    (requests s) (next_request s) (calls s) v (counters s).
Definition set_counters (v : nat * nat) (s : page) : page :=
  mkPage (currentChats s) (analysisData s) (selectedChats s)
    (bulkDeleteCancelled s) (pendingDeletes s) (timers s) (next_timer s)
    (requests s) (next_request s) (calls s) (alerts s) v.

(** *** Browser primitives *)

(** [setTimeout(cb, delay)]: the new timer's id is [next_timer s]. *)
Definition setTimeout (cb : callback) (delay : Z) (s : page) : page :=
  set_timers (<[next_timer s := (delay, cb)]> (timers s)) (S (next_timer s)) s.

Definition clearTimeout (t : nat) (s : page) : page :=
  set_timers (delete t (timers s)) (next_timer s) s.

(** Start a [fetch] whose settling resumes [k]. *)
Definition await_fetch (k : continuation) (s : page) : page :=
  set_requests (<[next_request s := k]> (requests s)) (S (next_request s)) s.

(** [fetch(`/api/delete/${id}`, { method: 'POST' })] awaited by [k]. *)
Definition fetch_delete (i : Z) (k : continuation) (s : page) : page :=
  await_fetch k (set_calls (calls s ++ [i]) s).

(** [response.ok] *)
Definition ok (r : http_response) : bool :=
  (200 <=? status_code r)%nat && (status_code r <=? 299)%nat.

(** Truthiness of [data.retry_after]. *)
Definition retry_after_truthy (r : http_response) : option Z :=
  match body_retry_after r with
  | Some w => if (w =? 0)%Z then None else Some w
  | None => None
  end.

(** *** Objects used as maps: [obj[k]] and [obj[k] = v] *)

Fixpoint obj_get (k : string) (o : list (string * list chat)) : option (list chat) :=
  match o with
  | [] => None
  | (k', v) :: rest => if String.eqb k' k then Some v else obj_get k rest
  end.

Fixpoint obj_set (k : string) (v : list chat) (o : list (string * list chat))
  : list (string * list chat) :=
  match o with
  | [] => [(k, v)]
  | (k', v') :: rest =>
      if String.eqb k' k then (k', v) :: rest else (k', v') :: obj_set k v rest
  end.

(** The object parsed from a list of JSON members: a repeated key keeps
    its first position and its last value. *)
Definition obj_of_members (members : list (string * list chat))
  : list (string * list chat) :=
  fold_left (fun o m => obj_set m.1 m.2 o) members [].

(** *** findChatById, restoreChat *)

Definition has_id (i : Z) (c : chat) : bool := (id c =? i)%Z.
Definition not_id (i : Z) (c : chat) : bool := negb (id c =? i)%Z.

(** The [for (const cat in window.analysisData)] loop. *)
Fixpoint find_in_analysis (i : Z) (data : list (string * list chat))
  : option (chat * source) :=
  match data with
  | [] => None
  | (cat, l) :: rest =>
      match List.find (has_id i) l with
      | Some c => Some (c, Analysis cat)
      | None => find_in_analysis i rest
      end
  end.

Definition findChatById (i : Z) (s : page) : option (chat * source) :=
  match List.find (has_id i) (currentChats s) with
  | Some c => Some (c, Main)
  | None => find_in_analysis i (analysisData s)
  end.

(** The optimistic removal shared by [deleteChat] and [deleteSelected]. *)
Definition remove_from (src : source) (i : Z) (s : page) : page :=
  match src with
  | Main => set_currentChats (List.filter (not_id i) (currentChats s)) s
  | Analysis category =>
      set_analysisData
        (obj_set category
           (List.filter (not_id i) (default [] (obj_get category (analysisData s))))
           (analysisData s)) s
  end.

Definition restoreChat (c : chat) (src : source) (s : page) : page :=
  match src with
  | Main => set_currentChats (currentChats s ++ [c]) s
  | Analysis category =>
      set_analysisData
        (obj_set category
           (default [] (obj_get category (analysisData s)) ++ [c])
           (analysisData s)) s
  end.

(** *** deleteChat and its timer callback *)

Definition deleteChat (i : Z) (title : string) (s : page) : page :=
  match findChatById i s with
  | None => s
  | Some (c, src) =>
      let s := remove_from src i s in
      let s := set_selectedChats (List.filter (fun j => negb (j =? i)%Z) (selectedChats s)) s in
      let timeoutId := next_timer s in
      let s := setTimeout (CommitSingle i title c src) 10000 s in
      set_pendingDeletes (<[i := Single timeoutId title c src]> (pendingDeletes s)) s
  end.

(** The [finally] clause. *)
Definition single_finally (i : Z) (s : page) : page :=
  set_pendingDeletes (delete i (pendingDeletes s)) s.

(** The callback resumes after [await fetch(`/api/delete/${id}`)]. *)
Definition single_resume (i : Z) (title : string) (c : chat) (src : source)
    (r : fetch_result) (s : page) : page :=
  match r with
  | Rejected =>
      let s := restoreChat c src s in
      let s := set_alerts (alerts s ++ ["Network error deleting chat"]) s in
      single_finally i s
  | Response resp =>
      if negb (ok resp) then
        match retry_after_truthy resp with
        | Some w =>
            let s := setTimeout (RetrySingle i title) (w * 1000) s in
            single_finally i s
        | None =>
            let s := restoreChat c src s in
            let s := set_alerts
                       (alerts s ++ ["Error deleting chat: "
                                     +:+ PyStr.or_str (body_error resp) "Unknown error"]) s in
            single_finally i s
        end
      else
        (* success: the statistics are fetched before [finally] runs *)
        await_fetch (AwaitSingleStats i) s
  end.

(** *** undoDelete *)

Definition undoDelete (i : Z) (s : page) : page :=
  match pendingDeletes s !! i with
  | None => s
  | Some p =>
      let s := clearTimeout (timeoutId_of p) s in
      let s := set_pendingDeletes (delete i (pendingDeletes s)) s in
      match p with
      | Bulk _ items =>
          fold_left (fun s it => restoreChat (item_chat it) (item_source it) s) items s
      | Single _ _ c src => restoreChat c src s
      end
  end.

(** *** deleteSelected and its timer callback *)

Definition stored_item (s : page) (i : Z) : option item :=
  match findChatById i s with
  | Some (c, src) => Some (mkItem c src i)
  | None => None
  end.

Definition deleteSelected (confirmed : bool) (now : Z) (s : page) : page :=
  if (length (selectedChats s) =? 0)%nat then s
  else
    let count := length (selectedChats s) in
    if negb confirmed then s
    else
      let toDeleteIds := selectedChats s in
      let storedItems := omap (stored_item s) toDeleteIds in
      let bulkId := now in
      let s := fold_left (fun s it => remove_from (item_source it) (item_id it) s)
                 storedItems s in
      let s := set_selectedChats [] s in
      let timeoutId := next_timer s in
      let s := setTimeout (CommitBulk bulkId toDeleteIds count) 10000 s in
      set_pendingDeletes (<[bulkId := Bulk timeoutId storedItems]> (pendingDeletes s)) s.

(** After the loop: the progress modal is hidden and the statistics are
    fetched ([currentChats] is deliberately not overwritten). *)
Definition bulk_finish (s : page) : page :=
  await_fetch AwaitBulkSync s.

(** The head of [for (const id of toDeleteIds)], up to the first [await]. *)
Definition bulk_loop (ids : list Z) (deleted failed count : nat) (s : page) : page :=
  match ids with
  | [] => bulk_finish s
  | i :: rest =>
      if bulkDeleteCancelled s then bulk_finish s
      else fetch_delete i (AwaitBulk i rest deleted failed count) s
  end.

(** The end of one iteration: the progress text, then the next one. *)
Definition bulk_next (rest : list Z) (deleted failed count : nat) (s : page) : page :=
  bulk_loop rest deleted failed count (set_counters (deleted, failed) s).

Definition bulk_start (bulkId : Z) (toDeleteIds : list Z) (count : nat) (s : page) : page :=
  let s := set_pendingDeletes (delete bulkId (pendingDeletes s)) s in
  let s := set_counters (0, 0)%nat s in
  let s := set_bulkDeleteCancelled false s in
  bulk_loop toDeleteIds 0 0 count s.

(** The loop resumes after the first [fetch] of an iteration. *)
Definition bulk_resume (i : Z) (rest : list Z) (deleted failed count : nat)
    (r : fetch_result) (s : page) : page :=
  match r with
  | Rejected => bulk_next rest deleted (S failed) count s
  | Response resp =>
      if ok resp then bulk_next rest (S deleted) failed count s
      else
        match retry_after_truthy resp with
        | Some w => setTimeout (BulkRetryWait i rest deleted failed count) (w * 1000) s
        | None => bulk_next rest deleted (S failed) count s
        end
  end.

(** The loop resumes after the second [fetch] (the retry): its response is
    not looked at. *)
Definition bulk_retry_resume (rest : list Z) (deleted failed count : nat)
    (r : fetch_result) (s : page) : page :=
  match r with
  | Rejected => bulk_next rest deleted (S failed) count s
  | Response _ => bulk_next rest deleted failed count s
  end.

(** *** The event loop *)

Inductive event : Type :=
| ChatsLoaded (chats : list chat)
| AnalysisLoaded (users : list (string * list chat))
| ToggleChatSelection (i : Z)
| DeleteChat (i : Z) (title : string)
| UndoDelete (i : Z)
| DeleteSelected (confirmed : bool) (now : Z)
| CancelClick
| TimerFires (timeoutId : nat)
| FetchSettles (request : nat) (r : fetch_result).

Definition toggleChatSelection (i : Z) (s : page) : page :=
  if existsb (Z.eqb i) (selectedChats s)
  then set_selectedChats (List.filter (fun j => negb (j =? i)%Z) (selectedChats s)) s
  else set_selectedChats (selectedChats s ++ [i]) s.

Definition run_callback (cb : callback) (s : page) : page :=
  match cb with
  | CommitSingle i title c src => fetch_delete i (AwaitSingle i title c src) s
  | RetrySingle i title => deleteChat i title s
  | CommitBulk bulkId ids count => bulk_start bulkId ids count s
  | BulkRetryWait i rest deleted failed count =>
      fetch_delete i (AwaitBulkRetry i rest deleted failed count) s
  end.

Definition run_continuation (k : continuation) (r : fetch_result) (s : page) : page :=
  match k with
  | AwaitSingle i title c src => single_resume i title c src r s
  | AwaitSingleStats i => single_finally i s
  | AwaitBulk i rest deleted failed count => bulk_resume i rest deleted failed count r s
  | AwaitBulkRetry _ rest deleted failed count => bulk_retry_resume rest deleted failed count r s
  | AwaitBulkSync => s
  end.

(** The Cancel button of the progress modal has
    [onclick="cancelBulkDelete()"], but the script defines no function of
    this name: the click raises [ReferenceError] in the handler and
    changes nothing. Nothing else assigns [true] to
    [bulkDeleteCancelled]. *)
Definition cancelBulkDelete (s : page) : res unit * page :=
  (Raise (mkExn "ReferenceError" "cancelBulkDelete is not defined"), s).

Definition step (s : page) (e : event) : page :=
  match e with
  | ChatsLoaded chats => set_currentChats chats s
  | AnalysisLoaded users => set_analysisData (obj_of_members users) s
  | ToggleChatSelection i => toggleChatSelection i s
  | DeleteChat i title => deleteChat i title s
  | UndoDelete i => undoDelete i s
  | DeleteSelected confirmed now => deleteSelected confirmed now s
  | CancelClick => (cancelBulkDelete s).2
  | TimerFires t =>
      match timers s !! t with
      | Some (_, cb) => run_callback cb (clearTimeout t s)
      | None => s
      end
  | FetchSettles q r =>
      match requests s !! q with
      | Some k =>
          run_continuation k r
            (set_requests (delete q (requests s)) (next_request s) s)
      | None => s
      end
  end.

Definition run (s : page) (events : list event) : page :=
  fold_left step events s.

Definition reachable (s : page) : Prop :=
  exists events, s = run init events.

End Coordinator.

(** ** Further functions of the same files *)

Module TelethonMore.

(** [entity.id] *)
Definition entity_id (e : entity) : Z :=
  match e with
  | EUser u => user_id u
  | EChat c => chat_id c
  | EChannel c => channel_id c
  | EOther i _ => i
  end.

End TelethonMore.

(** A computation that only returns or raises. *)
#[global] Instance res_ret : MRet res := @Ok.
#[global] Instance res_bind : MBind res := fun A B k r =>
  match r with
  | Ok a => k a
  | Raise e => Raise e
  end.

(** ** cli_manager: exporting, deleting from a file, deleting one by one *)

Module CliTools.
Import Telethon TelethonMore PyMonad.

(** *** export_simple_list *)

(** An exported dictionary: its keys ["id"] and ["type"]. The other keys
    (["title"], ["username"], ["members"], the fields of a user) are not
    read back by the program, which only prints them. *)
Record simple_item : Type := mkSimple { si_id : Z; si_type : string }.

(** [get_user_details]: the flags are read with [getattr]; the title is
    [first_name], to which [f" {last_name}"] is added when [last_name]
    is truthy, which raises [TypeError] on a [first_name] that is
    [None]. *)
Definition get_user_details (user : User) : res simple_item :=
  _ ← getattr (bot user) false;
  _ ← getattr (scam user) false;
  _ ← getattr (fake user) false;
  match first_name user, last_name user with
  | None, Some (String _ _) =>
      Raise (mkExn "TypeError"
               "unsupported operand type(s) for +=: 'NoneType' and 'str'")
  | _, _ => mret (mkSimple (user_id user) "user")
  end.

(** [getattr(item, "broadcast", False)] and
    [getattr(item, "megagroup", False)]: only a [Channel] has them. *)
Definition getattr_broadcast (item : entity) : res bool :=
  match item with
  | EChannel c => getattr (broadcast c) false
  | _ => Ok false
  end.
Definition getattr_megagroup (item : entity) : res bool :=
  match item with
  | EChannel c => getattr (megagroup c) false
  | _ => Ok false
  end.

Definition isinstance_Chat (item : entity) : bool :=
  match item with EChat _ => true | _ => false end.

(** The conditional expression under the key ["type"]. *)
Definition simple_type (item : entity) : res string :=
  is_broadcast ← getattr_broadcast item;
  if is_broadcast : bool then mret "broadcast_channel"
  else
    is_megagroup ← getattr_megagroup item;
    if is_megagroup : bool then mret "supergroup"
    else if isinstance_Chat item then mret "basic_group"
    else mret "unknown".

(** One iteration of the loop: the dictionary appended for [item]. *)
Definition simple_entry (item : entity) : res simple_item :=
  match item with
  | EUser user => get_user_details user
  | _ => t ← simple_type item; mret (mkSimple (entity_id item) t)
  end.

(** [export_simple_list]: the list dumped into the file (the file name is
    left out); when an inspection raises, no file is written. *)
Fixpoint export_simple_list (items : list entity) : res (list simple_item) :=
  match items with
  | [] => mret []
  | item :: rest =>
      d ← simple_entry item;
      ds ← export_simple_list rest;
      mret (d :: ds)
  end.

(** *** delete_from_json_file, from the loaded list on *)

(** An object of the list read by [json.load], as far as its key ["id"]
    goes: [ji_id] is [Some i] when [item.get("id")] equals the integer [i],
    and [None] when the key is missing or holds anything else that can be
    looked up in a dictionary. *)
Record json_item : Type := mkJsonItem { ji_id : option Z }.

(** What [json.load] makes of a dumped dictionary. *)
Definition loaded (d : simple_item) : json_item := mkJsonItem (Some (si_id d)).

(** [{item.id: item for item in all_items}]: a later item replaces an
    earlier one with the same id. *)
Definition item_map (all_items : list entity) : gmap Z entity :=
  fold_left (fun m item => <[entity_id item := item]> m) all_items ∅.

Record matched : Type := mkMatched {
  found_items : list entity;
  not_found : list json_item
}.

(** One iteration of [for item in items_to_delete]. *)
Definition match_item (m : gmap Z entity) (acc : matched) (item : json_item)
  : matched :=
  match ji_id item ≫= (m !!.) with
  | Some e => mkMatched (found_items acc ++ [e]) (not_found acc)
  | None => mkMatched (found_items acc) (not_found acc ++ [item])
  end.

Definition match_items (m : gmap Z entity) (items_to_delete : list json_item)
  : matched :=
  fold_left (match_item m) items_to_delete (mkMatched [] []).

(** The locals of the deletion loop, and the entities handed to
    [client.delete_dialog], oldest first. An entry of [errors] stands for
    the message formatted from the item and the exception. *)
Record del_state : Type := mkDel {
  dialog_calls : list entity;
  left_count : nat;
  errors : list (entity * exn)
}.

Definition del_state0 : del_state := mkDel [] 0 [].

Definition log_dialog_call (item : entity) (s : del_state) : del_state :=
  mkDel (dialog_calls s ++ [item]) (left_count s) (errors s).
Definition bump_left_count (s : del_state) : del_state :=
  mkDel (dialog_calls s) (S (left_count s)) (errors s).
Definition push_error (item : entity) (e : exn) (s : del_state) : del_state :=
  mkDel (dialog_calls s) (left_count s) (errors s ++ [(item, e)]).

(** The dictionary written to the deletion log. *)
Record deletion_log : Type := mkLog {
  total_requested : nat;
  found : nat;
  successfully_deleted : nat;
  log_errors : list (entity * exn)
}.

(** How the function ends: one of its three early returns, or the log. *)
Inductive outcome : Type :=
| InvalidFormat
| NoMatchingItems
| Cancelled
| Deleted (log : deletion_log).

Section DeleteFromJson.
(** [client.delete_dialog(item)] *)
Variable delete_dialog : entity -> res unit.

(** One iteration of the deletion loop. *)
Definition delete_body (item : entity) : M unit :=
  try_except
    (modify (log_dialog_call item) ≫= λ _,
     lift (delete_dialog item) ≫= λ _,
     modify bump_left_count)
    (fun e => modify (push_error item e)).

(** [delete_from_json_file] once [items_to_delete] is loaded and is a
    list; [confirm] is the line typed at the "Type 'DELETE' to confirm"
    prompt. The result is the way the function ends and the entities
    handed to [delete_dialog]. *)
Definition delete_from_json_file (all_items : list entity)
    (items_to_delete : list json_item) (confirm : string)
  : outcome * list entity :=
  if (length items_to_delete =? 0)%nat then (InvalidFormat, [])
  else
    let m := item_map all_items in
    let matched := match_items m items_to_delete in
    if (length (found_items matched) =? 0)%nat then (NoMatchingItems, [])
    else if negb (String.eqb (PyStr.strip confirm) "DELETE") then (Cancelled, [])
    else
      let s := (for_each (found_items matched) delete_body del_state0).2 in
      (Deleted (mkLog (length items_to_delete) (length (found_items matched))
                  (left_count s) (errors s)),
       dialog_calls s).

End DeleteFromJson.

(** *** interactive_delete_users *)









Section Interactive.
Variable get_messages : User -> nat -> res (list message).
Variable delete_dialog : User -> res unit.



End Interactive.

End CliTools.

(** ** fastapi_manager: the stored configuration *)

Module Config.
Import PyMonad Analyzer.

(** The dictionary kept in [CONFIG_FILE] and in the global [config]. *)
Record config_data : Type := mkConfig {
  api_id : string;
  api_hash : string;
  phone : option string
}.

(** [CONFIG_FILE] on disk: absent, not readable as JSON, or holding a
    dictionary written by [save_config]. *)
Inductive config_file : Type :=
| NoFile
| Unreadable
| Stored (c : config_data).

(** The account returned by [client.get_me()]. *)
Record account : Type := mkAccount {
  acc_id : Z;
  acc_username : option string;
  acc_phone : option string;
  acc_first_name : option string
}.

(** The client object, as far as these endpoints call it. *)
Record client_object : Type := mkClient {
  log_out : res unit;
  is_user_authorized : res bool;
  client_is_connected : bool;
  disconnect : res unit;
  client_get_me : res account
}.

(** The module's globals, the configuration file and the [*.session]
    files of [BASE_DIR]. *)
Record server : Type := mkServer {
  config : option config_data;
  file : config_file;
  client : option client_object;
  is_connected : bool;
  current_session_file : option string;
  session_files : gset string
}.

Definition set_config (v : option config_data) (s : server) : server :=
  mkServer v (file s) (client s) (is_connected s) (current_session_file s)
    (session_files s).
Definition set_file (v : config_file) (s : server) : server :=
  mkServer (config s) v (client s) (is_connected s) (current_session_file s)
    (session_files s).
Definition set_client (v : option client_object) (s : server) : server :=
  mkServer (config s) (file s) v (is_connected s) (current_session_file s)
    (session_files s).
Definition set_is_connected (v : bool) (s : server) : server :=
  mkServer (config s) (file s) (client s) v (current_session_file s)
    (session_files s).
Definition set_current_session_file (v : option string) (s : server) : server :=
  mkServer (config s) (file s) (client s) (is_connected s) v (session_files s).
Definition set_session_files (v : gset string) (s : server) : server :=
  mkServer (config s) (file s) (client s) (is_connected s)
    (current_session_file s) v.

Definition CONFIG_FILE : string := "telegram_config.json".

(** Truthiness of a string or [None]. *)
Definition truthy (x : option string) : bool :=
  match x with
  | Some (String _ _) => true
  | _ => false
  end.

(** [a or b] *)
Definition or_else (a b : option string) : option string :=
  if truthy a then a else b.

(** [load_config] *)
Definition load_config : M (option config_data) := fun s =>
  match file s with
  | NoFile => (Ok (config s), s)
  | Unreadable => (Ok None, set_config None s)
  | Stored c => (Ok (Some c), set_config (Some c) s)
  end.

(** [current.get("phone")], where [current] is the dictionary read from
    the file, or [{}]. *)
Definition current_phone (f : config_file) : option string :=
  match f with
  | Stored c => phone c
  | _ => None
  end.

(** [save_config] (the file is taken to be writable). *)
Definition save_config (api_id api_hash : string) (phone : option string)
  : M config_data := fun s =>
  let config_data :=
    mkConfig api_id api_hash (or_else phone (current_phone (file s))) in
  (Ok config_data, set_file (Stored config_data) s).

(** The answer of [GET /api/config]. *)
Record config_status : Type := mkStatus {
  configured : bool;
  status_api_id : option string;
  status_phone : option string;
  has_hash : bool
}.

Definition get_config : M config_status :=
  c ← gets config;
  (if c is None then load_config ≫= λ _, mret tt else mret tt) ≫= λ _,
  c ← gets config;
  mret (mkStatus (bool_decide (c <> None))
          (api_id <$> c) (c ≫= phone)
          (match c with
           | Some d => truthy (Some (api_hash d))
           | None => false
           end)).

(** The answers of [GET /api/me]. *)
Inductive me_answer : Type :=
| SavedPhone (phone : string)
| Me (a : account)
| MeError (error : string).

Definition get_me (s : server) : api_error + me_answer :=
  match client s with
  | Some c =>
      if client_is_connected c then
        match client_get_me c with
        | Ok me => inr (Me me)
        | Raise e => inr (MeError (exc_str e))
        end
      else
        match config s ≫= phone with
        | Some (String a p) => inr (SavedPhone (String a p))
        | _ => inl NotConnectedError
        end
  | None =>
      match config s ≫= phone with
      | Some (String a p) => inr (SavedPhone (String a p))
      | _ => inl NotConnectedError
      end
  end.

(** [POST /api/config] *)
Definition save_app_config (api_id api_hash : string) : M unit :=
  c ← save_config api_id api_hash None;
  modify (set_config (Some c)).

Section Files.
(** [os.remove(path)]: whether the removal raises. *)
Variable os_remove : string -> res unit.

Definition remove_session (path : string) : M unit :=
  lift (os_remove path) ≫= λ _,
  modify (fun s => set_session_files (session_files s ∖ {[path]}) s).

(** [POST /api/logout]; an exception reaches the framework. *)
Definition logout : M unit :=
  c ← gets client;
  match c with
  | Some c =>
      lift (log_out c) ≫= λ _,
      if client_is_connected c then lift (disconnect c) else mret tt
  | None => mret tt
  end ≫= λ _,
  modify (set_is_connected false) ≫= λ _,
  modify (set_client None) ≫= λ _,
  cfg ← gets config;
  match cfg with
  | Some d =>
      new ← save_config (api_id d) (api_hash d) None;
      modify (set_config (Some new))
  | None => mret tt
  end ≫= λ _,
  path ← gets current_session_file;
  listed ← gets session_files;
  (if truthy path && bool_decide (default "" path ∈ listed)
   then try_except (remove_session (default "" path)) (fun _ => mret tt)
   else mret tt) ≫= λ _,
  modify (set_current_session_file None).

(** [POST /api/reset] *)
Definition reset_app : M unit :=
  c ← gets client;
  match c with
  | Some c =>
      try_except
        (authorized ← lift (is_user_authorized c);
         if authorized : bool then lift (log_out c) else mret tt)
        (fun _ => mret tt) ≫= λ _,
      if client_is_connected c then lift (disconnect c) else mret tt
  | None => mret tt
  end ≫= λ _,
  modify (set_is_connected false) ≫= λ _,
  modify (set_client None) ≫= λ _,
  modify (set_config None) ≫= λ _,
  f ← gets file;
  match f with
  | NoFile => mret tt
  | _ => lift (os_remove CONFIG_FILE) ≫= λ _, modify (set_file NoFile)
  end ≫= λ _,
  listed ← gets session_files;
  for_each (elements listed)
    (fun path => try_except (remove_session path) (fun _ => mret tt)).

End Files.

End Config.

(** ** The page: the type filter of the chat list *)

Module PageFilter.
Import Server Coordinator.

(** The chat object the page reads from a dictionary of [data.chats]. *)
Definition chat_of_dict (d : chat_data) : chat :=
  JsChat (cd_id d) (cd_title d) (Some (cd_type d)).

(** [c.type === t] *)
Definition has_type (t : string) (c : chat) : bool :=
  match type c with
  | Some t' => String.eqb t' t
  | None => false
  end.

(** [setFilter(type, btn)]: the list handed to [displayChats], whose
    length is written into the chat count; [None] when [type] is none of
    the four filters and [displayChats] is not called. *)
Definition setFilter (type : string) (currentChats : list chat)
  : option (list chat) :=
  if String.eqb type "all" then Some currentChats
  else if String.eqb type "groups" then
    Some (List.filter (fun c => has_type "group" c || has_type "supergroup" c)
            currentChats)
  else if String.eqb type "channels" then
    Some (List.filter (has_type "channel") currentChats)
  else if String.eqb type "users" then
    Some (List.filter (has_type "user") currentChats)
  else None.

(** [loadChats], when the answer carries no error: the new value of
    [currentChats] and the four numbers written by [updateStats] (total,
    groups, channels, users). *)
Definition loadChats (chats : list chat_data) (s : stats)
  : list chat * (nat * nat * nat * nat) :=
  (chat_of_dict <$> chats, (st_total s, st_groups s, st_channels s, st_users s)).

End PageFilter.

(** ** Notions used in the statements below *)

Module Props.
Import Classifier Analyzer.

Definition bucket_eqb (a b : Classifier.bucket) : bool :=
  match a, b with
  | BUsers, BUsers | BBasic, BBasic | BChannels, BChannels
  | BSuper, BSuper | BUnknown, BUnknown => true
  | _, _ => false
  end.

(** The chats of [l] that [categorize_chats] sends to bucket [b]. *)
Definition select (b : Classifier.bucket) (l : list entity) : list entity :=
  List.filter (fun c => bucket_eqb (bucket_of c) b) l.

(** *** Analyzers *)

(** A flag read through [getattr(user, name, False)] yields [b]. *)
Definition reads (a : attr) (b : bool) : Prop := getattr a false = Ok b.



(** No flag is set: the user reaches the message check. *)
Definition unflagged (u : User) : Prop :=
  deleted u = false /\ reads (bot u) false /\ reads (scam u) false
  /\ reads (fake u) false.

(** No attribute of the entity raises when it is inspected. *)
Definition quiet (a : attr) : Prop :=
  match a with AttrRaises _ => False | _ => True end.
Definition inspectable (d : entity) : Prop :=
  match d with
  | EUser u => quiet (bot u) /\ quiet (scam u) /\ quiet (fake u)
  | _ => True
  end.

(** The person entities of a listing, in order. *)
Definition persons (dialogs : list entity) : list User :=
  omap (fun d => match d with EUser u => Some u | _ => None end) dialogs.

(** The probe found nothing: it raised, or returned zero messages. *)
Definition probe_empty (r : res (list message)) : Prop :=
  match r with
  | Raise _ => True
  | Ok messages => messages = []
  end.


(** The seven lists of the CLI analysis. *)
Inductive ckey : Type :=
| CDeleted | CNoMessages | COnlyIncoming | CBots | CScam | CFake | CActive.

Definition cli_bucket (s : cli_state) (k : ckey) : list User :=
  match k with
  | CDeleted => deleted_users s
  | CNoMessages => no_messages s
  | COnlyIncoming => only_incoming s
  | CBots => bots s
  | CScam => scam_users s
  | CFake => fake_users s
  | CActive => active_chats s
  end.

Definition cli_put (k : ckey) (u : User) (s : cli_state) : cli_state :=
  match k with
  | CDeleted => append_deleted u s
  | CNoMessages => append_no_messages u s
  | COnlyIncoming => append_only_incoming u s
  | CBots => append_bots u s
  | CScam => append_scam u s
  | CFake => append_fake u s
  | CActive => append_active u s
  end.


(** What one iteration of the CLI loop does to the state. *)
Definition cli_step (get_messages : User -> nat -> res (list message))
    (s : cli_state) (u : User) : cli_state :=
  (cli_body get_messages u s).2.

(** API buckets *)
#[global] Instance ckey_eq_dec : EqDecision ckey.
Proof. solve_decision. Defined.


Definition api_all (a : analysis) : list user_data :=
  an_deleted a ++ an_no_messages a ++ an_bots a ++ an_scam a
    ++ an_fake a ++ an_active a.

Definition ids (l : list user_data) : list Z := ud_id <$> l.


(** The [user_data] dictionary of a user outside the [bots] list. *)
Definition data_of (u : User) : user_data :=
  mkUserData (user_id u) (user_title u).

#[global] Instance key_eq_dec : EqDecision key.
Proof. solve_decision. Defined.

(** The list a probe's outcome selects. *)
Definition probe_key (r : res (list message)) : key :=
  match r with
  | Raise _ => KNoMessages
  | Ok messages => if (length messages =? 0)%nat then KNoMessages else KActive
  end.

(** The decision taken for a user once [users_checked] has become [n]:
    the list, the entry appended to it, and whether the probe is called. *)
Definition api_decide (get_messages : User -> nat -> res (list message))
    (n : nat) (u : User) : res (key * user_data * bool) :=
  if deleted u then Ok (KDeleted, data_of u, false)
  else
    match getattr (bot u) false with
    | Raise e => Raise e
    | Ok true =>
        Ok (KBots, mkUserData (user_id u)
                     (PyStr.or_str (first_name u) "Unknown Bot"), false)
    | Ok false =>
        match getattr (scam u) false with
        | Raise e => Raise e
        | Ok true => Ok (KScam, data_of u, false)
        | Ok false =>
            match getattr (fake u) false with
            | Raise e => Raise e
            | Ok true => Ok (KFake, data_of u, false)
            | Ok false =>
                if (n <=? 50)%nat
                then Ok (probe_key (get_messages u 1), data_of u, true)
                else Ok (KActive, data_of u, false)
            end
        end
    end.

(** The state of the API loop after the listing [dialogs]. *)
Definition api_after (get_messages : User -> nat -> res (list message))
    (dialogs : list entity) : api_state :=
  (analyze_loop get_messages dialogs).2.

(** Whether the probe is called for [u] when it follows the listing
    [pre]. *)
Definition probed_at (get_messages : User -> nat -> res (list message))
    (pre : list entity) (u : User) : bool :=
  let s := api_after get_messages pre in
  let s1 := (api_body get_messages (EUser u) s).2 in
  (length (probe_calls s1) =? S (length (probe_calls s)))%nat.

(** The gate as the specification words it: an unflagged person is probed exactly
    while the running count of probed users, this one included, is within
    the budget. *)
Definition gate_on_probed_count
    (get_messages : User -> nat -> res (list message)) (budget : nat) : Prop :=
  forall pre u,
    (analyze_loop get_messages pre).1 = Ok tt ->
    unflagged u ->
    (probed_at get_messages pre u = true
     <-> (S (length (probe_calls (api_after get_messages pre))) <= budget)%nat).

(** The probe with its failures replaced by an empty answer. *)
Definition absorb (get_messages : User -> nat -> res (list message))
  : User -> nat -> res (list message) :=
  fun u n =>
    match get_messages u n with
    | Raise _ => Ok []
    | Ok messages => Ok messages
    end.

(** *** Sample inputs *)

Definition plain_user (i : Z) : User :=
  mkUser i (Some "Ann") None None false AttrMissing AttrMissing AttrMissing.


Definition deleted_user (i : Z) : User :=
  mkUser i None None None true AttrMissing AttrMissing AttrMissing.

(** [n] persons with the ids [first], [first + 1], ... *)
Definition plain_users (first : Z) (n : nat) : list User :=
  plain_user <$> seqZ first (Z.of_nat n).
Definition deleted_users_from (first : Z) (n : nat) : list User :=
  deleted_user <$> seqZ first (Z.of_nat n).

(** A probe double that finds no message. *)
Definition probe_nothing : User -> nat -> res (list message) :=
  fun _ _ => Ok [].

(** A probe double that always fails. *)
Definition probe_fails : User -> nat -> res (list message) :=
  fun _ _ => Raise (mkExn "ConnectionError" "timed out").

(** *** Server *)

(** The exception is not classified as a rate limit by [delete_chat]. *)
Definition not_flood (e : exn) : Prop :=
  Server.contains "FloodWaitError" (exc_type_name e) = false
  /\ Server.contains "flood" (Server.lower (exc_str e)) = false.

(** The lookup of the entity, or the delete call, raises [e]. *)
Definition delete_raises (get_entity : Z -> res entity)
    (delete_dialog : entity -> res unit) (chat_id : Z) (e : exn) : Prop :=
  get_entity chat_id = Raise e
  \/ exists entity, get_entity chat_id = Ok entity
                    /\ delete_dialog entity = Raise e.

(** The client library's error for an id it cannot resolve. *)
Definition not_found (i : Z) : exn :=
  mkExn "ValueError" "Could not find the input entity for the given peer".

Definition entity_gone : Z -> res entity := fun i => Raise (not_found i).
Definition delete_works : entity -> res unit := fun _ => Ok tt.

Definition valid_export_type (t : string) : Prop :=
  t = "groups" \/ t = "channels" \/ t = "users".

(** *** Coordinator *)

Import Coordinator.

(** The list a source names: [currentChats], or
    [window.analysisData[category]]. *)
Definition view (src : source) (s : page) : list chat :=
  match src with
  | Main => currentChats s
  | Analysis category => default [] (obj_get category (analysisData s))
  end.

(** The keys of [window.analysisData], in order. *)
Definition categories (s : page) : list string := (analysisData s).*1.

(** A timer closure that will, or may, lead to a delete request for an id
    in [P]. *)
Definition callback_targets (P : Z -> Prop) (cb : callback) : Prop :=
  match cb with
  | CommitSingle j _ _ _ => P j
  | RetrySingle j _ => P j
  | CommitBulk _ toDeleteIds _ => Exists P toDeleteIds
  | BulkRetryWait j rest _ _ _ => P j \/ Exists P rest
  end.

Definition continuation_targets (P : Z -> Prop) (k : continuation) : Prop :=
  match k with
  | AwaitSingle j _ _ _ => P j
  | AwaitSingleStats _ => False
  | AwaitBulk j rest _ _ _ => P j \/ Exists P rest
  | AwaitBulkRetry _ rest _ _ _ => Exists P rest
  | AwaitBulkSync => False
  end.

(** Nothing scheduled or in flight concerns an id in [P]. *)
Definition untargeted (P : Z -> Prop) (s : page) : Prop :=
  map_Forall (fun _ dc => ~ callback_targets P dc.2) (timers s)
  /\ map_Forall (fun _ k => ~ continuation_targets P k) (requests s).

(** No id in [P] is selected. *)
Definition unselected (P : Z -> Prop) (s : page) : Prop :=
  Forall (fun j => ~ P j) (selectedChats s).

(** Timer and request numbers are below the next ones to be handed
    out. *)
Definition bounded (s : page) : Prop :=
  (forall t, is_Some (timers s !! t) -> (t < next_timer s)%nat)
  /\ (forall q, is_Some (requests s !! q) -> (q < next_request s)%nat).

(** An event that does not ask again for the deletion of an id in [P]: no
    new [deleteChat] for it, and it is not put back into the selection. *)
Definition leaves_alone (P : Z -> Prop) (e : event) : Prop :=
  match e with
  | DeleteChat j _ => ~ P j
  | ToggleChatSelection j => ~ P j
  | _ => True
  end.

(** What the functions of the page preserve, for the ids in [P]: the
    delete requests they add are for other ids. *)
Record preserves (P : Z -> Prop) (s s' : page) : Prop := mkPreserves {
  pres_bounded : bounded s -> bounded s';
  pres_untargeted : untargeted P s -> untargeted P s';
  pres_unselected : unselected P s -> unselected P s';
  pres_categories : NoDup (categories s) -> NoDup (categories s');
  pres_calls : exists extra,
    calls s' = calls s ++ extra /\ Forall (fun j => ~ P j) extra
}.

(** The page's invariant. *)
Definition well_formed (s : page) : Prop :=
  bounded s /\ NoDup (categories s).

(** Sample chats and responses. *)
Definition alice : chat := JsChat 1 "Alice" (Some "user").
Definition bob : chat := JsChat 2 "Bob" (Some "user").
Definition carol : chat := JsChat 7 "Carol" None.

Definition response_ok : fetch_result :=
  Response (Server.delete_chat_http (inr Server.DeleteSuccess)).
Definition response_rate_limited (seconds : Z) : fetch_result :=
  Response (Server.delete_chat_http (inr (Server.RateLimited seconds))).

End Props.

(** ** Notions used in the statements about the further functions *)

Module More.
Import Classifier Analyzer Server TelethonMore Props.

(** The number of listed chats of a given type. *)
Definition count_type (t : string) (chats : list chat_data) : nat :=
  length (List.filter (fun d => String.eqb (cd_type d) t) chats).

(** The user reaches the message probe of the CLI analyzer: no flag is
    set and no flag raises. *)
Definition cli_reaches_probe (u : User) : bool :=
  negb (deleted u)
  && match getattr (bot u) false, getattr (scam u) false, getattr (fake u) false with
     | Ok false, Ok false, Ok false => true
     | _, _, _ => false
     end.

(** The statistics of a state of the listing loop agree with its list. *)
Definition stats_agree (s : chats_state) : Prop :=
  st_users (st s) = count_type "user" (chats s)
  /\ st_channels (st s) = count_type "channel" (chats s)
  /\ st_groups (st s)
     = (count_type "supergroup" (chats s) + count_type "group" (chats s))%nat
  /\ st_total (st s) = length (chats s)
  /\ st_total (st s)
     = (st_users (st s) + st_channels (st s) + st_groups (st s))%nat.

(** *** Numbers in error messages *)






(** [delete_chat] takes the exception for a rate limit. *)
Definition is_flood (e : exn) : Prop :=
  contains "FloodWaitError" (exc_type_name e) = true
  \/ contains "flood" (lower (exc_str e)) = true.

(** [get_chats] can read the dialog: the flags of a user do not raise,
    and a channel object has its [broadcast] attribute. *)
Definition listable (d : entity) : Prop :=
  match d with
  | EUser u => quiet (bot u) /\ quiet (scam u)
  | EChannel c => exists b, broadcast c = AttrVal b
  | _ => True
  end.

(** The filter of an export type. *)
Definition filter_of (export_type : string) : option (pyobj -> res bool) :=
  if String.eqb export_type "groups" then Some is_group
  else if String.eqb export_type "channels" then Some is_channel
  else if String.eqb export_type "users" then Some is_user
  else None.

End More.

Module PageNotions.
Import Server Coordinator Props.

(** The event asks for the deletion of [i], or selects it. *)
Definition asks_for (i : Z) (e : event) : Prop :=
  match e with
  | DeleteChat j _ => j = i
  | ToggleChatSelection j => j = i
  | _ => False
  end.

(** A delete request that failed for good: the fetch was rejected, or the
    answer is an error without a usable [retry_after]. *)
Definition failed_for_good (r : fetch_result) : Prop :=
  match r with
  | Rejected => True
  | Response resp => ok resp = false /\ retry_after_truthy resp = None
  end.

(** The alert of the single delete for such a result. *)
Definition failure_alert (r : fetch_result) : string :=
  match r with
  | Rejected => "Network error deleting chat"
  | Response resp =>
      "Error deleting chat: " +:+ PyStr.or_str (body_error resp) "Unknown error"
  end.

#[global] Instance source_eq_dec : EqDecision source.
Proof. solve_decision. Defined.

(** The ids, and the chats, of the stored items taken from the list
    [src]. *)
Definition ids_from (src : source) (items : list item) : list Z :=
  item_id <$> List.filter (fun it => bool_decide (item_source it = src)) items.
Definition chats_from (src : source) (items : list item) : list chat :=
  item_chat <$> List.filter (fun it => bool_decide (item_source it = src)) items.

(** The chat's id is none of [ids]. *)
Definition keep (ids : list Z) (c : chat) : bool :=
  forallb (fun j => negb (id c =? j)%Z) ids.

(** The page once the single delete of [i], armed in [s], has sent its
    request and the answer has arrived, before the callback goes on. *)
Definition in_flight (i : Z) (title : string) (c : chat) (src : source)
    (s : page) : page :=
  set_requests (requests s) (S (next_request s))
    (set_calls (calls s ++ [i])
       (set_timers (timers s) (S (next_timer s))
          (set_pendingDeletes
             (<[i := Single (next_timer s) title c src]> (pendingDeletes s))
             (set_selectedChats
                (List.filter (fun j => negb (j =? i)%Z) (selectedChats s))
                (remove_from src i s))))).

(** The answers [rs] arriving, in order, for the requests numbered from
    [q] on. *)
Fixpoint settles (q : nat) (rs : list fetch_result) : list event :=
  match rs with
  | [] => []
  | r :: rs => FetchSettles q r :: settles (S q) rs
  end.

(** [response.ok] of a settled request; a rejected one has none. *)
Definition succeeded (r : fetch_result) : bool :=
  match r with
  | Rejected => false
  | Response resp => ok resp
  end.

(** An error answer with a usable [retry_after]. *)
Definition rate_limited (r : fetch_result) : Prop :=
  match r with
  | Rejected => False
  | Response resp => ok resp = false /\ is_Some (retry_after_truthy resp)
  end.

Definition count_ok (rs : list fetch_result) : nat :=
  length (List.filter succeeded rs).
Definition count_failed (rs : list fetch_result) : nat :=
  length (List.filter (fun r => negb (succeeded r)) rs).

(** Every list of the page has distinct ids. *)
Definition distinct_ids (s : page) : Prop :=
  forall src, NoDup (id <$> view src s).

End PageNotions.

Module CliNotions.
Import Telethon TelethonMore CliTools Classifier Props.

Definition is_ok {A} (r : res A) : bool :=
  match r with Ok _ => true | Raise _ => false end.

(** The entities a loaded file asks for: for each listed id that
    [all_items] knows, the entity kept under this id, in file order. *)
Definition requested (all_items : list entity) (items : list json_item)
  : list entity :=
  omap (fun item => ji_id item ≫= (item_map all_items !!.)) items.

(** The items for which [delete_dialog] raises, with the exception. *)
Definition failures (delete_dialog : entity -> res unit) (l : list entity)
  : list (entity * exn) :=
  omap (fun item => match delete_dialog item with
                    | Raise e => Some (item, e)
                    | Ok _ => None
                    end) l.







(** A channel object on which [broadcast] reads false and [megagroup]
    reads [m]. *)
Definition plain_channel (item : entity) (m : bool) : Prop :=
  match item with
  | EChannel c => reads (broadcast c) false /\ reads (megagroup c) m
  | _ => False
  end.

End CliNotions.

(** * Properties *)

(** ** Classifier *)

Section ClassifierFacts.
Import Classifier Props.

Lemma categorize_loop_select (l : list entity) (a : acc) :
  categorize_loop a l =
  mkAcc (a_channels a ++ select BChannels l)
        (a_supergroups a ++ select BSuper l)
        (a_users a ++ select BUsers l)
        (a_basic_groups a ++ select BBasic l)
        (a_unknown a ++ select BUnknown l).
Proof.
  revert a. induction l as [|c l IH]; intros a.
  - destruct a; simpl. by rewrite !app_nil_r.
  - unfold categorize_loop in *. simpl. rewrite IH. unfold loop_body, select.
    simpl. destruct (bucket_of c); simpl; rewrite <- ?app_assoc; reflexivity.
Qed.

Lemma select_lengths (l : list entity) :
  (length (select BUsers l) + length (select BBasic l)
   + length (select BSuper l) + length (select BChannels l)
   + length (select BUnknown l) = length l)%nat.
Proof.
  induction l as [|c l IH]; [reflexivity|].
  unfold select in *. simpl. destruct (bucket_of c); simpl; lia.
Qed.

Lemma select_partition (l : list entity) :
  select BUsers l ++ select BBasic l ++ select BSuper l
    ++ select BChannels l ++ select BUnknown l ≡ₚ l.
Proof.
  induction l as [|c l IH]; [reflexivity|].
  unfold select in *. simpl. destruct (bucket_of c); simpl.
  - by rewrite IH.
  - rewrite <- Permutation_middle. by rewrite IH.
  - rewrite (app_assoc _ _ (c :: _)), (app_assoc _ _ (c :: _)).
    rewrite <- Permutation_middle. rewrite <- !app_assoc. by rewrite IH.
  - rewrite (app_assoc _ _ (c :: _)). rewrite <- Permutation_middle.
    rewrite <- !app_assoc. by rewrite IH.
  - rewrite (app_assoc _ _ (c :: _)), (app_assoc _ _ (c :: _)),
      (app_assoc _ _ (c :: _)).
    rewrite <- Permutation_middle. rewrite <- !app_assoc. by rewrite IH.
Qed.

(** The five buckets partition the input: together they are a
    rearrangement of it, so their sizes add up to its length. *)
Lemma categorize_partition (all_chats : list entity) :
  let c := categorize_chats all_chats in
  users c ++ basic_groups c ++ supergroups c ++ channels c ++ unknown c
    ≡ₚ all_chats
  /\ five_total c = length all_chats.
Proof.
  unfold categorize_chats, five_total. simpl.
  rewrite categorize_loop_select. simpl. split.
  - apply select_partition.
  - apply select_lengths.
Qed.

(** [groups] is [basic_groups] followed by [supergroups], and no chat of
    a duplicate-free input occurs twice in it. *)
Lemma categorize_groups (all_chats : list entity) :
  let c := categorize_chats all_chats in
  groups c = basic_groups c ++ supergroups c
  /\ (NoDup all_chats -> NoDup (groups c)).
Proof.
  unfold categorize_chats. simpl. split; [reflexivity|].
  intros Hnd. rewrite categorize_loop_select. simpl.
  pose proof (select_partition all_chats) as Hp.
  rewrite <- Hp in Hnd.
  apply NoDup_app in Hnd as (_ & _ & Hnd).
  rewrite app_assoc in Hnd. by apply NoDup_app in Hnd as (Hnd & _ & _).
Qed.

(** What [print_chat_statistics] prints as the total, for every input. *)
Lemma print_chat_statistics_total_eq (all_chats : list entity) :
  let c := categorize_chats all_chats in
  print_chat_statistics_total c = (length all_chats + length (groups c))%nat.
Proof.
  intros c. pose proof (categorize_partition all_chats) as [_ H].
  fold c in H. unfold five_total in H.
  unfold print_chat_statistics_total, values. cbn [map foldr]. lia.
Qed.

(** C1. One basic group is one chat, yet "Total Chats" prints 2: the sum
    over [categorized.values()] counts the derived [groups] list on top of
    [basic_groups], although the five buckets alone add up to the length
    of the input. *)
Theorem C1_total_counts_groups_twice :
  let all_chats := [EChat (mkChat 1 "family" None)] in
  let c := categorize_chats all_chats in
  length all_chats = 1%nat
  /\ five_total c = 1%nat
  /\ groups c = basic_groups c ++ supergroups c
  /\ print_chat_statistics_total c = 2%nat.
Proof. repeat split. Qed.

End ClassifierFacts.

(** ** Spam analyzers *)

Section MonadFacts.
Context {St A : Type}.
Implicit Types (body : A -> @M St unit) (s : St).

Lemma for_each_cons body x l s :
  for_each (x :: l) body s =
  match body x s with
  | (Ok _, s1) => for_each l body s1
  | (Raise e, s1) => (Raise e, s1)
  end.
Proof. reflexivity. Qed.

Lemma for_each_app body l1 l2 s :
  for_each (l1 ++ l2) body s =
  match for_each l1 body s with
  | (Ok _, s1) => for_each l2 body s1
  | (Raise e, s1) => (Raise e, s1)
  end.
Proof.
  revert s. induction l1 as [|x l1 IH]; intros s; [reflexivity|].
  rewrite <- app_comm_cons, !for_each_cons.
  destruct (body x s) as [[[]|e] s1]; [apply IH | reflexivity].
Qed.

(** A loop whose body never raises runs to its end. *)
Lemma for_each_total body l s (step : St -> A -> St) :
  (forall x s, body x s = (Ok tt, step s x)) ->
  for_each l body s = (Ok tt, fold_left step l s).
Proof.
  intros Hb. revert s. induction l as [|x l IH]; intros s; [reflexivity|].
  rewrite for_each_cons, Hb. apply IH.
Qed.
End MonadFacts.

Section CliFacts.
Import Analyzer Props.
Variable get_messages : User -> nat -> res (list message).

Lemma cli_body_ok u s :
  cli_body get_messages u s = (Ok tt, cli_step get_messages s u).
Proof.
  unfold cli_step, cli_body, try_except, cli_try, cli_get_messages.
  destruct (deleted u); [reflexivity|].
  unfold mbind, M_bind, bind, lift, modify; simpl.
  destruct (getattr (bot u) false) as [[]|]; simpl; try reflexivity.
  destruct (getattr (scam u) false) as [[]|]; simpl; try reflexivity.
  destruct (getattr (fake u) false) as [[]|]; simpl; try reflexivity.
  destruct (get_messages u 10) as [msgs|]; simpl; try reflexivity.
  destruct (length msgs =? 0)%nat; [reflexivity|].
  destruct (negb (existsb out msgs)); reflexivity.
Qed.

Lemma analyze_user_chats_ok users :
  analyze_user_chats get_messages users
  = (Ok tt, fold_left (cli_step get_messages) users cli_state0).
Proof. apply for_each_total, cli_body_ok. Qed.

(** One iteration appends the user to one list, after at most one probe. *)
Lemma cli_step_put s u :
  exists k, cli_step get_messages s u = cli_put k u s
         \/ cli_step get_messages s u = cli_put k u (log_cli_probe u s).
Proof.
  unfold cli_step, cli_body, try_except, cli_try, cli_get_messages.
  destruct (deleted u); [exists CDeleted; by left|].
  unfold mbind, M_bind, bind, lift, modify; simpl.
  destruct (getattr (bot u) false) as [[]|]; simpl;
    [exists CBots; by left | | exists CNoMessages; by left].
  destruct (getattr (scam u) false) as [[]|]; simpl;
    [exists CScam; by left | | exists CNoMessages; by left].
  destruct (getattr (fake u) false) as [[]|]; simpl;
    [exists CFake; by left | | exists CNoMessages; by left].
  destruct (get_messages u 10) as [msgs|]; simpl;
    [| exists CNoMessages; by right].
  destruct (length msgs =? 0)%nat; [exists CNoMessages; by right|].
  destruct (negb (existsb out msgs));
    [exists COnlyIncoming; by right | exists CActive; by right].
Qed.




(** Lists only grow. *)
Lemma cli_step_mono s u k x :
  x ∈ cli_bucket s k -> x ∈ cli_bucket (cli_step get_messages s u) k.
Proof.
  intros Hx. destruct (cli_step_put s u) as [k' [-> | ->]];
    destruct k, k'; simpl in *; set_solver.
Qed.

Lemma cli_fold_mono users s k x :
  x ∈ cli_bucket s k ->
  x ∈ cli_bucket (fold_left (cli_step get_messages) users s) k.
Proof.
  revert s. induction users as [|u users IH]; intros s Hx; [done|].
  simpl. by apply IH, cli_step_mono.
Qed.



End CliFacts.

Section ApiFacts.
Import Analyzer Props.
Variable get_messages : User -> nat -> res (list message).


Lemma api_body_user u s :
  (api_body get_messages) (EUser u) s =
  match api_decide get_messages (S (users_checked s)) u with
  | Ok (k, d, p) =>
      (Ok tt, mkApi (S (users_checked s)) (append k d (result s))
                (probe_calls s ++ if p then [user_id u] else []))
  | Raise e => (Raise e, incr_users_checked s)
  end.
Proof.
  unfold api_body, api_decide, message_check, api_get_messages, try_except.
  unfold mbind, M_bind, bind, lift, modify, gets, incr_users_checked, put.
  simpl. destruct (deleted u); simpl; [by rewrite app_nil_r|].
  destruct (getattr (bot u) false) as [[]|]; simpl;
    rewrite ?app_nil_r; try reflexivity.
  destruct (getattr (scam u) false) as [[]|]; simpl;
    rewrite ?app_nil_r; try reflexivity.
  destruct (getattr (fake u) false) as [[]|]; simpl;
    rewrite ?app_nil_r; try reflexivity.
  destruct (users_checked s <=? 49)%nat eqn:Hn; simpl;
    rewrite ?app_nil_r; try reflexivity.
  unfold probe_key. destruct (get_messages u 1) as [msgs|]; simpl;
    [|reflexivity].
  destruct (length msgs =? 0)%nat; reflexivity.
Qed.

Lemma api_body_other d s :
  (forall u, d <> EUser u) -> (api_body get_messages) d s = (Ok tt, s).
Proof. destruct d; intros H; try reflexivity. by destruct (H u). Qed.

Lemma bucket_append k d a k' :
  bucket (append k d a) k' =
  if decide (k = k') then bucket a k' ++ [d] else bucket a k'.
Proof. destruct k, k'; reflexivity. Qed.

Lemma api_all_append k d a : api_all (append k d a) ≡ₚ d :: api_all a.
Proof.
  unfold api_all. destruct k; simpl; rewrite <- ?app_assoc; simpl;
    rewrite <- ?Permutation_middle; rewrite ?app_nil_r; reflexivity.
Qed.

Lemma api_decide_id n u k d p :
  api_decide get_messages n u = Ok (k, d, p) -> ud_id d = user_id u.
Proof.
  unfold api_decide. destruct (deleted u); [by intros [= <- <- <-]|].
  destruct (getattr (bot u) false) as [[]|]; [by intros [= <- <- <-]| |done].
  destruct (getattr (scam u) false) as [[]|]; [by intros [= <- <- <-]| |done].
  destruct (getattr (fake u) false) as [[]|]; [by intros [= <- <- <-]| |done].
  destruct (n <=? 50)%nat; by intros [= <- <- <-].
Qed.

(** The invariants of a run of the loop that reaches its end. *)
Lemma api_loop_inv dialogs s s' :
  for_each dialogs (api_body get_messages) s = (Ok tt, s') ->
  users_checked s' = (users_checked s + length (persons dialogs))%nat
  /\ ids (api_all (result s'))
       ≡ₚ ids (api_all (result s)) ++ (user_id <$> persons dialogs)
  /\ (forall k x, x ∈ bucket (result s) k -> x ∈ bucket (result s') k).
Proof.
  revert s. induction dialogs as [|d dialogs IH]; intros s.
  - intros [= <-]. simpl. rewrite app_nil_r. split; [lia|]. done.
  - rewrite for_each_cons.
    destruct d as [u| | |].
    2-4: rewrite api_body_other by done; intros H; apply IH in H; exact H.
    rewrite api_body_user.
    destruct (api_decide get_messages (S (users_checked s)) u)
      as [[[k d] p]|e] eqn:Hd; [|done].
    intros H. apply IH in H as (Hn & Hp & Hm). simpl in *.
    split; [lia|]. split.
    + rewrite Hp. unfold ids. rewrite api_all_append. simpl.
      rewrite (api_decide_id _ _ _ _ _ Hd).
      by rewrite <- Permutation_middle.
    + intros k' x Hx. apply Hm. rewrite bucket_append.
      case_decide; set_solver.
Qed.






End ApiFacts.

Section PriorityFacts.
Import Analyzer Props.
Variable get_messages : User -> nat -> res (list message).



End PriorityFacts.


Section BudgetFacts.
Import Analyzer Props.
Variable get_messages : User -> nat -> res (list message).

Lemma api_decide_unflagged n u :
  unflagged u ->
  api_decide get_messages n u =
  if (n <=? 50)%nat then Ok (probe_key (get_messages u 1), data_of u, true)
  else Ok (KActive, data_of u, false).
Proof.
  unfold unflagged, reads, api_decide. by intros (-> & -> & -> & ->).
Qed.

Lemma api_after_run pre s :
  for_each pre (api_body get_messages) api_state0 = (Ok tt, s) ->
  api_after get_messages pre = s
  /\ users_checked s = length (persons pre).
Proof.
  intros Hrun. unfold api_after, analyze_loop. rewrite Hrun. split; [done|].
  by apply api_loop_inv in Hrun as (-> & _).
Qed.

Lemma analyze_loop_ok pre :
  (analyze_loop get_messages pre).1 = Ok tt ->
  for_each pre (api_body get_messages) api_state0
  = (Ok tt, api_after get_messages pre).
Proof.
  unfold api_after, analyze_loop.
  destruct (for_each pre (api_body get_messages) api_state0) as [[[]|] s];
    simpl; intros; by simplify_eq.
Qed.

Lemma api_after_snoc pre u :
  (analyze_loop get_messages pre).1 = Ok tt ->
  api_after get_messages (pre ++ [EUser u])
  = (api_body get_messages (EUser u) (api_after get_messages pre)).2.
Proof.
  intros Hrun%analyze_loop_ok. unfold api_after at 1, analyze_loop.
  rewrite for_each_app, Hrun, for_each_cons.
  destruct (api_body get_messages (EUser u) (api_after get_messages pre))
    as [[[]|] s]; reflexivity.
Qed.

(** The run over unflagged persons only, from any state of the loop. *)
Lemma api_unflagged_run us s :
  Forall unflagged us ->
  exists s',
    for_each (EUser <$> us) (api_body get_messages) s = (Ok tt, s')
    /\ probe_calls s'
       = probe_calls s ++ (user_id <$> take (50 - users_checked s) us)
    /\ forall u, u ∈ drop (50 - users_checked s) us ->
                 data_of u ∈ an_active (result s').
Proof.
  intros Hus. revert s. induction Hus as [|u us Hu Hus IH]; intros s.
  - exists s. rewrite take_nil, drop_nil, app_nil_r. split; [done|].
    split; [done|]. intros u Hin. by apply elem_of_nil in Hin.
  - rewrite fmap_cons, for_each_cons, api_body_user.
    rewrite (api_decide_unflagged _ _ Hu).
    destruct (S (users_checked s) <=? 50)%nat eqn:Hle.
    + apply Nat.leb_le in Hle.
      edestruct IH as (s' & Hrun & Hcalls & Hact). exists s'.
      split; [exact Hrun|].
      cbn [users_checked probe_calls result] in Hcalls, Hact.
      replace (50 - users_checked s)%nat with (S (50 - S (users_checked s)))
        by lia.
      rewrite firstn_cons, fmap_cons, skipn_cons. split.
      * rewrite Hcalls. rewrite <- (app_assoc (probe_calls s)). reflexivity.
      * exact Hact.
    + apply Nat.leb_gt in Hle.
      edestruct IH as (s' & Hrun & Hcalls & Hact). exists s'.
      split; [exact Hrun|].
      cbn [users_checked probe_calls result] in Hcalls, Hact.
      replace (50 - users_checked s)%nat with 0%nat by lia.
      replace (50 - S (users_checked s))%nat with 0%nat in * by lia.
      rewrite take_0 in *. rewrite drop_0 in *. split.
      * rewrite Hcalls. rewrite !app_nil_r. reflexivity.
      * intros v [-> | Hin]%elem_of_cons; [|by apply Hact].
        apply api_loop_inv in Hrun as (_ & _ & Hm).
        apply (Hm KActive). simpl. set_solver.
Qed.

(** C3 (as amended). The gate of the message check is [users_checked],
    the number of persons met so far in the listing, flagged ones and the
    current one included: an unflagged person is probed when that number
    is at most 50, and is otherwise appended to [active] with no probe.
    With 60 unflagged persons the probe is called for the first 50 only,
    and the persons 51 to 60 are in [active]. *)
Theorem C3_gate_on_users_checked :
  (forall pre u,
     (analyze_loop get_messages pre).1 = Ok tt ->
     unflagged u ->
     let s := api_after get_messages pre in
     let s1 := api_after get_messages (pre ++ [EUser u]) in
     users_checked s = length (persons pre)
     /\ ((S (length (persons pre)) <= 50)%nat ->
         probe_calls s1 = probe_calls s ++ [user_id u]
         /\ result s1
            = append (probe_key (get_messages u 1)) (data_of u) (result s))
     /\ ((50 < S (length (persons pre)))%nat ->
         probe_calls s1 = probe_calls s
         /\ result s1 = append KActive (data_of u) (result s)))
  /\ (forall us : list User,
        length us = 60%nat ->
        Forall unflagged us ->
        let r := analyze_loop get_messages (EUser <$> us) in
        r.1 = Ok tt
        /\ probe_calls r.2 = user_id <$> take 50 us
        /\ forall u, u ∈ drop 50 us -> data_of u ∈ an_active (result r.2)).
Proof.
  split.
  - intros pre u Hrun Hu s s1. subst s s1.
    rewrite (api_after_snoc _ _ Hrun).
    apply analyze_loop_ok, api_after_run in Hrun as [_ Hn].
    split; [exact Hn|]. rewrite api_body_user, (api_decide_unflagged _ _ Hu).
    rewrite Hn. split.
    + intros Hle%Nat.leb_le. by rewrite Hle.
    + intros Hgt%Nat.leb_gt. rewrite Hgt. simpl. by rewrite app_nil_r.
  - intros us Hlen Hus r. subst r. unfold analyze_loop.
    destruct (api_unflagged_run us api_state0 Hus) as (s' & -> & Hc & Ha).
    simpl in *. done.
Qed.

End BudgetFacts.

(** Sixty plain persons and a probe that finds nothing: fifty probe calls,
    for the ids 1 to 50, and the person 51 is listed as active. *)
Lemma C3_sixty_users_witness :
  let us := Props.plain_users 1 60 in
  let r := Analyzer.analyze_loop Props.probe_nothing (EUser <$> us) in
  Analyzer.probe_calls r.2 = seqZ 1 50
  /\ Props.data_of (Props.plain_user 51) ∈ Analyzer.an_active (Analyzer.result r.2).
Proof.
  intros us r.
  destruct (C3_gate_on_users_checked Props.probe_nothing) as [_ H].
  destruct (H us) as (_ & Hcalls & Hact).
  - reflexivity.
  - unfold us, Props.plain_users. apply Forall_fmap, Forall_forall.
    intros i _. repeat split.
  - split; [exact Hcalls|]. apply Hact. vm_compute. set_solver.
Defined.

(** C3 as the specification words it fails: after fifty deleted accounts, for
    which no probe is made, the next plain person is not probed and is
    listed as active, although the number of probed users is still zero. *)
Lemma C3_counterexample :
  ~ Props.gate_on_probed_count Props.probe_nothing 50.
Proof.
  intros H.
  specialize (H (EUser <$> Props.deleted_users_from 1 50) (Props.plain_user 51)).
  destruct H as [_ H]; [reflexivity | repeat split |].
  discriminate H. vm_compute. lia.
Qed.

Section AbsorptionFacts.
Import Analyzer Props.
Variable get_messages : User -> nat -> res (list message).

Lemma probe_key_empty r : probe_empty r -> probe_key r = KNoMessages.
Proof. destruct r as [[|m l]|e]; simpl; by intros. Qed.

Lemma probe_key_absorb u n :
  probe_key (absorb get_messages u n) = probe_key (get_messages u n).
Proof. unfold absorb. by destruct (get_messages u n). Qed.

Lemma api_body_absorb d s :
  api_body (absorb get_messages) d s = api_body get_messages d s.
Proof.
  destruct d as [u| | |]; try reflexivity.
  rewrite !api_body_user. unfold api_decide. by rewrite probe_key_absorb.
Qed.

Lemma analyze_loop_absorb dialogs :
  analyze_loop (absorb get_messages) dialogs = analyze_loop get_messages dialogs.
Proof.
  unfold analyze_loop. generalize api_state0.
  induction dialogs as [|d dialogs IH]; intros s; [reflexivity|].
  rewrite !for_each_cons, api_body_absorb.
  destruct (api_body get_messages d s) as [[[]|e] s1]; [apply IH|reflexivity].
Qed.

Lemma api_decide_quiet n u :
  inspectable (EUser u) -> exists x, api_decide get_messages n u = Ok x.
Proof.
  unfold inspectable, api_decide. intros (Hb & Hs & Hf).
  destruct (deleted u); [eauto|].
  destruct (bot u) as [[]| |]; simpl in *; try done; eauto;
    destruct (scam u) as [[]| |]; simpl in *; try done; eauto;
    destruct (fake u) as [[]| |]; simpl in *; try done; eauto;
    destruct (n <=? 50)%nat; eauto.
Qed.

(** When no attribute raises, the loop runs to its end whatever the probe
    does. *)
Lemma api_loop_total dialogs s :
  Forall inspectable dialogs ->
  exists s', for_each dialogs (api_body get_messages) s = (Ok tt, s').
Proof.
  intros Hq. revert s. induction Hq as [|d dialogs Hd Hq IH]; intros s.
  - by exists s.
  - rewrite for_each_cons. destruct d as [u| | |].
    2-4: rewrite api_body_other by done; apply IH.
    rewrite api_body_user.
    destruct (api_decide_quiet (S (users_checked s)) u Hd) as [[[k d] p] ->].
    apply IH.
Qed.

Lemma cli_step_empty s u :
  unflagged u -> probe_empty (get_messages u 10) ->
  u ∈ no_messages (cli_step get_messages s u).
Proof.
  unfold unflagged, reads, cli_step, cli_body, try_except, cli_try,
    cli_get_messages.
  intros (-> & Hb & Hs & Hf) He.
  unfold mbind, M_bind, bind, lift, modify; simpl.
  rewrite Hb, Hs, Hf. simpl.
  destruct (get_messages u 10) as [msgs|e]; simpl in *.
  - subst msgs. simpl. set_solver.
  - set_solver.
Qed.

(** C4. A failing probe never ends the analysis: the CLI analyzer always
    returns its lists, and the API analyzer returns them whenever the
    attributes of the persons can be read, whatever the probe does; a
    probed person whose probe raises or returns no message is in
    [no_messages]; and the result is the one obtained with a probe whose
    failures are replaced by empty answers, so a failure is not
    observable beyond the lists. *)
Theorem C4_probe_failures_absorbed :
  (forall users : list User,
     let r := analyze_user_chats get_messages users in
     r.1 = Ok tt
     /\ forall u, u ∈ users -> unflagged u ->
                  probe_empty (get_messages u 10) -> u ∈ no_messages r.2)
  /\ (forall dialogs : list entity,
        Forall inspectable dialogs ->
        exists c a,
          analyze get_messages true dialogs = inr (c, a)
          /\ forall pre u post,
               dialogs = pre ++ EUser u :: post ->
               unflagged u ->
               (length (persons pre) < 50)%nat ->
               probe_empty (get_messages u 1) ->
               data_of u ∈ an_no_messages a)
  /\ (forall connected dialogs,
        analyze get_messages connected dialogs
        = analyze (absorb get_messages) connected dialogs).
Proof.
  split; [|split].
  - intros users r. subst r. rewrite analyze_user_chats_ok. simpl.
    split; [reflexivity|]. intros u Hin Hu He.
    generalize cli_state0. induction users as [|v users IH]; intros s.
    + by apply elem_of_nil in Hin.
    + simpl. apply elem_of_cons in Hin as [<- | Hin]; [|by apply IH].
      apply (cli_fold_mono get_messages users _ CNoMessages).
      by apply cli_step_empty.
  - intros dialogs Hq.
    destruct (api_loop_total dialogs api_state0 Hq) as [s' Hrun].
    unfold analyze, analyze_loop. rewrite Hrun. simpl.
    eexists _, _. split; [reflexivity|].
    intros pre u post -> Hu Hlt He.
    rewrite for_each_app in Hrun.
    destruct (for_each pre (api_body get_messages) api_state0)
      as [[[]|e] s1] eqn:Hpre; [|done].
    apply api_loop_inv in Hpre as (Hn & _ & _). simpl in Hn.
    rewrite for_each_cons, api_body_user in Hrun.
    rewrite (api_decide_unflagged _ _ _ Hu) in Hrun.
    replace (S (users_checked s1) <=? 50)%nat with true in Hrun
      by (symmetry; apply Nat.leb_le; lia).
    apply api_loop_inv in Hrun as (_ & _ & Hm).
    apply (Hm KNoMessages). simpl.
    rewrite (probe_key_empty _ He). simpl. set_solver.
  - intros connected dialogs. unfold analyze.
    by rewrite analyze_loop_absorb.
Qed.

End AbsorptionFacts.

(** Two plain persons and a probe that always fails: the API analysis
    still answers, with both persons under [no_messages]. *)
Lemma C4_failing_probe_witness :
  exists c a,
    Analyzer.analyze Props.probe_fails true
      [EUser (Props.plain_user 1); EUser (Props.plain_user 2)] = inr (c, a)
    /\ Props.data_of (Props.plain_user 2) ∈ Analyzer.an_no_messages a.
Proof.
  destruct (C4_probe_failures_absorbed Props.probe_fails) as (_ & H & _).
  destruct (H [EUser (Props.plain_user 1); EUser (Props.plain_user 2)])
    as (c & a & Hrun & Hin).
  - repeat constructor.
  - exists c, a. split; [exact Hrun|].
    apply (Hin [EUser (Props.plain_user 1)] (Props.plain_user 2) []).
    + reflexivity.
    + repeat split.
    + simpl. lia.
    + exact I.
Defined.

(** ** Server endpoints *)

Section ExportFacts.
Import Analyzer Server Props.

Lemma comprehension_dicts (cond : pyobj -> res bool) (chats : list chat_data) :
  (forall d, cond (PyDict d) = Ok false) ->
  comprehension cond (PyDict <$> chats) = Ok [].
Proof.
  intros Hc. induction chats as [|d chats IH]; [reflexivity|].
  rewrite fmap_cons. simpl. by rewrite Hc.
Qed.

Lemma export_data_dicts (t : string) (chats : list chat_data) :
  valid_export_type t -> export_data t (PyDict <$> chats) = Ok [].
Proof.
  intros [-> | [-> | ->]]; unfold export_data; simpl;
    by apply comprehension_dicts.
Qed.

Lemma get_chats_cache dialogs old chats stats new :
  get_chats true dialogs old = (inr (chats, stats), new) ->
  new = Some (PyDict <$> chats) /\ length chats = length dialogs.
Proof.
  unfold get_chats. simpl.
  assert (Hlen : forall l s s',
    for_each l get_chats_body s = (Ok tt, s') ->
    length (Server.chats s') = (length (Server.chats s) + length l)%nat).
  { induction l as [|d l IH]; intros s s'.
    - intros [= <-]. simpl. lia.
    - rewrite for_each_cons.
      destruct (get_chats_body d s) as [[[]|e] s1] eqn:Hb; [|done].
      intros H%IH. rewrite H. simpl.
      enough (length (Server.chats s1) = S (length (Server.chats s))) by lia.
      revert Hb. unfold get_chats_body.
      unfold mbind, M_bind, bind, lift, modify, mret, M_ret, ret.
      destruct d as [u|c|c|i t]; simpl.
      + destruct (getattr (bot u) false); [|done].
        destruct (getattr (scam u) false); [|done].
        intros [= <-]. simpl. rewrite length_app. simpl. lia.
      + intros [= <-]. simpl. rewrite length_app. simpl. lia.
      + destruct (attribute (broadcast c) "broadcast") as [[]|]; [| |done];
          intros [= <-]; simpl; rewrite length_app; simpl; lia.
      + intros [= <-]. simpl. rewrite length_app. simpl. lia. }
  destruct (for_each dialogs get_chats_body chats_state0)
    as [[[]|e] s'] eqn:Hrun; [|done].
  intros [= <- <- <-]. split; [reflexivity|].
  apply Hlen in Hrun. simpl in Hrun. lia.
Qed.

(** C10. Whatever the dialogs are, the cache that [get_chats] leaves holds
    dictionaries only, so each of the three export filters selects
    nothing from it; with at least one dialog the endpoint therefore
    answers with an empty data set. *)
Theorem C10_export_of_cached_dicts_is_empty
    (dialogs : list entity) (old new : option (list pyobj))
    (chats : list chat_data) (stats : Server.stats) (export_type : string) :
  get_chats true dialogs old = (inr (chats, stats), new) ->
  valid_export_type export_type ->
  new = Some (PyDict <$> chats)
  /\ export_data export_type (PyDict <$> chats) = Ok []
  /\ (dialogs <> [] -> export_data_endpoint true new export_type = inr []).
Proof.
  intros Hget Ht. apply get_chats_cache in Hget as [-> Hlen].
  split; [reflexivity|]. split; [by apply export_data_dicts|].
  intros Hne. unfold export_data_endpoint. simpl.
  destruct chats as [|d chats].
  - destruct dialogs; [done|discriminate Hlen].
  - rewrite fmap_cons. cbn [cache_is_falsy default].
    rewrite <- fmap_cons. by rewrite export_data_dicts.
Qed.

End ExportFacts.

(** A listing of one person and one basic group: the users export is
    empty although the cache holds the person. *)
Lemma C10_users_export_witness :
  let dialogs := [EUser (Props.plain_user 1); EChat (mkChat 2 "family" None)] in
  exists chats stats new,
    Server.get_chats true dialogs None = (inr (chats, stats), new)
    /\ length chats = 2%nat
    /\ Server.export_data_endpoint true new "users" = inr [].
Proof.
  intros dialogs. eexists _, _, _. split; [reflexivity|]. split; [reflexivity|].
  eapply (C10_export_of_cached_dicts_is_empty dialogs None).
  - reflexivity.
  - right. right. reflexivity.
  - discriminate.
Defined.

Section DeleteFacts.
Import Analyzer Server Coordinator Props.

Lemma delete_chat_except_not_flood e :
  not_flood e ->
  delete_chat_except e = inl (TelegramError (exc_str e) "DELETE_ERROR").
Proof. unfold not_flood, delete_chat_except. by intros [-> ->]. Qed.

(** C9 (as amended). An entity that has vanished is handled as any other
    failure that is not a rate limit: the endpoint raises
    [TelegramError(..., "DELETE_ERROR")], answered with status 400 and no
    [retry_after]; the page's single delete then puts the chat back into
    the list it was taken from and alerts, and the bulk loop counts the
    item as failed. *)
Theorem C9_vanished_entity_is_a_failure
    (get_entity : Z -> res entity) (delete_dialog : entity -> res unit)
    (chat_id : Z) (e : exn) :
  delete_raises get_entity delete_dialog chat_id e ->
  not_flood e ->
  let answer := delete_chat get_entity delete_dialog true chat_id in
  let resp := delete_chat_http answer in
  answer = inl (TelegramError (exc_str e) "DELETE_ERROR")
  /\ status_code resp = 400%nat
  /\ ok resp = false
  /\ (forall i title c src s,
        single_resume i title c src (Response resp) s =
        single_finally i
          (set_alerts
             (alerts s ++ ["Error deleting chat: "
                           +:+ PyStr.or_str (Some (exc_str e)) "Unknown error"])
             (restoreChat c src s)))
  /\ (forall i rest deleted failed count s,
        bulk_resume i rest deleted failed count (Response resp) s =
        bulk_next rest deleted (S failed) count s).
Proof.
  intros Hraise Hnf answer resp.
  assert (Ha : answer = inl (TelegramError (exc_str e) "DELETE_ERROR")).
  { subst answer. unfold delete_chat. simpl.
    destruct Hraise as [-> | (entity & -> & ->)];
      by apply delete_chat_except_not_flood. }
  subst resp. rewrite Ha. simpl. repeat split.
  intros i title c src s. by destruct src.
Qed.

End DeleteFacts.

(** The lookup of a vanished chat fails with the library's [ValueError]:
    the endpoint answers 400. *)
Lemma C9_vanished_entity_witness :
  Server.status_code
    (Server.delete_chat_http
       (Server.delete_chat Props.entity_gone Props.delete_works true 42)) = 400%nat.
Proof.
  apply (C9_vanished_entity_is_a_failure Props.entity_gone Props.delete_works
           42 (Props.not_found 42)).
  - left. reflexivity.
  - split; reflexivity.
Defined.

(** C9 as the specification words it fails: the commit of a vanished chat is not
    reported as a success (the response is not [ok]), and the single delete
    rolls the chat back into [currentChats] and alerts. *)
Lemma C9_counterexample :
  let resp := Server.delete_chat_http
                (Server.delete_chat Props.entity_gone Props.delete_works true 7) in
  let s := Coordinator.run Coordinator.init
             [Coordinator.ChatsLoaded [Props.carol];
              Coordinator.DeleteChat 7 "Carol";
              Coordinator.TimerFires 0;
              Coordinator.FetchSettles 0 (Coordinator.Response resp)] in
  Coordinator.ok resp = false
  /\ Coordinator.calls s = [7%Z]
  /\ Coordinator.currentChats s = [Props.carol]
  /\ Coordinator.alerts s
     = ["Error deleting chat: Could not find the input entity for the given peer"].
Proof. vm_compute. repeat split. Qed.

(** ** The delete/undo coordinator *)

Section ObjectFacts.
Import Coordinator Props.

Lemma obj_get_set_eq k v o : obj_get k (obj_set k v o) = Some v.
Proof.
  induction o as [|[k' v'] o IH]; simpl.
  - by rewrite String.eqb_refl.
  - destruct (String.eqb k' k) eqn:E; simpl; by rewrite E.
Qed.

Lemma obj_get_set_ne k k' v o :
  k <> k' -> obj_get k' (obj_set k v o) = obj_get k' o.
Proof.
  intros Hne. induction o as [|[k0 v0] o IH]; simpl.
  - destruct (String.eqb_spec k k'); [done|reflexivity].
  - destruct (String.eqb_spec k0 k) as [->|Hk]; simpl.
    + destruct (String.eqb_spec k k'); [done|reflexivity].
    + by rewrite IH.
Qed.

Lemma obj_set_keys k v o :
  is_Some (obj_get k o) -> (obj_set k v o).*1 = o.*1.
Proof.
  induction o as [|[k0 v0] o IH]; simpl.
  - by intros [? ?].
  - destruct (String.eqb_spec k0 k) as [->|Hk]; simpl; [done|].
    intros H. f_equal. by apply IH.
Qed.

Lemma obj_set_keys_new k v o :
  obj_get k o = None -> (obj_set k v o).*1 = o.*1 ++ [k].
Proof.
  induction o as [|[k0 v0] o IH]; simpl; [done|].
  destruct (String.eqb_spec k0 k) as [->|Hk]; simpl; [done|].
  intros H. f_equal. by apply IH.
Qed.

Lemma obj_get_None k o : obj_get k o = None <-> k ∉ o.*1.
Proof.
  induction o as [|[k0 v0] o IH]; simpl.
  - split; [intros _; apply not_elem_of_nil | done].
  - destruct (String.eqb_spec k0 k) as [->|Hk].
    + split; [done|]. intros H. destruct H. by left.
    + rewrite IH. rewrite not_elem_of_cons. naive_solver.
Qed.

Lemma obj_set_NoDup k v o : NoDup o.*1 -> NoDup (obj_set k v o).*1.
Proof.
  intros Hnd. destruct (obj_get k o) as [l|] eqn:E.
  - by rewrite obj_set_keys.
  - rewrite obj_set_keys_new by done.
    apply NoDup_app. split; [done|]. split; [|apply NoDup_singleton].
    intros x Hx ->%list_elem_of_singleton. by apply obj_get_None in E.
Qed.

Lemma obj_of_members_NoDup members : NoDup (obj_of_members members).*1.
Proof.
  unfold obj_of_members.
  assert (H : forall o, NoDup o.*1 ->
            NoDup (fold_left (fun o m => obj_set m.1 m.2 o) members o).*1).
  { induction members as [|m members IH]; intros o Ho; [done|].
    simpl. by apply IH, obj_set_NoDup. }
  apply H. constructor.
Qed.

(** The list found by the [for ... in] loop is the one the key reads. *)
Lemma find_in_analysis_Some i data c src :
  NoDup data.*1 ->
  find_in_analysis i data = Some (c, src) ->
  exists category l,
    src = Analysis category /\ obj_get category data = Some l
    /\ List.find (has_id i) l = Some c.
Proof.
  induction data as [|[k l] data IH]; simpl; [done|].
  intros Hnd%NoDup_cons. destruct Hnd as [Hk Hnd].
  destruct (List.find (has_id i) l) as [c'|] eqn:Hf.
  - intros [= <- <-]. exists k, l. by rewrite String.eqb_refl.
  - intros H. destruct (IH Hnd H) as (cat & l' & -> & Hget & Hfind).
    exists cat, l'. split; [done|]. split; [|done].
    destruct (String.eqb_spec k cat) as [->|]; [|done].
    exfalso. assert (obj_get cat data = None) by (by apply obj_get_None).
    congruence.
Qed.

(** Taking the one chat with id [i] out and pushing it back rearranges
    the list. *)
Lemma filter_push_back i (l : list chat) c :
  NoDup (id <$> l) -> List.find (has_id i) l = Some c ->
  List.filter (not_id i) l ++ [c] ≡ₚ l.
Proof.
  induction l as [|x l IH]; simpl; [done|].
  intros Hnd%NoDup_cons. destruct Hnd as [Hx Hnd].
  unfold not_id, has_id in *. destruct (id x =? i)%Z eqn:E; simpl.
  - intros [= <-]. apply Z.eqb_eq in E. subst i.
    assert (Hall : List.filter (fun c => negb (id c =? id x)%Z) l = l).
    { clear IH Hnd. induction l as [|y l IH]; simpl; [done|].
      apply not_elem_of_cons in Hx as [Hy Hx].
      destruct (id y =? id x)%Z eqn:E; simpl.
      - apply Z.eqb_eq in E. congruence.
      - by rewrite IH. }
    rewrite Hall. by rewrite <- Permutation_cons_append.
  - intros Hf. by rewrite (IH Hnd Hf).
Qed.

Lemma filter_not_id i (l : list chat) c :
  c ∈ List.filter (not_id i) l -> id c <> i.
Proof.
  intros [_ H]%list_elem_of_In%filter_In. unfold not_id in H.
  apply negb_true_iff, Z.eqb_neq in H. done.
Qed.

End ObjectFacts.

Section FrameFacts.
Import Coordinator Props.
Variable P : Z -> Prop.

Lemma preserves_refl s : preserves P s s.
Proof. constructor; try done. exists []. by rewrite app_nil_r. Qed.

Lemma preserves_trans s1 s2 s3 :
  preserves P s1 s2 -> preserves P s2 s3 -> preserves P s1 s3.
Proof.
  intros [Hb1 Hu1 Hs1 Hk1 (x1 & Hc1 & Hx1)] [Hb2 Hu2 Hs2 Hk2 (x2 & Hc2 & Hx2)].
  constructor; try (by auto).
  exists (x1 ++ x2). rewrite Hc2, Hc1, app_assoc. split; [done|].
  by apply Forall_app.
Qed.

(** A change of the lists, of the flag, of the pending records, of the
    alerts or of the counters touches nothing that [preserves] watches. *)
Lemma preserves_views s s' :
  timers s' = timers s -> next_timer s' = next_timer s ->
  requests s' = requests s -> next_request s' = next_request s ->
  selectedChats s' = selectedChats s -> calls s' = calls s ->
  (NoDup (categories s) -> NoDup (categories s')) ->
  preserves P s s'.
Proof.
  intros Ht Hnt Hr Hnr Hs Hc Hk.
  constructor; unfold bounded, untargeted, unselected;
    rewrite ?Ht, ?Hnt, ?Hr, ?Hnr, ?Hs, ?Hc; auto.
  exists []. by rewrite app_nil_r.
Qed.

Ltac frame :=
  constructor; unfold bounded, untargeted, unselected; simpl;
  try done; try (exists []; by rewrite app_nil_r).

Lemma preserves_restoreChat c src s : preserves P s (restoreChat c src s).
Proof.
  destruct src; apply preserves_views; try done.
  unfold categories. simpl. apply obj_set_NoDup.
Qed.

Lemma preserves_remove_from src j s : preserves P s (remove_from src j s).
Proof.
  destruct src; apply preserves_views; try done.
  unfold categories. simpl. apply obj_set_NoDup.
Qed.

Lemma preserves_setTimeout cb delay s :
  ~ callback_targets P cb -> preserves P s (setTimeout cb delay s).
Proof.
  intros Hcb. frame.
  - intros [Ht Hr]. split; [|done]. intros t [Heq|[Hne Hs]]%lookup_insert_is_Some.
    + lia.
    + apply Ht in Hs. lia.
  - intros [Ht Hr]. split; [|done]. by apply map_Forall_insert_2.
Qed.

Lemma preserves_clearTimeout t s : preserves P s (clearTimeout t s).
Proof.
  frame.
  - intros [Ht Hr]. split; [|done]. intros t' [_ Hs]%lookup_delete_is_Some.
    by apply Ht.
  - intros [Ht Hr]. split; [|done]. by apply map_Forall_delete.
Qed.

Lemma preserves_await_fetch k s :
  ~ continuation_targets P k -> preserves P s (await_fetch k s).
Proof.
  intros Hk. frame.
  - intros [Ht Hr]. split; [done|]. intros q [Heq|[Hne Hs]]%lookup_insert_is_Some.
    + lia.
    + apply Hr in Hs. lia.
  - intros [Ht Hr]. split; [done|]. by apply map_Forall_insert_2.
Qed.

Lemma preserves_settle q s :
  preserves P s (set_requests (delete q (requests s)) (next_request s) s).
Proof.
  frame.
  - intros [Ht Hr]. split; [done|]. intros q' [_ Hs]%lookup_delete_is_Some.
    by apply Hr.
  - intros [Ht Hr]. split; [done|]. by apply map_Forall_delete.
Qed.

Lemma preserves_fetch_delete j k s :
  ~ P j -> ~ continuation_targets P k -> preserves P s (fetch_delete j k s).
Proof.
  intros Hj Hk. unfold fetch_delete.
  eapply preserves_trans; [|by apply preserves_await_fetch].
  frame. exists [j]. split; [done|]. by constructor.
Qed.

Lemma Forall_filter_bool (f : Z -> bool) (Q : Z -> Prop) (l : list Z) :
  Forall Q l -> Forall Q (List.filter f l).
Proof.
  induction 1 as [|x l Hx Hl IH]; simpl; [constructor|].
  destruct (f x); [by constructor | done].
Qed.

Lemma preserves_unselect (f : Z -> bool) s :
  preserves P s (set_selectedChats (List.filter f (selectedChats s)) s).
Proof. frame. apply Forall_filter_bool. Qed.

Lemma preserves_clear_selection s : preserves P s (set_selectedChats [] s).
Proof. frame. Qed.

Lemma preserves_pending v s : preserves P s (set_pendingDeletes v s).
Proof. by apply preserves_views. Qed.

Lemma preserves_alerts v s : preserves P s (set_alerts v s).
Proof. by apply preserves_views. Qed.

Lemma preserves_fold_restore (items : list item) s :
  preserves P s
    (fold_left (fun s it => restoreChat (item_chat it) (item_source it) s) items s).
Proof.
  revert s. induction items as [|it items IH]; intros s; simpl.
  - apply preserves_refl.
  - eapply preserves_trans; [apply preserves_restoreChat | apply IH].
Qed.

Lemma preserves_fold_remove (items : list item) s :
  preserves P s
    (fold_left (fun s it => remove_from (item_source it) (item_id it) s) items s).
Proof.
  revert s. induction items as [|it items IH]; intros s; simpl.
  - apply preserves_refl.
  - eapply preserves_trans; [apply preserves_remove_from | apply IH].
Qed.

(** *** The functions of the page *)

Lemma preserves_deleteChat j title s :
  ~ P j -> preserves P s (deleteChat j title s).
Proof.
  intros Hj. unfold deleteChat.
  destruct (findChatById j s) as [[c src]|]; [|apply preserves_refl].
  eapply preserves_trans; [|apply preserves_pending].
  eapply preserves_trans; [|by apply preserves_setTimeout].
  eapply preserves_trans; [|apply preserves_unselect].
  apply preserves_remove_from.
Qed.

Lemma preserves_undoDelete j s : preserves P s (undoDelete j s).
Proof.
  unfold undoDelete.
  destruct (pendingDeletes s !! j) as [p|]; [|apply preserves_refl].
  eapply preserves_trans;
    [|destruct p; [apply preserves_restoreChat | apply preserves_fold_restore]].
  eapply preserves_trans; [|apply preserves_pending].
  apply preserves_clearTimeout.
Qed.

Lemma preserves_deleteSelected confirmed now s :
  unselected P s -> preserves P s (deleteSelected confirmed now s).
Proof.
  intros Hsel. unfold deleteSelected.
  destruct (length (selectedChats s) =? 0)%nat; [apply preserves_refl|].
  destruct confirmed; [|apply preserves_refl]. cbn [negb].
  eapply preserves_trans; [|apply preserves_pending].
  eapply preserves_trans;
    [|apply preserves_setTimeout; simpl; by apply Forall_Exists_neg].
  eapply preserves_trans; [|apply preserves_clear_selection].
  apply preserves_fold_remove.
Qed.

Lemma preserves_single_finally j s : preserves P s (single_finally j s).
Proof. apply preserves_pending. Qed.

Lemma preserves_bulk_finish s : preserves P s (bulk_finish s).
Proof. apply preserves_await_fetch. simpl. tauto. Qed.

Lemma preserves_bulk_loop ids deleted failed count s :
  ~ Exists P ids -> preserves P s (bulk_loop ids deleted failed count s).
Proof.
  intros Hi. unfold bulk_loop. destruct ids as [|j rest].
  - apply preserves_bulk_finish.
  - rewrite Exists_cons in Hi.
    destruct (bulkDeleteCancelled s); [apply preserves_bulk_finish|].
    apply preserves_fetch_delete; simpl; tauto.
Qed.

Lemma preserves_bulk_next rest deleted failed count s :
  ~ Exists P rest -> preserves P s (bulk_next rest deleted failed count s).
Proof.
  intros Hi. unfold bulk_next.
  eapply preserves_trans; [|by apply preserves_bulk_loop].
  by apply preserves_views.
Qed.

Lemma preserves_run_callback cb s :
  ~ callback_targets P cb -> preserves P s (run_callback cb s).
Proof.
  destruct cb as [j title c src|j title|bulkId ids count|j rest d f count];
    simpl; intros Hcb.
  - by apply preserves_fetch_delete.
  - by apply preserves_deleteChat.
  - unfold bulk_start.
    eapply preserves_trans; [|by apply preserves_bulk_loop].
    by apply preserves_views.
  - apply preserves_fetch_delete; simpl; tauto.
Qed.

Lemma preserves_single_resume j title c src r s :
  ~ P j -> preserves P s (single_resume j title c src r s).
Proof.
  intros Hj. unfold single_resume.
  destruct r as [|resp].
  - eapply preserves_trans; [|apply preserves_single_finally].
    eapply preserves_trans; [|apply preserves_alerts].
    apply preserves_restoreChat.
  - destruct (ok resp); cbn [negb].
    + apply preserves_await_fetch. simpl. tauto.
    + destruct (retry_after_truthy resp) as [w|].
      * eapply preserves_trans; [|apply preserves_single_finally].
        by apply preserves_setTimeout.
      * eapply preserves_trans; [|apply preserves_single_finally].
        eapply preserves_trans; [|apply preserves_alerts].
        apply preserves_restoreChat.
Qed.

Lemma preserves_run_continuation k r s :
  ~ continuation_targets P k -> preserves P s (run_continuation k r s).
Proof.
  destruct k as [j title c src|j|j rest d f count|j rest d f count|];
    simpl; intros Hk.
  - by apply preserves_single_resume.
  - apply preserves_single_finally.
  - unfold bulk_resume. destruct r as [|resp].
    + apply preserves_bulk_next. tauto.
    + destruct (ok resp); [apply preserves_bulk_next; tauto|].
      destruct (retry_after_truthy resp) as [w|].
      * apply preserves_setTimeout. simpl. tauto.
      * apply preserves_bulk_next. tauto.
  - unfold bulk_retry_resume. destruct r; by apply preserves_bulk_next.
  - apply preserves_refl.
Qed.

Lemma preserves_toggle j s :
  ~ P j -> preserves P s (toggleChatSelection j s).
Proof.
  intros Hj. unfold toggleChatSelection.
  destruct (existsb (Z.eqb j) (selectedChats s)); [apply preserves_unselect|].
  frame. intros Hn. apply Forall_app. split; [done|]. by constructor.
Qed.

(** An event that leaves the ids of [P] alone, in a state where nothing
    concerns them, issues no delete request for them and keeps the state
    so. *)
Lemma preserves_step s e :
  untargeted P s -> unselected P s -> leaves_alone P e ->
  preserves P s (step s e).
Proof.
  intros [Ht Hr] Hsel He.
  destruct e as [chats|users|j|j title|j|c now| |t|q r]; simpl.
  - by apply preserves_views.
  - apply preserves_views; try done. intros _. apply obj_of_members_NoDup.
  - by apply preserves_toggle.
  - by apply preserves_deleteChat.
  - apply preserves_undoDelete.
  - by apply preserves_deleteSelected.
  - by apply preserves_views.
  - destruct (timers s !! t) as [[d cb]|] eqn:E; [|apply preserves_refl].
    eapply preserves_trans; [apply preserves_clearTimeout|].
    apply preserves_run_callback. apply (Ht t (d, cb) E).
  - destruct (requests s !! q) as [k|] eqn:E; [|apply preserves_refl].
    eapply preserves_trans; [apply preserves_settle|].
    apply preserves_run_continuation. apply (Hr q k E).
Qed.

Lemma preserves_run events s :
  untargeted P s -> unselected P s -> Forall (leaves_alone P) events ->
  preserves P s (run s events).
Proof.
  intros Hu Hsel Hev. revert s Hu Hsel.
  induction Hev as [|e events He Hev IH]; intros s Hu Hsel.
  - apply preserves_refl.
  - pose proof (preserves_step s e Hu Hsel He) as Hstep.
    eapply preserves_trans; [exact Hstep|]. simpl.
    apply IH; [by apply Hstep | by apply Hstep].
Qed.

End FrameFacts.

Section ReachableFacts.
Import Coordinator Props.

Lemma untargeted_nothing s : untargeted (fun _ => False) s.
Proof.
  assert (Hex : forall l : list Z, ~ Exists (fun _ => False) l).
  { intros l H. induction H; done. }
  split.
  - intros t [d cb] _. destruct cb; simpl; try tauto.
    + apply Hex.
    + intros [[]|H]. by apply Hex in H.
  - intros q k _. destruct k; simpl; try tauto.
    + intros [[]|H]. by apply Hex in H.
    + apply Hex.
Qed.

Lemma well_formed_init : well_formed init.
Proof.
  split; [|constructor].
  split; intros x [? H]; simpl in H; by rewrite lookup_empty in H.
Qed.

Lemma well_formed_step s e : well_formed s -> well_formed (step s e).
Proof.
  intros [Hb Hk].
  assert (Hp : preserves (fun _ => False) s (step s e)).
  { apply preserves_step.
    - apply untargeted_nothing.
    - apply Forall_forall. tauto.
    - destruct e; simpl; tauto. }
  split; by apply Hp.
Qed.

(** Every reachable state hands out fresh timer and request numbers, and
    [window.analysisData] has distinct keys. *)
Lemma reachable_well_formed s : reachable s -> well_formed s.
Proof.
  intros [events ->]. unfold run.
  assert (H : forall s0, well_formed s0 -> well_formed (fold_left step events s0)).
  { induction events as [|e events IH]; intros s0 H0; [done|].
    simpl. by apply IH, well_formed_step. }
  apply H, well_formed_init.
Qed.

End ReachableFacts.

Section UndoFacts.
Import Coordinator Props.

(** [deleteChat] on a chat that is found, spelled out. *)
Lemma deleteChat_found i title c src s :
  findChatById i s = Some (c, src) ->
  deleteChat i title s =
  let s1 := set_selectedChats
              (List.filter (fun j => negb (j =? i)%Z) (selectedChats s))
              (remove_from src i s) in
  set_pendingDeletes
    (<[i := Single (next_timer s) title c src]> (pendingDeletes s))
    (setTimeout (CommitSingle i title c src) 10000 s1).
Proof. intros Hf. unfold deleteChat. rewrite Hf. by destruct src. Qed.

Lemma findChatById_view i s c src :
  NoDup (categories s) ->
  findChatById i s = Some (c, src) ->
  List.find (has_id i) (view src s) = Some c
  /\ (src = Main \/ exists category,
        src = Analysis category /\ is_Some (obj_get category (analysisData s))).
Proof.
  intros Hk. unfold findChatById.
  destruct (List.find (has_id i) (currentChats s)) as [c'|] eqn:Hm.
  - intros [= <- <-]. split; [done|by left].
  - intros (cat & l & -> & Hget & Hfind)%find_in_analysis_Some; [|done].
    simpl. rewrite Hget. split; [done|]. right. exists cat. by rewrite Hget.
Qed.

(** The views after [deleteChat] followed by [undoDelete] on the armed
    record (the other fields are dealt with in the theorem). *)
Lemma restore_after_remove i c src s :
  NoDup (categories s) ->
  findChatById i s = Some (c, src) ->
  NoDup (id <$> view src s) ->
  let s' := restoreChat c src (remove_from src i s) in
  currentChats s' ≡ₚ currentChats s
  /\ categories s' = categories s
  /\ (forall category, view (Analysis category) s' ≡ₚ view (Analysis category) s)
  /\ c ∈ view src s'
  /\ (forall c', c' ∈ view src (remove_from src i s) -> id c' <> i).
Proof.
  intros Hk Hf Hnd.
  destruct (findChatById_view i s c src Hk Hf) as [Hfind Hsrc].
  destruct Hsrc as [-> | (cat & -> & [l Hget])]; simpl in *.
  - split; [by apply filter_push_back|]. split; [done|]. split; [done|].
    split; [set_solver|]. intros c'. apply filter_not_id.
  - rewrite Hget in *. simpl in *. split; [done|].
    unfold categories. simpl. rewrite !obj_get_set_eq. simpl.
    split; [|split; [|split]].
    + rewrite !obj_set_keys; [done|by rewrite Hget|by rewrite obj_get_set_eq].
    + intros cat'. destruct (decide (cat = cat')) as [<-|Hne].
      * rewrite !obj_get_set_eq, Hget. simpl. by apply filter_push_back.
      * by rewrite !obj_get_set_ne.
    + set_solver.
    + intros c'. apply filter_not_id.
Qed.

Lemma remove_from_fields src i s :
  timers (remove_from src i s) = timers s
  /\ next_timer (remove_from src i s) = next_timer s
  /\ requests (remove_from src i s) = requests s
  /\ calls (remove_from src i s) = calls s
  /\ pendingDeletes (remove_from src i s) = pendingDeletes s
  /\ selectedChats (remove_from src i s) = selectedChats s.
Proof. by destruct src. Qed.


End UndoFacts.


Section CommitFacts.
Import Coordinator Props.

(** The bulk path drops its record before the first request: once its
    timer has fired, [undoDelete] finds nothing. *)
Lemma bulk_loop_pending ids deleted failed count s :
  pendingDeletes (bulk_loop ids deleted failed count s) = pendingDeletes s.
Proof.
  unfold bulk_loop. destruct ids; [reflexivity|].
  by destruct (bulkDeleteCancelled s).
Qed.

Lemma undo_after_bulk_start bulkId ids count s :
  undoDelete bulkId (bulk_start bulkId ids count s)
  = bulk_start bulkId ids count s.
Proof.
  unfold undoDelete, bulk_start. rewrite bulk_loop_pending. simpl.
  by rewrite lookup_delete_eq.
Qed.

(** The single path keeps its record while the request is in flight: in
    any state holding a single pending record for [i], once the timer's
    callback has issued the request, [undoDelete] still pushes the chat
    back. *)
Lemma undo_while_request_in_flight s i t title c src :
  pendingDeletes s !! i = Some (Single t title c src) ->
  let committing := run_callback (CommitSingle i title c src) (clearTimeout t s) in
  calls committing = calls s ++ [i]
  /\ c ∈ view src (undoDelete i committing).
Proof.
  intros Hp committing. split; [reflexivity|].
  unfold undoDelete. subst committing. simpl. rewrite Hp.
  destruct src; simpl.
  - set_solver.
  - rewrite obj_get_set_eq. simpl. set_solver.
Qed.

(** Undoing a bulk deletion before its timer fires puts every stored item
    back. *)
Example bulk_undo_example :
  let s := run init [ChatsLoaded [alice; bob]; ToggleChatSelection 1;
                     ToggleChatSelection 2; DeleteSelected true 1000] in
  currentChats s = []
  /\ currentChats (undoDelete 1000 s) = [alice; bob]
  /\ timers (undoDelete 1000 s) = ∅
  /\ calls (run (undoDelete 1000 s) [TimerFires 0]) = [].
Proof. vm_compute. repeat split. Qed.

(** Why C5 asks that nothing scheduled concerns the chat: a chat held by
    both lists can be deleted twice; the second record replaces the first
    in [pendingDeletes], so one undo clears the second timer only and the
    first one still issues its request. *)
Example second_delete_replaces_record :
  let s := run init [ChatsLoaded [carol]; AnalysisLoaded [("deleted", [carol])];
                     DeleteChat 7 "Carol"; DeleteChat 7 "Carol"; UndoDelete 7] in
  currentChats s = []
  /\ analysisData s = [("deleted", [carol])]
  /\ pendingDeletes s = ∅
  /\ calls (run s [TimerFires 0]) = [7%Z].
Proof. vm_compute. repeat split. Qed.

(** C6. With the single delete, the pending record outlives the timer: it
    is only dropped in the [finally] clause, after the delete request and
    the statistics request have settled. Calling [undoDelete] while the
    request is in flight, or after it has succeeded, puts the chat back
    into [currentChats]; only after [finally] is it a no-op. *)
Theorem C6_undo_after_timer_restores :
  let armed := run init [ChatsLoaded [carol]; DeleteChat 7 "Carol"] in
  let committing := run armed [TimerFires 0] in
  let committed := run committing [FetchSettles 0 response_ok] in
  let finished := run committed [FetchSettles 1 response_ok] in
  currentChats armed = []
  /\ calls committing = [7%Z]
  /\ currentChats (undoDelete 7 committing) = [carol]
  /\ currentChats (undoDelete 7 committed) = [carol]
  /\ undoDelete 7 finished = finished.
Proof. vm_compute. repeat split. Qed.

(** C7. A second rate limit is not reported. In the bulk loop the retry is
    made once, after a timer of the signalled duration, but its response is
    not looked at: neither [deleted] nor [failed] is incremented. In the
    single delete the retry re-enters [deleteChat], which no longer finds
    the chat it has already taken out of the list, so no second request is
    made, the chat is not put back and nothing is alerted. *)
Theorem C7_second_rate_limit_unreported :
  let limited := run init
                   [ChatsLoaded [carol]; ToggleChatSelection 7;
                    DeleteSelected true 1000; TimerFires 0;
                    FetchSettles 0 (response_rate_limited 5)] in
  let retried := run limited [TimerFires 1;
                              FetchSettles 1 (response_rate_limited 5)] in
  let single := run init
                  [ChatsLoaded [carol]; DeleteChat 7 "Carol"; TimerFires 0;
                   FetchSettles 0 (response_rate_limited 5); TimerFires 1] in
  timers limited !! 1%nat = Some (5000%Z, BulkRetryWait 7 [] 0 0 1)
  /\ calls retried = [7%Z; 7%Z]
  /\ counters retried = (0, 0)%nat
  /\ alerts retried = []
  /\ currentChats retried = []
  /\ timers retried = ∅
  /\ calls single = [7%Z]
  /\ currentChats single = []
  /\ alerts single = []
  /\ timers single = ∅
  /\ requests single = ∅.
Proof. vm_compute. repeat split. Qed.

(** [bulkDeleteCancelled] is never set: every function of the page
    leaves it as it is, except the bulk callback, which resets it. *)
Lemma flag_fold_restore (items : list item) s :
  bulkDeleteCancelled
    (fold_left (fun s it => restoreChat (item_chat it) (item_source it) s) items s)
  = bulkDeleteCancelled s.
Proof.
  revert s. induction items as [|it items IH]; intros s; [done|].
  simpl. rewrite IH. by destruct (item_source it).
Qed.

Lemma flag_fold_remove (items : list item) s :
  bulkDeleteCancelled
    (fold_left (fun s it => remove_from (item_source it) (item_id it) s) items s)
  = bulkDeleteCancelled s.
Proof.
  revert s. induction items as [|it items IH]; intros s; [done|].
  simpl. rewrite IH. by destruct (item_source it).
Qed.

Lemma flag_bulk_loop ids deleted failed count s :
  bulkDeleteCancelled (bulk_loop ids deleted failed count s)
  = bulkDeleteCancelled s.
Proof.
  unfold bulk_loop. destruct ids; [done|].
  destruct (bulkDeleteCancelled s) eqn:E; exact E.
Qed.

Lemma flag_deleteChat i title s :
  bulkDeleteCancelled (deleteChat i title s) = bulkDeleteCancelled s.
Proof.
  unfold deleteChat. destruct (findChatById i s) as [[c src]|]; [|done].
  by destruct src.
Qed.

Lemma flag_step s e :
  bulkDeleteCancelled s = false -> bulkDeleteCancelled (step s e) = false.
Proof.
  intros Hf.
  destruct e as [chats|users|j|j title|j|c now| |t|q r]; simpl; try done.
  - unfold toggleChatSelection. by destruct (existsb (Z.eqb j) (selectedChats s)).
  - by rewrite flag_deleteChat.
  - unfold undoDelete. destruct (pendingDeletes s !! j) as [p|]; [|done].
    destruct p as [t title c src|t items].
    + by destruct src.
    + by rewrite flag_fold_restore.
  - unfold deleteSelected.
    destruct (length (selectedChats s) =? 0)%nat; [done|].
    destruct c; simpl; [|done]. by rewrite flag_fold_remove.
  - destruct (timers s !! t) as [[d cb]|]; [|done].
    destruct cb; simpl; try done.
    + by rewrite flag_deleteChat.
    + unfold bulk_start. by rewrite flag_bulk_loop.
  - destruct (requests s !! q) as [k|]; [|done].
    destruct k; simpl; try done.
    + unfold single_resume. destruct r as [|resp]; [by destruct src|].
      destruct (negb (ok resp)); [|done].
      destruct (retry_after_truthy resp); by destruct src.
    + unfold bulk_resume, bulk_next. destruct r as [|resp].
      * by rewrite flag_bulk_loop.
      * destruct (ok resp); [by rewrite flag_bulk_loop|].
        destruct (retry_after_truthy resp); [done|].
        by rewrite flag_bulk_loop.
    + unfold bulk_retry_resume, bulk_next.
      destruct r; by rewrite flag_bulk_loop.
Qed.

Lemma reachable_flag s : reachable s -> bulkDeleteCancelled s = false.
Proof.
  intros [events ->]. unfold run.
  assert (H : forall s0, bulkDeleteCancelled s0 = false ->
            bulkDeleteCancelled (fold_left step events s0) = false).
  { induction events as [|e events IH]; intros s0 H0; [done|].
    simpl. by apply IH, flag_step. }
  by apply H.
Qed.

(** C8. The cancel signal never reaches the loop. The Cancel button
    calls [cancelBulkDelete], which the script does not define, so a click
    changes nothing; and no function of the page sets
    [bulkDeleteCancelled], so in every state the page can reach the flag
    is false and the loop's [break] is never taken. With two chats
    selected and Cancel clicked while the first request is in flight, the
    loop goes on: the second chat is requested as well, both are counted
    deleted, and nothing is put back. *)
Theorem C8_cancel_is_never_seen :
  (forall s, reachable s -> bulkDeleteCancelled s = false)
  /\ (forall s, step s CancelClick = s)
  /\ (let clicked := run init
                       [ChatsLoaded [alice; bob]; ToggleChatSelection 1;
                        ToggleChatSelection 2; DeleteSelected true 1000;
                        TimerFires 0; CancelClick] in
      let first := run clicked [FetchSettles 0 response_ok] in
      let second := run first [FetchSettles 1 response_ok] in
      calls clicked = [1%Z]
      /\ bulkDeleteCancelled clicked = false
      /\ calls first = [1%Z; 2%Z]
      /\ requests first = {[1%nat := AwaitBulk 2 [] 1 0 2]}
      /\ calls second = [1%Z; 2%Z]
      /\ counters second = (2, 0)%nat
      /\ currentChats second = []
      /\ timers second = ∅).
Proof.
  split; [exact reachable_flag|]. split; [done|].
  vm_compute. repeat split.
Qed.

End CommitFacts.

(** The page after two chats were selected for a bulk delete, the timer
    has fired and Cancel was clicked: the flag is still false. *)
Lemma C8_cancel_witness :
  Coordinator.bulkDeleteCancelled
    (Coordinator.run Coordinator.init
       [Coordinator.ChatsLoaded [Props.alice; Props.bob];
        Coordinator.ToggleChatSelection 1;
        Coordinator.ToggleChatSelection 2;
        Coordinator.DeleteSelected true 1000;
        Coordinator.TimerFires 0;
        Coordinator.CancelClick]) = false.
Proof.
  apply (proj1 C8_cancel_is_never_seen). by eexists.
Defined.

(** * Further properties *)

(** ** get_chats *)

Section ListingFacts.
Import Analyzer Server TelethonMore Props More.

Lemma count_type_snoc t chats d :
  count_type t (chats ++ [d])
  = (count_type t chats + if String.eqb (cd_type d) t then 1 else 0)%nat.
Proof.
  unfold count_type. rewrite List.filter_app, length_app. simpl.
  by destruct (String.eqb (cd_type d) t).
Qed.

(** One iteration appends one dictionary, with the dialog's id, and bumps
    the counter of its type. *)
Lemma get_chats_body_step d s s' :
  get_chats_body d s = (Ok tt, s') ->
  stats_agree s ->
  stats_agree s'
  /\ cd_id <$> chats s' = (cd_id <$> chats s) ++ [entity_id d].
Proof.
  unfold get_chats_body, stats_agree.
  unfold mbind, M_bind, bind, lift, modify, mret, M_ret, ret.
  intros Hb (Hu & Hc & Hg & Ht & Hsum). revert Hb.
  destruct d as [u|c|c|i t]; simpl.
  - destruct (getattr (bot u) false); [|done].
    destruct (getattr (scam u) false); [|done].
    intros [= <-]. simpl. rewrite !count_type_snoc, fmap_app, length_app. simpl.
    repeat split; lia || done.
  - intros [= <-]. simpl. rewrite !count_type_snoc, fmap_app, length_app. simpl.
    repeat split; lia || done.
  - destruct (attribute (broadcast c) "broadcast") as [[]|]; [| |done];
      intros [= <-]; simpl; rewrite !count_type_snoc, fmap_app, length_app;
      simpl; repeat split; lia || done.
  - intros [= <-]. simpl. rewrite !count_type_snoc, fmap_app, length_app. simpl.
    repeat split; lia || done.
Qed.

Lemma get_chats_loop dialogs s s' :
  for_each dialogs get_chats_body s = (Ok tt, s') ->
  stats_agree s ->
  stats_agree s'
  /\ cd_id <$> chats s' = (cd_id <$> chats s) ++ (entity_id <$> dialogs).
Proof.
  revert s. induction dialogs as [|d dialogs IH]; intros s.
  - intros [= <-] Hs. by rewrite app_nil_r.
  - rewrite for_each_cons.
    destruct (get_chats_body d s) as [[[]|e] s1] eqn:Hb; [|done].
    intros Hrun Hs. destruct (get_chats_body_step d s s1 Hb Hs) as [Hs1 Hid].
    destruct (IH s1 Hrun Hs1) as [Hs' Hids]. split; [done|].
    rewrite Hids, Hid, fmap_cons, <- app_assoc. reflexivity.
Qed.

(** X1. A listing that succeeds has one dictionary per dialog, in the
    order of the dialogs and with their ids, and its statistics are the
    numbers of dictionaries of each type: [users] counts the type "user",
    [channels] the type "channel", [groups] the types "supergroup" and
    "group", and [total] is their sum and the length of the list. *)
Theorem get_chats_stats_agree
    (dialogs : list entity) (old new : option (list pyobj))
    (chats : list chat_data) (stats : Server.stats) :
  get_chats true dialogs old = (inr (chats, stats), new) ->
  cd_id <$> chats = entity_id <$> dialogs
  /\ st_users stats = count_type "user" chats
  /\ st_channels stats = count_type "channel" chats
  /\ st_groups stats = (count_type "supergroup" chats + count_type "group" chats)%nat
  /\ st_total stats = length dialogs
  /\ st_total stats = (st_users stats + st_channels stats + st_groups stats)%nat.
Proof.
  unfold get_chats. simpl.
  destruct (for_each dialogs get_chats_body chats_state0)
    as [[[]|e] s'] eqn:Hrun; [|done].
  intros [= <- <- <-].
  assert (H0 : stats_agree chats_state0) by (repeat split).
  destruct (get_chats_loop dialogs _ _ Hrun H0)
    as [(Hu & Hc & Hg & Ht & Hsum) Hids].
  simpl in Hids. split; [done|]. split; [done|]. split; [done|].
  split; [done|]. split; [|done].
  rewrite Ht. apply (f_equal length) in Hids. by rewrite !length_fmap in Hids.
Qed.

End ListingFacts.

(** A person, a basic group and a broadcast channel: three dictionaries,
    one of each kind. *)
Lemma get_chats_stats_witness :
  let dialogs :=
    [EUser (Props.plain_user 1); EChat (mkChat 2 "family" None);
     EChannel (mkChannel 3 "news" None (AttrVal true) AttrMissing None)] in
  exists chats stats new,
    Server.get_chats true dialogs None = (inr (chats, stats), new)
    /\ Server.cd_id <$> chats = [1; 2; 3]%Z
    /\ Server.st_total stats = 3%nat.
Proof.
  intros dialogs. eexists _, _, _. split; [reflexivity|].
  destruct (get_chats_stats_agree dialogs None _ _ _ eq_refl)
    as (Hids & _ & _ & _ & Ht & _).
  split; [exact Hids | exact Ht].
Defined.

(** ** export_data_endpoint *)

Section ExportMoreFacts.
Import Analyzer Server Props More.

Lemma comprehension_Ok cond cache l :
  comprehension cond cache = Ok l ->
  l = [] /\ Forall (fun c => cond c = Ok false) cache.
Proof.
  revert l. induction cache as [|c cache IH]; intros l; simpl.
  - intros [= <-]. by split.
  - destruct (cond c) as [[]|e] eqn:Hc; [done| |done].
    intros [-> Hall]%IH. split; [done|]. by constructor.
Qed.

(** X5. The export endpoint never answers with an entry: whatever the
    cache holds, an answer that is not an error carries the empty list;
    the type is then one of "groups", "channels" and "users", the cache is
    not empty, and its filter rejects every cached object (an object that
    passes makes the endpoint fail, since [chat_to_dict] is not
    defined). *)
Theorem export_never_returns_an_entry
    (connected : bool) (cache : option (list pyobj)) (export_type : string)
    (data : list chat_data) :
  export_data_endpoint connected cache export_type = inr data ->
  data = []
  /\ exists objects cond,
       cache = Some objects /\ objects <> []
       /\ filter_of export_type = Some cond
       /\ Forall (fun c => cond c = Ok false) objects.
Proof.
  unfold export_data_endpoint. destruct connected; [|done]. simpl.
  destruct cache as [[|c objects]|]; simpl; try done.
  unfold export_data, filter_of.
  destruct (String.eqb export_type "groups");
    [|destruct (String.eqb export_type "channels");
      [|destruct (String.eqb export_type "users"); [|done]]].
  all: match goal with
       | |- context [comprehension ?f ?l] =>
           destruct (comprehension f l) as [l'|] eqn:Hc; [|done]
       end;
    intros [= <-]; apply comprehension_Ok in Hc as [-> Hall];
    split; [done|]; exists (c :: objects); eexists; by repeat split.
Qed.

End ExportMoreFacts.

(** A cache holding one dictionary: the users export answers with the
    empty list. *)
Lemma export_never_returns_witness :
  let cache := Some [Server.PyDict
                       (Server.mkChatData 1 "user" "Ann" None None None None None)] in
  Server.export_data_endpoint true cache "users" = inr []
  /\ ([] : list Server.chat_data) = [].
Proof.
  intros cache. split; [reflexivity|].
  eapply (export_never_returns_an_entry true cache "users" []). reflexivity.
Defined.

(** ** delete_chat: the rate limit *)

Section FloodFacts.
Import Analyzer Server Coordinator Props More.









End FloodFacts.


(** ** Analyzers: probe calls and order *)

Section ProbeFacts.
Import Analyzer Props More.
Variable get_messages : User -> nat -> res (list message).

Lemma api_decide_probed n u k d :
  api_decide get_messages n u = Ok (k, d, true) -> (n <= 50)%nat.
Proof.
  unfold api_decide. destruct (deleted u); [done|].
  destruct (getattr (bot u) false) as [[]|]; [done| |done].
  destruct (getattr (scam u) false) as [[]|]; [done| |done].
  destruct (getattr (fake u) false) as [[]|]; [done| |done].
  destruct (n <=? 50)%nat eqn:E; [|done]. intros _. by apply Nat.leb_le.
Qed.

(** However the loop ends, the probes it has added are for persons among
    the first fifty it counts, in their order. *)
Lemma api_probe_inv dialogs s r s' :
  for_each dialogs (api_body get_messages) s = (r, s') ->
  exists l,
    probe_calls s' = probe_calls s ++ l
    /\ l `sublist_of`
         (user_id <$> take (50 - users_checked s) (persons dialogs)).
Proof.
  revert s. induction dialogs as [|d dialogs IH]; intros s.
  - intros [= <- <-]. exists []. rewrite app_nil_r. split; [done|].
    apply sublist_nil_l.
  - rewrite for_each_cons. destruct d as [u| | |].
    2-4: rewrite api_body_other by done; apply IH.
    rewrite api_body_user.
    destruct (api_decide get_messages (S (users_checked s)) u)
      as [[[k d] p]|e] eqn:Hd.
    + intros (l & Hl & Hsub)%IH. cbn [probe_calls users_checked] in Hl, Hsub.
      change (persons (EUser u :: dialogs)) with (u :: persons dialogs).
      destruct p.
      * apply api_decide_probed in Hd.
        replace (50 - users_checked s)%nat
          with (S (50 - S (users_checked s))) by lia.
        rewrite firstn_cons, fmap_cons. exists (user_id u :: l).
        split; [by rewrite Hl, <- app_assoc|]. by apply sublist_skip.
      * exists l. rewrite app_nil_r in Hl. split; [done|].
        destruct (50 - users_checked s)%nat as [|m] eqn:E.
        { by replace (50 - S (users_checked s))%nat with 0%nat in Hsub by lia. }
        replace (50 - S (users_checked s))%nat with m in Hsub by lia.
        rewrite firstn_cons, fmap_cons. by apply sublist_cons.
    + intros [= <- <-]. exists []. simpl. rewrite app_nil_r. split; [done|].
      apply sublist_nil_l.
Qed.

(** X2. The API analyzer never calls the probe more than fifty times:
    whatever the listing and the probe, and also when the analysis ends in
    an error, the probed ids are some of the first fifty persons of the
    listing, in listing order. *)
Theorem analyze_probes_within_first_fifty (dialogs : list entity) :
  let s := api_after get_messages dialogs in
  probe_calls s `sublist_of` (user_id <$> take 50 (persons dialogs))
  /\ (length (probe_calls s) <= 50)%nat.
Proof.
  intros s. subst s. unfold api_after, analyze_loop.
  destruct (for_each dialogs (api_body get_messages) api_state0)
    as [r s'] eqn:Hrun.
  destruct (api_probe_inv _ _ _ _ Hrun) as (l & Hl & Hsub).
  simpl in Hl, Hsub. simpl. rewrite Hl. split; [done|].
  apply sublist_length in Hsub. rewrite length_fmap, length_take in Hsub. lia.
Qed.

Lemma cli_step_calls s u :
  cli_probe_calls (cli_step get_messages s u)
  = cli_probe_calls s ++ (if cli_reaches_probe u then [user_id u] else []).
Proof.
  unfold cli_step, cli_body, try_except, cli_try, cli_get_messages,
    cli_reaches_probe.
  destruct (deleted u); simpl; [by rewrite app_nil_r|].
  unfold mbind, M_bind, bind, lift, modify; simpl.
  destruct (getattr (bot u) false) as [[]|]; simpl; try by rewrite app_nil_r.
  destruct (getattr (scam u) false) as [[]|]; simpl; try by rewrite app_nil_r.
  destruct (getattr (fake u) false) as [[]|]; simpl; try by rewrite app_nil_r.
  destruct (get_messages u 10) as [msgs|]; simpl; [|done].
  destruct (length msgs =? 0)%nat; [done|].
  by destruct (negb (existsb out msgs)).
Qed.

(** X3. The CLI analyzer has no probe limit: it calls the probe once for
    every user on which no flag is set (and none raises), in input order,
    and for no other user. *)
Theorem cli_probes_every_unflagged_user (users : list User) :
  cli_probe_calls (analyze_user_chats get_messages users).2
  = user_id <$> List.filter cli_reaches_probe users.
Proof.
  rewrite analyze_user_chats_ok. simpl.
  assert (H : forall s,
    cli_probe_calls (fold_left (cli_step get_messages) users s)
    = cli_probe_calls s ++ (user_id <$> List.filter cli_reaches_probe users)).
  { induction users as [|u users IH]; intros s; simpl.
    - by rewrite app_nil_r.
    - rewrite IH, cli_step_calls. rewrite <- app_assoc.
      by destruct (cli_reaches_probe u). }
  apply H.
Qed.

Lemma cli_step_bucket s u k :
  exists l, cli_bucket (cli_step get_messages s u) k = cli_bucket s k ++ l
            /\ l `sublist_of` [u].
Proof.
  destruct (cli_step_put get_messages s u) as [k' [-> | ->]];
    destruct k, k'; simpl;
    first [ exists [u]; split; [reflexivity|done]
          | exists []; split; [by rewrite app_nil_r|apply sublist_nil_l] ].
Qed.

Lemma api_loop_order dialogs s s' :
  for_each dialogs (api_body get_messages) s = (Ok tt, s') ->
  forall k, exists l,
    ids (bucket (result s') k) = ids (bucket (result s) k) ++ l
    /\ l `sublist_of` (user_id <$> persons dialogs).
Proof.
  revert s. induction dialogs as [|d dialogs IH]; intros s.
  - intros [= <-] k. exists []. rewrite app_nil_r. split; [done|].
    apply sublist_nil_l.
  - rewrite for_each_cons. destruct d as [u| | |].
    2-4: rewrite api_body_other by done; apply IH.
    rewrite api_body_user.
    destruct (api_decide get_messages (S (users_checked s)) u)
      as [[[k' d] p]|e] eqn:Hd; [|done].
    intros Hrun k. destruct (IH _ Hrun k) as (l & Hl & Hsub).
    cbn [result] in Hl. rewrite bucket_append in Hl.
    change (persons (EUser u :: dialogs)) with (u :: persons dialogs).
    rewrite fmap_cons. case_decide.
    + exists (user_id u :: l). split; [|by apply sublist_skip].
      rewrite Hl. unfold ids. rewrite fmap_app, <- app_assoc. simpl.
      by rewrite (api_decide_id _ _ _ _ _ _ Hd).
    + exists l. split; [done|]. by apply sublist_cons.
Qed.

(** X4. Both analyzers keep the order of their input: each list of the
    CLI analysis is a subsequence of the users given, and the ids of each
    list of the API analysis are a subsequence of the ids of the persons
    of the listing. *)
Theorem analysis_lists_keep_order :
  (forall (users : list User) k,
     cli_bucket (analyze_user_chats get_messages users).2 k `sublist_of` users)
  /\ (forall (dialogs : list entity) c a k,
        analyze get_messages true dialogs = inr (c, a) ->
        ids (bucket a k) `sublist_of` (user_id <$> persons dialogs)).
Proof.
  split.
  - intros users k. rewrite analyze_user_chats_ok. simpl.
    assert (H : forall s, exists l,
      cli_bucket (fold_left (cli_step get_messages) users s) k
      = cli_bucket s k ++ l /\ l `sublist_of` users).
    { induction users as [|u users IH]; intros s; simpl.
      - exists []. rewrite app_nil_r. split; [done|]. apply sublist_nil_l.
      - destruct (IH (cli_step get_messages s u)) as (l & Hl & Hsub).
        destruct (cli_step_bucket s u k) as (l1 & Hl1 & Hsub1).
        exists (l1 ++ l). rewrite Hl, Hl1, <- app_assoc. split; [done|].
        by apply (sublist_app l1 [u] l users). }
    destruct (H cli_state0) as (l & Hl & Hsub). rewrite Hl.
    by destruct k.
  - intros dialogs c a k. unfold analyze, analyze_loop. simpl.
    destruct (for_each dialogs (api_body get_messages) api_state0)
      as [[[]|e] s'] eqn:Hrun; [|done].
    intros [= <- <-].
    destruct (api_loop_order _ _ _ Hrun k) as (l & Hl & Hsub).
    rewrite Hl. by destruct k.
Qed.

End ProbeFacts.

(** Three users without messages, a deleted one between them: the
    no-messages list of the API analysis keeps their order. *)
Lemma analysis_lists_keep_order_witness :
  let dialogs := [EUser (Props.plain_user 1); EUser (Props.deleted_user 2);
                  EUser (Props.plain_user 3)] in
  exists c a,
    Analyzer.analyze Props.probe_nothing true dialogs = inr (c, a)
    /\ Props.ids (Analyzer.bucket a Analyzer.KNoMessages)
       `sublist_of` (user_id <$> Props.persons dialogs).
Proof.
  intros dialogs. do 2 eexists. split; [reflexivity|].
  eapply (proj2 (analysis_lists_keep_order Props.probe_nothing)
            dialogs _ _ Analyzer.KNoMessages).
  reflexivity.
Defined.

(** ** The page: requests, commits and roll-backs *)

Section PageFacts.
Import Server Coordinator Props PageNotions.

Lemma fresh_timer s : bounded s -> timers s !! next_timer s = None.
Proof.
  intros [Hbt _]. destruct (timers s !! next_timer s) eqn:E; [|done].
  assert (next_timer s < next_timer s)%nat by (apply Hbt; eauto). lia.
Qed.

Lemma fresh_request s n :
  bounded s -> requests s !! (next_request s + n)%nat = None.
Proof.
  intros [_ Hbr]. destruct (requests s !! (next_request s + n)%nat) eqn:E; [|done].
  assert (next_request s + n < next_request s)%nat by (apply Hbr; eauto). lia.
Qed.

Lemma leaves_alone_or_asks i e : leaves_alone (eq i) e \/ asks_for i e.
Proof.
  destruct e as [| |j|j t| | | | |]; simpl; try (by left);
    destruct (decide (j = i)) as [->|Hne]; (by right) || (left; congruence).
Qed.

(** X7. The page sends a delete request for a chat only if the user asked
    for it: whatever the events since the page was loaded (lists
    arriving, timers firing, answers settling, undo, cancel), an id among
    the requests issued was given to [deleteChat] or toggled into the
    selection by one of them. *)
Theorem no_request_without_asking (events : list event) (i : Z) :
  i ∈ calls (run init events) -> Exists (asks_for i) events.
Proof.
  intros Hin.
  assert (Hcases : Forall (leaves_alone (eq i)) events
                   \/ Exists (asks_for i) events).
  { clear Hin. induction events as [|e events IH]; [by left|].
    destruct (leaves_alone_or_asks i e) as [He|He]; [|right; by left].
    destruct IH as [IH|IH]; [left; by constructor|right; by right]. }
  destruct Hcases as [Hall|Hex]; [exfalso|done].
  assert (Hun : untargeted (eq i) init) by (split; apply map_Forall_empty).
  assert (Hsel : unselected (eq i) init) by constructor.
  destruct (pres_calls _ _ _ (preserves_run (eq i) events init Hun Hsel Hall))
    as (extra & Hextra & Hno).
  rewrite Hextra in Hin. simpl in Hin.
  by apply (proj1 (Forall_forall _ _) Hno i Hin).
Qed.

(** The single delete up to the arrival of the answer. *)
Lemma single_trace s i title c src r :
  bounded s -> findChatById i s = Some (c, src) ->
  run (deleteChat i title s)
    [TimerFires (next_timer s); FetchSettles (next_request s) r]
  = single_resume i title c src r (in_flight i title c src s).
Proof.
  intros Hb Hf.
  pose proof (fresh_timer s Hb) as Hft.
  pose proof (fresh_request s 0 Hb) as Hfr. rewrite Nat.add_0_r in Hfr.
  pose proof (remove_from_fields src i s) as (Ht & Hnt & Hr & Hc & Hp & Hsel).
  rewrite (deleteChat_found _ _ _ _ _ Hf).
  unfold run. cbn [fold_left].
  assert (H1 : forall armed,
    timers armed !! next_timer s = Some (10000%Z, CommitSingle i title c src) ->
    step armed (TimerFires (next_timer s))
    = fetch_delete i (AwaitSingle i title c src)
        (clearTimeout (next_timer s) armed)).
  { intros armed E. simpl. by rewrite E. }
  rewrite H1 by (destruct src; simpl; by rewrite lookup_insert_eq).
  assert (H2 : forall sent,
    requests sent !! next_request s = Some (AwaitSingle i title c src) ->
    step sent (FetchSettles (next_request s) r)
    = single_resume i title c src r
        (set_requests (delete (next_request s) (requests sent))
           (next_request sent) sent)).
  { intros sent E. simpl. by rewrite E. }
  rewrite H2 by (destruct src; simpl; by rewrite lookup_insert_eq).
  f_equal. unfold in_flight.
  destruct src; simpl; unfold set_requests; simpl;
    by rewrite !delete_insert_id.
Qed.

(** X8. A single delete that fails for good is rolled back. When the
    request is rejected, or answered with an error that carries no usable
    [retry_after], the chat is pushed back at the end of the list it was
    taken from, so every list is a rearrangement of what it was; the user
    is alerted once; the pending record is dropped; and the only request
    made is the one for this chat. *)
Theorem failed_delete_is_rolled_back (s : page) (i : Z) (title : string)
    (c : chat) (src : source) (r : fetch_result) :
  reachable s ->
  findChatById i s = Some (c, src) ->
  NoDup (id <$> view src s) ->
  failed_for_good r ->
  let s' := run (deleteChat i title s)
              [TimerFires (next_timer s); FetchSettles (next_request s) r] in
  currentChats s' ≡ₚ currentChats s
  /\ categories s' = categories s
  /\ (forall category, view (Analysis category) s' ≡ₚ view (Analysis category) s)
  /\ c ∈ view src s'
  /\ alerts s' = alerts s ++ [failure_alert r]
  /\ pendingDeletes s' !! i = None
  /\ calls s' = calls s ++ [i]
  /\ timers s' = timers s
  /\ requests s' = requests s.
Proof.
  intros [Hb Hk]%reachable_well_formed Hf Hnd Hr s'.
  pose proof (restore_after_remove i c src s Hk Hf Hnd)
    as (Hcur & Hcat & Hview & Hin & _).
  assert (Hs' : s' =
    single_finally i
      (set_alerts (alerts s ++ [failure_alert r])
         (restoreChat c src (in_flight i title c src s)))).
  { subst s'. rewrite (single_trace _ _ _ _ _ _ Hb Hf).
    destruct r as [|resp]; simpl.
    - by destruct src.
    - destruct Hr as [Hok Hra]. rewrite Hok, Hra. simpl. by destruct src. }
  split; [rewrite Hs'; by destruct src|].
  split; [rewrite Hs'; by destruct src|].
  split; [rewrite Hs'; by destruct src|].
  split; [rewrite Hs'; by destruct src|].
  split; [rewrite Hs'; by destruct src|].
  split; [rewrite Hs'; destruct src; simpl; by rewrite lookup_delete_eq|].
  rewrite Hs'. by destruct src.
Qed.

(** X9. A single delete that succeeds stays deleted. After the request
    has been answered with a success status and the statistics request
    has settled (whatever its outcome), the list the chat came from holds
    no chat with this id, the other lists are the ones left by the
    removal, nothing is alerted, the pending record is gone, and exactly
    one delete request was made. *)
Theorem successful_delete_is_final (s : page) (i : Z) (title : string)
    (c : chat) (src : source) (resp : http_response) (stats : fetch_result) :
  reachable s ->
  findChatById i s = Some (c, src) ->
  ok resp = true ->
  let s' := run (deleteChat i title s)
              [TimerFires (next_timer s);
               FetchSettles (next_request s) (Response resp);
               FetchSettles (S (next_request s)) stats] in
  (forall c', c' ∈ view src s' -> id c' <> i)
  /\ (forall src', view src' s' = view src' (remove_from src i s))
  /\ alerts s' = alerts s
  /\ pendingDeletes s' !! i = None
  /\ calls s' = calls s ++ [i]
  /\ timers s' = timers s
  /\ requests s' = requests s.
Proof.
  intros [Hb Hk]%reachable_well_formed Hf Hok s'.
  pose proof (fresh_request s 1 Hb) as Hfr.
  rewrite Nat.add_1_r in Hfr.
  destruct (findChatById_view i s c src Hk Hf) as [Hfind Hsrc].
  assert (Hs' : s' =
    single_finally i
      (set_requests (requests s) (S (S (next_request s)))
         (in_flight i title c src s))).
  { subst s'.
    change (run ?a [?e1; ?e2; ?e3]) with (step (run a [e1; e2]) e3).
    rewrite (single_trace _ _ _ _ _ _ Hb Hf). simpl. rewrite Hok. simpl.
    rewrite lookup_insert_eq. unfold single_finally, set_requests. simpl.
    destruct src; simpl; by rewrite delete_insert_id. }
  assert (Hviews : forall src', view src' s' = view src' (remove_from src i s)).
  { intros src'. rewrite Hs'. by destruct src, src'. }
  split.
  { intros c'. rewrite Hviews.
    destruct Hsrc as [-> | (cat & -> & [l Hget])]; simpl.
    - apply filter_not_id.
    - rewrite obj_get_set_eq. simpl. apply filter_not_id. }
  split; [done|].
  split; [rewrite Hs'; by destruct src|].
  split; [rewrite Hs'; destruct src; simpl; by rewrite lookup_delete_eq|].
  rewrite Hs'. by destruct src.
Qed.

(** X10. A rate-limited single delete is given up without notice. When
    the request is answered with an error carrying a usable
    [retry_after], a timer of that many seconds is armed and the pending
    record is dropped; when this timer fires, [deleteChat] runs again
    and, the chat being in no list any more, returns at once. The chat
    then stays out of its list although no request succeeded, no second
    request is made or scheduled, and nothing is alerted. *)
Theorem rate_limited_delete_is_dropped (s : page) (i : Z) (title : string)
    (c : chat) (src : source) (resp : http_response) (w : Z) :
  reachable s ->
  findChatById i s = Some (c, src) ->
  findChatById i (remove_from src i s) = None ->
  ok resp = false ->
  retry_after_truthy resp = Some w ->
  let limited := run (deleteChat i title s)
                   [TimerFires (next_timer s);
                    FetchSettles (next_request s) (Response resp)] in
  let s' := step limited (TimerFires (S (next_timer s))) in
  timers limited
  = <[S (next_timer s) := ((w * 1000)%Z, RetrySingle i title)]> (timers s)
  /\ pendingDeletes limited !! i = None
  /\ (forall src', view src' s' = view src' (remove_from src i s))
  /\ findChatById i s' = None
  /\ alerts s' = alerts s
  /\ calls s' = calls s ++ [i]
  /\ timers s' = timers s
  /\ requests s' = requests s.
Proof.
  intros [Hb Hk]%reachable_well_formed Hf Hgone Hok Hw limited s'.
  assert (Hft : timers s !! S (next_timer s) = None).
  { destruct Hb as [Hbt _].
    destruct (timers s !! S (next_timer s)) eqn:E; [|done].
    assert (S (next_timer s) < next_timer s)%nat by (apply Hbt; eauto). lia. }
  assert (Hlim : limited =
    single_finally i
      (setTimeout (RetrySingle i title) (w * 1000) (in_flight i title c src s))).
  { subst limited. rewrite (single_trace _ _ _ _ _ _ Hb Hf). simpl.
    by rewrite Hok, Hw. }
  assert (Hfind : forall x,
    currentChats x = currentChats (remove_from src i s) ->
    analysisData x = analysisData (remove_from src i s) ->
    findChatById i x = None).
  { intros x H1 H2. unfold findChatById in *. by rewrite H1, H2. }
  assert (Hs' : s' = clearTimeout (S (next_timer s)) limited).
  { subst s'. rewrite Hlim. simpl. rewrite lookup_insert_eq. simpl.
    unfold deleteChat. rewrite Hfind; [done| |]; by destruct src. }
  split; [rewrite Hlim; by destruct src|].
  split; [rewrite Hlim; destruct src; simpl; by rewrite lookup_delete_eq|].
  split; [intros src'; rewrite Hs', Hlim; by destruct src, src'|].
  split; [apply Hfind; rewrite Hs', Hlim; by destruct src|].
  split; [rewrite Hs', Hlim; by destruct src|].
  split; [rewrite Hs', Hlim; by destruct src|].
  split; [rewrite Hs', Hlim; destruct src; simpl; by rewrite delete_insert_id|].
  rewrite Hs', Hlim. by destruct src.
Qed.

End PageFacts.

(** Carol is deleted and her timer fires: the request for her goes back
    to the [DeleteChat] event. *)
Lemma no_request_without_asking_witness :
  Exists (PageNotions.asks_for 7)
    [Coordinator.ChatsLoaded [Props.carol];
     Coordinator.DeleteChat 7 "Carol"; Coordinator.TimerFires 0].
Proof.
  apply no_request_without_asking. vm_compute. apply list_elem_of_here.
Defined.

(** The request for Alice is rejected: she is back in the list and the
    network error is alerted. *)
Lemma failed_delete_witness :
  let s := Coordinator.run Coordinator.init
             [Coordinator.ChatsLoaded [Props.alice; Props.bob]] in
  let s' := Coordinator.run (Coordinator.deleteChat 1 "Alice" s)
              [Coordinator.TimerFires 0;
               Coordinator.FetchSettles 0 Coordinator.Rejected] in
  Coordinator.currentChats s' ≡ₚ [Props.alice; Props.bob]
  /\ Coordinator.alerts s' = ["Network error deleting chat"].
Proof.
  intros s s'.
  destruct (failed_delete_is_rolled_back s 1 "Alice" Props.alice
              Coordinator.Main Coordinator.Rejected)
    as (Hcur & _ & _ & _ & Halert & _).
  - by eexists.
  - reflexivity.
  - vm_compute. repeat constructor; set_solver.
  - exact I.
  - split; [exact Hcur | exact Halert].
Defined.

(** The request for Alice succeeds and the statistics request is
    rejected: no chat with her id is left in the list. *)
Lemma successful_delete_witness :
  let s := Coordinator.run Coordinator.init
             [Coordinator.ChatsLoaded [Props.alice; Props.bob]] in
  let s' := Coordinator.run (Coordinator.deleteChat 1 "Alice" s)
              [Coordinator.TimerFires 0;
               Coordinator.FetchSettles 0 Props.response_ok;
               Coordinator.FetchSettles 1 Coordinator.Rejected] in
  (forall c', c' ∈ Coordinator.currentChats s' -> Coordinator.id c' <> 1%Z)
  /\ Coordinator.calls s' = [1%Z].
Proof.
  intros s s'.
  destruct (successful_delete_is_final s 1 "Alice" Props.alice
              Coordinator.Main
              (Server.delete_chat_http (inr Server.DeleteSuccess))
              Coordinator.Rejected)
    as (Hout & _ & _ & _ & Hcalls & _).
  - by eexists.
  - reflexivity.
  - reflexivity.
  - split; [exact Hout | exact Hcalls].
Defined.

(** The request for Alice is answered with a rate limit of five seconds:
    after the retry timer she is in no list, and no second request was
    made. *)
Lemma rate_limited_delete_witness :
  let s := Coordinator.run Coordinator.init
             [Coordinator.ChatsLoaded [Props.alice; Props.bob]] in
  let s' := Coordinator.run (Coordinator.deleteChat 1 "Alice" s)
              [Coordinator.TimerFires 0;
               Coordinator.FetchSettles 0 (Props.response_rate_limited 5);
               Coordinator.TimerFires 1] in
  Coordinator.findChatById 1 s' = None
  /\ Coordinator.calls s' = [1%Z]
  /\ Coordinator.alerts s' = []
  /\ Coordinator.timers s' = ∅.
Proof.
  intros s s'.
  destruct (rate_limited_delete_is_dropped s 1 "Alice" Props.alice
              Coordinator.Main
              (Server.delete_chat_http (inr (Server.RateLimited 5))) 5)
    as (_ & _ & _ & Hgone & Halerts & Hcalls & Htimers & _).
  - by eexists.
  - reflexivity.
  - reflexivity.
  - reflexivity.
  - reflexivity.
  - split; [exact Hgone|]. split; [exact Hcalls|].
    split; [exact Halerts | exact Htimers].
Defined.

(** ** The page: the bulk delete *)

Section BulkFacts.
Import Server Coordinator Props PageNotions.

Lemma filter_filter_bool {A} (f g : A -> bool) (l : list A) :
  List.filter f (List.filter g l) = List.filter (fun x => g x && f x) l.
Proof.
  induction l as [|x l IH]; simpl; [done|].
  destruct (g x); simpl; [|done]. destruct (f x); by rewrite IH.
Qed.

Lemma find_filter_other i j (l : list chat) :
  i <> j ->
  List.find (has_id i) (List.filter (not_id j) l) = List.find (has_id i) l.
Proof.
  intros Hne. induction l as [|x l IH]; simpl; [done|].
  unfold not_id, has_id in *.
  destruct (Z.eqb_spec (id x) j) as [Hj|Hj]; simpl.
  - destruct (Z.eqb_spec (id x) i); [congruence|done].
  - by rewrite IH.
Qed.

Lemma find_has_id i (l : list chat) c :
  List.find (has_id i) l = Some c -> id c = i.
Proof.
  intros [_ H]%find_some. by apply Z.eqb_eq in H.
Qed.

Lemma NoDup_ids_filter (f : chat -> bool) (l : list chat) :
  NoDup (id <$> l) -> NoDup (id <$> List.filter f l).
Proof.
  induction l as [|x l IH]; [done|].
  cbn [List.filter]. rewrite fmap_cons. intros [Hx Hnd]%NoDup_cons.
  destruct (f x); [|by apply IH].
  rewrite fmap_cons. apply NoDup_cons. split; [|by apply IH].
  intros (y & Hy & Hin)%list_elem_of_fmap.
  apply list_elem_of_In, filter_In in Hin as [Hin%list_elem_of_In _].
  apply Hx, list_elem_of_fmap. by exists y.
Qed.

(** Taking the stored chats out of a list and pushing them back
    rearranges the list. *)
Lemma push_back_all (its : list item) (l : list chat) :
  NoDup (id <$> l) -> NoDup (item_id <$> its) ->
  Forall (fun it => List.find (has_id (item_id it)) l = Some (item_chat it)) its ->
  List.filter (keep (item_id <$> its)) l ++ (item_chat <$> its) ≡ₚ l.
Proof.
  revert l. induction its as [|it its IH]; intros l Hl Hnd Hall.
  - rewrite app_nil_r.
    assert (H : forall l : list chat, List.filter (keep []) l = l).
    { clear. induction l as [|x l IH]; simpl; [done|]. by rewrite IH. }
    by rewrite H.
  - rewrite !fmap_cons in *. apply NoDup_cons in Hnd as [Hit Hnd].
    apply Forall_cons in Hall as [Hfind Hall].
    change (List.filter (keep (item_id it :: (item_id <$> its))) l)
      with (List.filter (fun c => not_id (item_id it) c
                                  && keep (item_id <$> its) c) l).
    rewrite <- filter_filter_bool.
    rewrite <- Permutation_middle.
    rewrite (IH (List.filter (not_id (item_id it)) l)).
    + rewrite Permutation_cons_append. by apply filter_push_back.
    + by apply NoDup_ids_filter.
    + done.
    + apply Forall_forall. intros it' Hin'.
      rewrite find_filter_other.
      * by apply (proj1 (Forall_forall _ _) Hall).
      * intros Heq. apply Hit. rewrite <- Heq.
        apply list_elem_of_fmap. by exists it'.
Qed.

Lemma view_remove_from src j v s :
  view v (remove_from src j s)
  = if decide (src = v) then List.filter (not_id j) (view v s) else view v s.
Proof.
  destruct src as [|cat], v as [|cat']; simpl;
    repeat case_decide; try done.
  - simplify_eq. by rewrite obj_get_set_eq.
  - rewrite obj_get_set_ne; [done|congruence].
Qed.

Lemma view_restoreChat c src v s :
  view v (restoreChat c src s)
  = if decide (src = v) then view v s ++ [c] else view v s.
Proof.
  destruct src as [|cat], v as [|cat']; simpl;
    repeat case_decide; try done.
  - simplify_eq. by rewrite obj_get_set_eq.
  - rewrite obj_get_set_ne; [done|congruence].
Qed.

Lemma view_fold_remove items v s :
  view v (fold_left (fun s it => remove_from (item_source it) (item_id it) s)
            items s)
  = List.filter (keep (ids_from v items)) (view v s).
Proof.
  revert s. induction items as [|it items IH]; intros s.
  - simpl. induction (view v s) as [|x l IHl]; simpl; [done|]. by rewrite <- IHl.
  - cbn [fold_left]. rewrite IH, view_remove_from.
    unfold ids_from. cbn [List.filter].
    destruct (decide (item_source it = v)) as [Heq|Hne].
    + rewrite bool_decide_eq_true_2 by done. rewrite fmap_cons.
      by rewrite filter_filter_bool.
    + by rewrite bool_decide_eq_false_2.
Qed.

Lemma view_fold_restore items v s :
  view v (fold_left (fun s it => restoreChat (item_chat it) (item_source it) s)
            items s)
  = view v s ++ chats_from v items.
Proof.
  revert s. induction items as [|it items IH]; intros s.
  - simpl. by rewrite app_nil_r.
  - cbn [fold_left]. rewrite IH, view_restoreChat.
    unfold chats_from. cbn [List.filter].
    destruct (decide (item_source it = v)) as [Heq|Hne].
    + rewrite bool_decide_eq_true_2 by done.
      by rewrite fmap_cons, <- app_assoc.
    + by rewrite bool_decide_eq_false_2.
Qed.

Lemma fold_remove_fields items s :
  let s' := fold_left (fun s it => remove_from (item_source it) (item_id it) s)
              items s in
  timers s' = timers s /\ next_timer s' = next_timer s
  /\ requests s' = requests s /\ next_request s' = next_request s
  /\ calls s' = calls s /\ pendingDeletes s' = pendingDeletes s
  /\ alerts s' = alerts s.
Proof.
  revert s. induction items as [|it items IH]; intros s; [done|].
  cbn [fold_left]. cbn zeta in *.
  destruct (IH (remove_from (item_source it) (item_id it) s))
    as (-> & -> & -> & -> & -> & -> & ->).
  by destruct (item_source it).
Qed.

Lemma fold_restore_fields items s :
  let s' := fold_left (fun s it => restoreChat (item_chat it) (item_source it) s)
              items s in
  timers s' = timers s /\ requests s' = requests s /\ calls s' = calls s
  /\ pendingDeletes s' = pendingDeletes s
  /\ selectedChats s' = selectedChats s.
Proof.
  revert s. induction items as [|it items IH]; intros s; [done|].
  cbn [fold_left]. cbn zeta in *.
  destruct (IH (restoreChat (item_chat it) (item_source it) s))
    as (-> & -> & -> & -> & ->).
  by destruct (item_source it).
Qed.

(** The stored items are those selected ids [findChatById] finds, in the
    order of the selection. *)
Lemma stored_items_ids s (sel : list Z) :
  item_id <$> omap (stored_item s) sel `sublist_of` sel.
Proof.
  induction sel as [|i sel IH]; simpl; [done|].
  unfold stored_item at 1.
  destruct (findChatById i s) as [[c src]|]; simpl.
  - by apply sublist_skip.
  - by apply sublist_cons.
Qed.

Lemma stored_items_found s (sel : list Z) it :
  NoDup (categories s) ->
  it ∈ omap (stored_item s) sel ->
  List.find (has_id (item_id it)) (view (item_source it) s) = Some (item_chat it).
Proof.
  intros Hk (i & _ & Hit)%list_elem_of_omap. unfold stored_item in Hit.
  destruct (findChatById i s) as [[c src]|] eqn:Hf; [|done].
  injection Hit as <-. simpl. by apply (findChatById_view i s c src Hk Hf).
Qed.

Lemma deleteSelected_confirmed now s :
  selectedChats s <> [] ->
  deleteSelected true now s =
  let items := omap (stored_item s) (selectedChats s) in
  let s2 := set_selectedChats []
              (fold_left (fun s it => remove_from (item_source it) (item_id it) s)
                 items s) in
  set_pendingDeletes
    (<[now := Bulk (next_timer s2) items]> (pendingDeletes s2))
    (setTimeout (CommitBulk now (selectedChats s) (length (selectedChats s)))
       10000 s2).
Proof.
  intros Hsel. unfold deleteSelected.
  by destruct (selectedChats s) as [|i sel].
Qed.

Lemma List_filter_sublist {A} (f : A -> bool) (l : list A) :
  List.filter f l `sublist_of` l.
Proof.
  induction l as [|x l IH]; simpl; [done|].
  destruct (f x); [by apply sublist_skip | by apply sublist_cons].
Qed.

Lemma NoDup_List_filter {A} (f : A -> bool) (l : list A) :
  NoDup l -> NoDup (List.filter f l).
Proof.
  intros H. eapply sublist_NoDup; [done | apply List_filter_sublist].
Qed.

(** The selection holds each id once. *)
Lemma selected_bulk_loop ids deleted failed count s :
  selectedChats (bulk_loop ids deleted failed count s) = selectedChats s.
Proof.
  unfold bulk_loop. destruct ids; [done|]. by destruct (bulkDeleteCancelled s).
Qed.

Lemma selected_deleteChat i title s :
  NoDup (selectedChats s) -> NoDup (selectedChats (deleteChat i title s)).
Proof.
  intros Hnd. unfold deleteChat.
  destruct (findChatById i s) as [[c src]|]; [|done].
  destruct src; simpl; by apply NoDup_List_filter.
Qed.

Lemma selected_step s e :
  NoDup (selectedChats s) -> NoDup (selectedChats (step s e)).
Proof.
  intros Hnd.
  destruct e as [chats|users|j|j title|j|c now| |t|q r]; simpl; try done.
  - unfold toggleChatSelection.
    destruct (existsb (Z.eqb j) (selectedChats s)) eqn:E; simpl.
    + by apply NoDup_List_filter.
    + apply NoDup_app. split; [done|]. split; [|apply NoDup_singleton].
      intros x Hx ->%list_elem_of_singleton.
      assert (existsb (Z.eqb j) (selectedChats s) = true); [|congruence].
      apply existsb_exists. exists j. split; [by apply list_elem_of_In|].
      apply Z.eqb_refl.
  - by apply selected_deleteChat.
  - unfold undoDelete. destruct (pendingDeletes s !! j) as [p|]; [|done].
    destruct p as [t title c src|t items].
    + by destruct src.
    + by rewrite (proj2 (proj2 (proj2 (proj2 (fold_restore_fields items _))))).
  - unfold deleteSelected.
    destruct (length (selectedChats s) =? 0)%nat; [done|].
    destruct c; simpl; [constructor|done].
  - destruct (timers s !! t) as [[d cb]|]; [|done].
    destruct cb; simpl; try done.
    + by apply selected_deleteChat.
    + unfold bulk_start. by rewrite selected_bulk_loop.
  - destruct (requests s !! q) as [k|]; [|done].
    destruct k; simpl; try done.
    + unfold single_resume. destruct r as [|resp]; [by destruct src|].
      destruct (negb (ok resp)); [|done].
      destruct (retry_after_truthy resp); by destruct src.
    + unfold bulk_resume, bulk_next. destruct r as [|resp].
      * by rewrite selected_bulk_loop.
      * destruct (ok resp); [by rewrite selected_bulk_loop|].
        destruct (retry_after_truthy resp); [done|].
        by rewrite selected_bulk_loop.
    + unfold bulk_retry_resume, bulk_next.
      destruct r; by rewrite selected_bulk_loop.
Qed.

Lemma reachable_selected s : reachable s -> NoDup (selectedChats s).
Proof.
  intros [events ->]. unfold run.
  assert (H : forall s0, NoDup (selectedChats s0) ->
            NoDup (selectedChats (fold_left step events s0))).
  { induction events as [|e events IH]; intros s0 H0; [done|].
    simpl. by apply IH, selected_step. }
  apply H. constructor.
Qed.

(** X11. Undoing a bulk delete before its timer fires puts every chat
    back. [deleteSelected], once confirmed, takes each selected chat that
    [findChatById] finds out of the list it was found in, empties the
    selection and arms one ten-second timer; [undoDelete] with the bulk id
    clears that timer, drops the record and pushes the stored chats back,
    so every list is a rearrangement of what it was and no request has
    been made. The selection stays empty. *)
Theorem bulk_undo_restores (s : page) (now : Z) :
  reachable s ->
  distinct_ids s ->
  selectedChats s <> [] ->
  let armed := deleteSelected true now s in
  let s' := undoDelete now armed in
  (forall i c src,
     i ∈ selectedChats s -> findChatById i s = Some (c, src) ->
     forall c', c' ∈ view src armed -> id c' <> i)
  /\ selectedChats armed = []
  /\ timers armed !! next_timer s
     = Some (10000%Z,
             CommitBulk now (selectedChats s) (length (selectedChats s)))
  /\ (forall src, view src s' ≡ₚ view src s)
  /\ selectedChats s' = []
  /\ pendingDeletes s' !! now = None
  /\ timers s' = timers s
  /\ requests s' = requests s
  /\ calls s' = calls s.
Proof.
  intros Hreach Hdist Hsel armed s'.
  pose proof (reachable_selected s Hreach) as Hnd.
  apply reachable_well_formed in Hreach as [Hb Hk].
  pose proof (fresh_timer s Hb) as Hft.
  set (items := omap (stored_item s) (selectedChats s)).
  pose proof (fold_remove_fields items s) as Hfields. cbn zeta in Hfields.
  set (removed := fold_left
         (fun s it => remove_from (item_source it) (item_id it) s) items s)
    in Hfields.
  destruct Hfields as (Ht & Hnt & Hr & Hnr & Hc & Hp & Ha).
  assert (Harmed : armed =
    set_pendingDeletes
      (<[now := Bulk (next_timer s) items]> (pendingDeletes s))
      (setTimeout (CommitBulk now (selectedChats s) (length (selectedChats s)))
         10000 (set_selectedChats [] removed))).
  { subst armed. rewrite (deleteSelected_confirmed now s Hsel). cbn zeta.
    fold items. fold removed. simpl. by rewrite Hnt, Hp. }
  assert (Hview_armed : forall v,
    view v armed = List.filter (keep (ids_from v items)) (view v s)).
  { intros v. rewrite <- view_fold_remove. rewrite Harmed. by destruct v. }
  assert (Hs' : s' =
    fold_left (fun s it => restoreChat (item_chat it) (item_source it) s) items
      (set_pendingDeletes (delete now (pendingDeletes armed))
         (clearTimeout (next_timer s) armed))).
  { subst s'. unfold undoDelete.
    assert (Hl : pendingDeletes armed !! now = Some (Bulk (next_timer s) items)).
    { rewrite Harmed. simpl. by rewrite lookup_insert_eq. }
    by rewrite Hl. }
  pose proof (fold_restore_fields items
                (set_pendingDeletes (delete now (pendingDeletes armed))
                   (clearTimeout (next_timer s) armed))) as Hrf.
  cbn zeta in Hrf. rewrite <- Hs' in Hrf.
  destruct Hrf as (Ht' & Hr' & Hc' & Hp' & Hsel').
  split.
  { intros i c src Hi Hf c'. rewrite Hview_armed.
    intros [_ Hkeep]%list_elem_of_In%filter_In Heq.
    unfold keep in Hkeep. rewrite forallb_forall in Hkeep.
    assert (Hin : In i (ids_from src items)).
    { apply list_elem_of_In. unfold ids_from. apply list_elem_of_fmap.
      exists (mkItem c src i). split; [done|].
      apply list_elem_of_In, filter_In. split.
      - apply list_elem_of_In, list_elem_of_omap. exists i. split; [done|].
        unfold stored_item. by rewrite Hf.
      - simpl. by apply bool_decide_eq_true_2. }
    specialize (Hkeep i Hin). apply negb_true_iff, Z.eqb_neq in Hkeep. done. }
  split; [by rewrite Harmed|].
  split; [rewrite Harmed; simpl; by rewrite Hnt, lookup_insert_eq|].
  split.
  { intros v. rewrite Hs', view_fold_restore.
    assert (Hbase : view v (set_pendingDeletes (delete now (pendingDeletes armed))
                              (clearTimeout (next_timer s) armed))
                    = view v armed) by (by destruct v).
    rewrite Hbase, Hview_armed. unfold ids_from, chats_from.
    apply push_back_all.
    - apply Hdist.
    - eapply sublist_NoDup; [exact Hnd|].
      etrans; [|apply (stored_items_ids s)].
      apply fmap_sublist, List_filter_sublist.
    - apply Forall_forall.
      intros it [Hit Hsrc]%list_elem_of_In%filter_In.
      apply bool_decide_eq_true_1 in Hsrc. rewrite <- Hsrc.
      apply (stored_items_found s (selectedChats s)); [done|].
      by apply list_elem_of_In. }
  split; [rewrite Hsel', Harmed; done|].
  split; [rewrite Hp'; simpl; by rewrite lookup_delete_eq|].
  split; [rewrite Ht', Harmed; simpl; by rewrite Hnt, Ht, delete_insert_id|].
  split; [rewrite Hr', Harmed; simpl; by rewrite Hr|].
  rewrite Hc', Harmed. simpl. by rewrite Hc.
Qed.

Lemma count_ok_failed rs : (count_ok rs + count_failed rs = length rs)%nat.
Proof.
  unfold count_ok, count_failed.
  induction rs as [|r rs IH]; simpl; [done|].
  destruct (succeeded r); simpl; lia.
Qed.

(** One iteration of the bulk loop whose answer is no rate limit. *)
Lemma bulk_iteration i rest deleted failed count r s :
  bounded s -> bulkDeleteCancelled s = false -> ~ rate_limited r ->
  step (bulk_loop (i :: rest) deleted failed count s)
    (FetchSettles (next_request s) r)
  = bulk_loop rest
      (if succeeded r then S deleted else deleted)
      (if succeeded r then failed else S failed) count
      (set_counters (if succeeded r then S deleted else deleted,
                     if succeeded r then failed else S failed)
         (set_requests (requests s) (S (next_request s))
            (set_calls (calls s ++ [i]) s))).
Proof.
  intros Hb Hc Hr.
  pose proof (fresh_request s 0 Hb) as Hfr. rewrite Nat.add_0_r in Hfr.
  unfold bulk_loop at 1. rewrite Hc. simpl. rewrite lookup_insert_eq.
  rewrite delete_insert_id by done.
  unfold bulk_resume, bulk_next. destruct r as [|resp]; simpl; [done|].
  destruct (ok resp) eqn:Hok; [done|].
  destruct (retry_after_truthy resp) as [w|] eqn:Hw; [|done].
  destruct Hr. simpl. by rewrite Hw.
Qed.

Lemma bulk_loop_run ids : forall rs deleted failed count s,
  bounded s -> bulkDeleteCancelled s = false ->
  length rs = length ids -> Forall (fun r => ~ rate_limited r) rs ->
  let fin := run (bulk_loop ids deleted failed count s)
               (settles (next_request s) rs) in
  calls fin = calls s ++ ids
  /\ timers fin = timers s
  /\ requests fin
     = <[(next_request s + length ids)%nat := AwaitBulkSync]> (requests s)
  /\ counters fin = match ids with
                    | [] => counters s
                    | _ => ((deleted + count_ok rs)%nat,
                            (failed + count_failed rs)%nat)
                    end
  /\ pendingDeletes fin = pendingDeletes s
  /\ alerts fin = alerts s
  /\ currentChats fin = currentChats s
  /\ analysisData fin = analysisData s.
Proof.
  induction ids as [|i rest IH]; intros rs deleted failed count s Hb Hc Hlen Hrs.
  - destruct rs; [|done]. simpl. rewrite Nat.add_0_r, app_nil_r. done.
  - destruct rs as [|r rs]; [done|]. injection Hlen as Hlen.
    apply Forall_cons in Hrs as [Hr Hrs].
    cbn [settles]. unfold run. cbn [fold_left].
    rewrite (bulk_iteration _ _ _ _ _ _ _ Hb Hc Hr).
    set (s1 := set_counters _ _).
    assert (Hb1 : bounded s1).
    { destruct Hb as [Hbt Hbr]. split; simpl; [done|].
      intros q Hq. specialize (Hbr q Hq). lia. }
    destruct (IH rs (if succeeded r then S deleted else deleted)
                (if succeeded r then failed else S failed) count s1
                Hb1 Hc Hlen Hrs)
      as (Hcalls & Htimers & Hreq & Hcount & Hpend & Halerts & Hcur & Han).
    unfold run in *. change (next_request s1) with (S (next_request s)) in *.
    rewrite Hcalls, Htimers, Hreq, Hcount, Hpend, Halerts, Hcur, Han.
    subst s1. cbn [calls timers requests counters pendingDeletes alerts
                   currentChats analysisData set_counters set_requests
                   set_calls length].
    rewrite <- app_assoc, Nat.add_succ_r.
    repeat split.
    unfold count_ok, count_failed. cbn [List.filter].
    destruct rest as [|i' rest]; destruct (succeeded r); simpl;
      try (destruct rs; [|done]; simpl); f_equal; lia.
Qed.

(** X12. A bulk delete that meets no rate limit and is not cancelled
    requests every selected id once, in the order of the selection, and
    accounts for each: [deleted] counts the success answers, [failed] the
    others, and together they make the number of selected chats. A failed
    deletion is neither rolled back nor alerted: the lists stay as the
    optimistic removal left them. *)
Theorem bulk_delete_counts (s : page) (now : Z) (rs : list fetch_result) :
  reachable s ->
  selectedChats s <> [] ->
  length rs = length (selectedChats s) ->
  Forall (fun r => ~ rate_limited r) rs ->
  let armed := deleteSelected true now s in
  let fin := run armed
               (TimerFires (next_timer s) :: settles (next_request s) rs) in
  calls fin = calls s ++ selectedChats s
  /\ counters fin = (count_ok rs, count_failed rs)
  /\ (count_ok rs + count_failed rs = length (selectedChats s))%nat
  /\ (forall src, view src fin = view src armed)
  /\ alerts fin = alerts s
  /\ pendingDeletes fin !! now = None
  /\ timers fin = timers s.
Proof.
  intros [Hb Hk]%reachable_well_formed Hsel Hlen Hrs armed fin.
  pose proof (fresh_timer s Hb) as Hft.
  set (items := omap (stored_item s) (selectedChats s)).
  pose proof (fold_remove_fields items s) as Hfields. cbn zeta in Hfields.
  set (removed := fold_left
         (fun s it => remove_from (item_source it) (item_id it) s) items s)
    in Hfields.
  destruct Hfields as (Ht & Hnt & Hr & Hnr & Hc & Hp & Ha).
  assert (Harmed : armed =
    set_pendingDeletes
      (<[now := Bulk (next_timer s) items]> (pendingDeletes s))
      (setTimeout (CommitBulk now (selectedChats s) (length (selectedChats s)))
         10000 (set_selectedChats [] removed))).
  { subst armed. rewrite (deleteSelected_confirmed now s Hsel). cbn zeta.
    fold items. fold removed. simpl. by rewrite Hnt, Hp. }
  set (started :=
    set_bulkDeleteCancelled false
      (set_counters (0, 0)%nat
         (set_pendingDeletes (delete now (pendingDeletes armed))
            (clearTimeout (next_timer s) armed)))).
  assert (Hfin : fin =
    run (bulk_loop (selectedChats s) 0 0 (length (selectedChats s)) started)
      (settles (next_request started) rs)).
  { subst fin. unfold run at 1. cbn [fold_left].
    assert (Hl : timers armed !! next_timer s
                 = Some (10000%Z, CommitBulk now (selectedChats s)
                                    (length (selectedChats s)))).
    { rewrite Harmed. simpl. by rewrite Hnt, lookup_insert_eq. }
    cbn [step]. rewrite Hl. cbn [run_callback]. unfold bulk_start. cbn zeta.
    fold started.
    assert (Hq : next_request started = next_request s).
    { subst started. rewrite Harmed. simpl. exact Hnr. }
    by rewrite Hq. }
  assert (Hbs : bounded started).
  { destruct Hb as [Hbt Hbr]. subst started. rewrite Harmed.
    split; simpl; rewrite ?Hnt, ?Ht, ?Hr, ?Hnr.
    - intros t. rewrite delete_insert_id by done. intros Hq.
      specialize (Hbt t Hq). lia.
    - done. }
  destruct (bulk_loop_run (selectedChats s) rs 0 0 (length (selectedChats s))
              started Hbs eq_refl Hlen Hrs)
    as (Hcalls & Htimers & _ & Hcount & Hpend & Halerts & Hcur & Han).
  rewrite <- Hfin in *.
  split; [rewrite Hcalls; subst started; rewrite Harmed; simpl; by rewrite Hc|].
  split; [rewrite Hcount; by destruct (selectedChats s)|].
  split; [rewrite count_ok_failed; done|].
  split.
  { intros v. destruct v; simpl; rewrite ?Hcur, ?Han; done. }
  split; [rewrite Halerts; subst started; rewrite Harmed; simpl; done|].
  split; [rewrite Hpend; subst started; simpl; by rewrite lookup_delete_eq|].
  rewrite Htimers. subst started. rewrite Harmed. simpl.
  by rewrite Hnt, Ht, delete_insert_id.
Qed.

End BulkFacts.

(** Alice and Bob are selected, deleted together and the deletion is
    undone: the list is a rearrangement of the loaded one and no request
    was made. *)
Lemma bulk_undo_witness :
  let s := Coordinator.run Coordinator.init
             [Coordinator.ChatsLoaded [Props.alice; Props.bob];
              Coordinator.ToggleChatSelection 1;
              Coordinator.ToggleChatSelection 2] in
  let s' := Coordinator.undoDelete 1000
              (Coordinator.deleteSelected true 1000 s) in
  Coordinator.currentChats s' ≡ₚ [Props.alice; Props.bob]
  /\ Coordinator.calls s' = [].
Proof.
  intros s s'.
  destruct (bulk_undo_restores s 1000)
    as (_ & _ & _ & Hviews & _ & _ & _ & _ & Hcalls).
  - by eexists.
  - intros [|category]; vm_compute; repeat constructor; set_solver.
  - vm_compute. discriminate.
  - split; [exact (Hviews Coordinator.Main) | exact Hcalls].
Defined.

(** Alice and Bob are deleted together; the request for Alice succeeds
    and the one for Bob is rejected: both were requested, one is counted
    deleted and one failed. *)
Lemma bulk_delete_counts_witness :
  let s := Coordinator.run Coordinator.init
             [Coordinator.ChatsLoaded [Props.alice; Props.bob];
              Coordinator.ToggleChatSelection 1;
              Coordinator.ToggleChatSelection 2] in
  let fin := Coordinator.run (Coordinator.deleteSelected true 1000 s)
               [Coordinator.TimerFires 0;
                Coordinator.FetchSettles 0 Props.response_ok;
                Coordinator.FetchSettles 1 Coordinator.Rejected] in
  Coordinator.calls fin = [1%Z; 2%Z]
  /\ Coordinator.counters fin = (1, 1)%nat.
Proof.
  intros s fin.
  destruct (bulk_delete_counts s 1000 [Props.response_ok; Coordinator.Rejected])
    as (Hcalls & Hcount & _).
  - by eexists.
  - vm_compute. discriminate.
  - reflexivity.
  - repeat constructor; simpl; [intros [H _]; discriminate H | tauto].
  - split; [exact Hcalls | exact Hcount].
Defined.

(** ** cli_manager: exports and deletions *)

Section CliFacts.
Import Telethon TelethonMore PyMonad CliTools Classifier Props CliNotions.



Lemma item_map_fold_other (l : list entity) (m0 : gmap Z entity) i :
  i ∉ entity_id <$> l ->
  fold_left (fun m item => <[entity_id item := item]> m) l m0 !! i = m0 !! i.
Proof.
  revert m0. induction l as [|x l IH]; intros m0; [done|].
  rewrite fmap_cons. intros [Hx Hl]%not_elem_of_cons. cbn [fold_left].
  rewrite IH by done. by rewrite lookup_insert_ne.
Qed.

(** With distinct ids, the map gives every item back under its id. *)
Lemma item_map_lookup all_items e :
  NoDup (entity_id <$> all_items) -> e ∈ all_items ->
  item_map all_items !! entity_id e = Some e.
Proof.
  unfold item_map. generalize (∅ : gmap Z entity).
  induction all_items as [|x l IH]; intros m0 Hnd Hin.
  - by apply elem_of_nil in Hin.
  - rewrite fmap_cons in Hnd. apply NoDup_cons in Hnd as [Hx Hnd].
    cbn [fold_left]. apply elem_of_cons in Hin as [->|Hin].
    + rewrite item_map_fold_other by done. by rewrite lookup_insert_eq.
    + by apply IH.
Qed.

Lemma match_items_found m items :
  found_items (match_items m items)
  = omap (fun item => ji_id item ≫= (m !!.)) items.
Proof.
  unfold match_items.
  assert (H : forall acc,
    found_items (fold_left (match_item m) items acc)
    = found_items acc ++ omap (fun item => ji_id item ≫= (m !!.)) items).
  { induction items as [|it items IH]; intros acc.
    - by rewrite app_nil_r.
    - cbn [fold_left]. rewrite IH. unfold match_item. cbn [omap list_omap].
      destruct (ji_id it ≫= (m !!.)); simpl; by rewrite <- ?app_assoc. }
  by rewrite H.
Qed.

Section Deleting.
Variable delete_dialog : entity -> res unit.

(** The deletion loop attempts every item, whatever fails. *)
Lemma delete_loop (l : list entity) (s : del_state) :
  for_each l (delete_body delete_dialog) s
  = (Ok tt,
     mkDel (dialog_calls s ++ l)
           (left_count s
            + length (List.filter (fun item => is_ok (delete_dialog item)) l))
           (errors s ++ failures delete_dialog l)).
Proof.
  revert s. induction l as [|x l IH]; intros s.
  - destruct s. simpl. by rewrite !app_nil_r, Nat.add_0_r.
  - cbn [for_each]. unfold bind at 1.
    assert (Hbody : delete_body delete_dialog x s
      = (Ok tt,
         match delete_dialog x with
         | Ok _ => mkDel (dialog_calls s ++ [x]) (S (left_count s)) (errors s)
         | Raise e => mkDel (dialog_calls s ++ [x]) (left_count s)
                        (errors s ++ [(x, e)])
         end)).
    { unfold delete_body, try_except, modify, lift, mbind, M_bind, bind. simpl.
      by destruct (delete_dialog x) as [[]|e]. }
    rewrite Hbody, IH. unfold failures. cbn [List.filter omap list_omap].
    destruct (delete_dialog x) as [[]|e]; simpl;
      rewrite <- ?app_assoc; repeat f_equal; lia.
Qed.

Lemma delete_from_json_file_Deleted all_items items confirm log calls :
  delete_from_json_file delete_dialog all_items items confirm
  = (Deleted log, calls) ->
  PyStr.strip confirm = "DELETE"
  /\ calls = requested all_items items
  /\ log = mkLog (length items) (length calls)
             (length (List.filter (fun item => is_ok (delete_dialog item)) calls))
             (failures delete_dialog calls).
Proof.
  unfold delete_from_json_file.
  destruct (length items =? 0)%nat; [done|]. cbn zeta.
  rewrite match_items_found. fold (requested all_items items).
  destruct (length (requested all_items items) =? 0)%nat; [done|].
  destruct (String.eqb_spec (PyStr.strip confirm) "DELETE") as [Hc|Hc];
    simpl; [|done].
  rewrite delete_loop. simpl. by intros [= <- <-].
Qed.


(** X14. When [delete_from_json_file] gets to its log, every requested
    chat has been attempted once, in file order, whatever failed on the
    way: the chats handed to [delete_dialog] are those that the listed
    ids find in [all_items]; [successfully_deleted] counts the calls that
    returned, [errors] has one entry per call that raised, and the two
    add up to [found], which is at most [total_requested]. *)
Theorem delete_from_json_accounts
    (all_items : list entity) (items : list json_item) (confirm : string)
    (log : deletion_log) (calls : list entity) :
  delete_from_json_file delete_dialog all_items items confirm
  = (Deleted log, calls) ->
  calls = requested all_items items
  /\ total_requested log = length items
  /\ found log = length calls
  /\ successfully_deleted log
     = length (List.filter (fun item => is_ok (delete_dialog item)) calls)
  /\ log_errors log = failures delete_dialog calls
  /\ (successfully_deleted log + length (log_errors log) = found log)%nat
  /\ (found log <= total_requested log)%nat.
Proof.
  intros (_ & Hcalls & ->)%delete_from_json_file_Deleted. simpl.
  repeat split; try done.
  - unfold failures. clear Hcalls.
    induction calls as [|x l IH]; [done|]. cbn [List.filter omap list_omap].
    destruct (delete_dialog x) as [[]|e]; simpl in *; lia.
  - rewrite Hcalls. unfold requested. clear.
    induction items as [|it items IH]; [done|]. cbn [omap list_omap].
    destruct (ji_id it ≫= _); simpl; lia.
Qed.

Lemma export_simple_list_ids items exported :
  export_simple_list items = Ok exported ->
  si_id <$> exported = entity_id <$> items.
Proof.
  revert exported. induction items as [|x l IH]; intros exported.
  - by intros [= <-].
  - cbn [export_simple_list]. unfold mbind, res_bind.
    destruct (simple_entry x) as [d|] eqn:Hd; [|done].
    destruct (export_simple_list l) as [ds|]; [|done].
    intros [= <-]. rewrite !fmap_cons, (IH ds eq_refl). f_equal.
    destruct x as [u|c|c|i t]; unfold simple_entry, get_user_details in Hd;
      unfold simple_type, mbind, res_bind, mret, res_ret in Hd; simpl in Hd;
      repeat match type of Hd with
             | context [getattr ?a false] =>
                 destruct (getattr a false) as [[]|]; simpl in Hd
             end;
      try done;
      try (destruct (first_name u) as [fn|];
           destruct (last_name u) as [[|a ln]|]; simpl in Hd);
      try done; by injection Hd as <-.
Qed.

(** X15. Export, then delete: when the ids of [all_items] are distinct,
    handing the file written by [export_simple_list] for some of these
    items back to [delete_from_json_file], unedited and confirmed, gives
    [delete_dialog] exactly the exported items, in their order; all are
    found. *)
Theorem export_then_delete
    (all_items items : list entity) (exported : list simple_item) :
  NoDup (entity_id <$> all_items) ->
  items <> [] ->
  Forall (fun item => item ∈ all_items) items ->
  export_simple_list items = Ok exported ->
  exists log,
    delete_from_json_file delete_dialog all_items (loaded <$> exported) "DELETE"
    = (Deleted log, items)
    /\ found log = length items
    /\ total_requested log = length items.
Proof.
  intros Hnd Hne Hin Hex.
  pose proof (export_simple_list_ids _ _ Hex) as Hids.
  assert (Hreq : requested all_items (loaded <$> exported) = items).
  { unfold requested. clear Hex Hne. revert exported Hids.
    induction Hin as [|x l Hx Hl IH]; intros [|d ds]; try done.
    rewrite !fmap_cons. intros [= Hd Hds]. cbn [omap list_omap].
    unfold loaded at 1. cbn [ji_id mbind option_bind].
    rewrite Hd, (item_map_lookup all_items x Hnd Hx).
    f_equal. by apply IH. }
  assert (Hlen : length exported = length items).
  { by rewrite <- (length_fmap si_id), Hids, length_fmap. }
  unfold delete_from_json_file.
  rewrite length_fmap, Hlen. cbn zeta.
  rewrite match_items_found. fold (requested all_items (loaded <$> exported)).
  rewrite Hreq.
  destruct items as [|x l]; [done|]. cbn [length Nat.eqb].
  change (PyStr.strip "DELETE") with "DELETE". cbn [String.eqb negb].
  rewrite delete_loop. simpl. eexists. split; [reflexivity|]. done.
Qed.

End Deleting.

Lemma select_bucket b (l : list entity) item :
  item ∈ select b l -> bucket_of item = b.
Proof.
  unfold select. intros [_ H]%list_elem_of_In%filter_In.
  by destruct (bucket_of item), b.
Qed.

Lemma export_simple_list_Ok (l : list entity) :
  Forall (fun item => is_ok (simple_entry item) = true) l ->
  exists exported,
    export_simple_list l = Ok exported /\ length exported = length l.
Proof.
  induction 1 as [|x l Hx Hl (ds & IH & Hlen)]; [by exists []|].
  cbn [export_simple_list]. unfold mbind, res_bind. rewrite IH.
  destruct (simple_entry x) as [d|]; [|done].
  exists (d :: ds). split; [done|]. simpl. by rewrite Hlen.
Qed.

(** X16. The labels that [export_simple_list] writes for the lists of
    [categorize_chats]. Every chat of [channels] is exported with the type
    "broadcast_channel". A chat of [groups] is exported as "basic_group"
    when it is a [Chat], as "supergroup" when it is a [Channel] whose
    [megagroup] is set, and as "unknown" when it is a [Channel] with
    neither [broadcast] nor [megagroup] set, although [categorize_chats]
    counts it among the supergroups. The export of [groups] never
    raises, and writes one dictionary per group. *)
Theorem exported_types_of_categorized (all_chats : list entity) :
  let c := categorize_chats all_chats in
  (forall item, item ∈ channels c ->
     simple_entry item = Ok (mkSimple (entity_id item) "broadcast_channel"))
  /\ (forall item, item ∈ groups c ->
        ((exists chat, item = EChat chat)
         /\ simple_entry item = Ok (mkSimple (entity_id item) "basic_group"))
        \/ (plain_channel item true
            /\ simple_entry item = Ok (mkSimple (entity_id item) "supergroup"))
        \/ (plain_channel item false
            /\ item ∈ supergroups c
            /\ simple_entry item = Ok (mkSimple (entity_id item) "unknown")))
  /\ exists exported,
       export_simple_list (groups c) = Ok exported
       /\ length exported = length (groups c).
Proof.
  intros c. subst c. unfold categorize_chats. cbn [channels groups supergroups].
  rewrite categorize_loop_select. cbn [a_channels a_basic_groups a_supergroups].
  rewrite !app_nil_l.
  assert (Hch : forall item, item ∈ select BChannels all_chats ->
    simple_entry item = Ok (mkSimple (entity_id item) "broadcast_channel")).
  { intros item Hb%select_bucket. unfold bucket_of, try_branch in Hb.
    destruct item as [u|ch|ch|i t]; try done.
    unfold simple_entry, simple_type, mbind, res_bind. simpl.
    destruct (getattr (broadcast ch) false) as [[]|]; try done.
    by destruct (getattr (megagroup ch) false) as [[]|]. }
  assert (Hgr : forall item,
    item ∈ select BBasic all_chats ++ select BSuper all_chats ->
    ((exists chat, item = EChat chat)
     /\ simple_entry item = Ok (mkSimple (entity_id item) "basic_group"))
    \/ (plain_channel item true
        /\ simple_entry item = Ok (mkSimple (entity_id item) "supergroup"))
    \/ (plain_channel item false
        /\ item ∈ select BSuper all_chats
        /\ simple_entry item = Ok (mkSimple (entity_id item) "unknown"))).
  { intros item [Hin|Hin]%elem_of_app;
      pose proof (select_bucket _ _ _ Hin) as Hb;
      unfold bucket_of, try_branch in Hb;
      destruct item as [u|ch|ch|i t]; try done.
    - left. split; [by eexists|done].
    - destruct (getattr (broadcast ch) false) as [[]|] eqn:Hbr; try done;
        by destruct (getattr (megagroup ch) false) as [[]|].
    - unfold simple_entry, simple_type, mbind, res_bind, plain_channel, reads.
      simpl.
      destruct (getattr (broadcast ch) false) as [[]|] eqn:Hbr; try done.
      destruct (getattr (megagroup ch) false) as [[]|] eqn:Hmg; try done.
      + right. by left.
      + right. by right. }
  split; [done|]. split; [done|].
  apply export_simple_list_Ok, Forall_forall. intros item Hin.
  destruct (Hgr item Hin) as [[_ ->]|[[_ ->]|(_ & _ & ->)]]; done.
Qed.

Section Asking.
Variable get_messages : User -> nat -> res (list message).
Variable delete_dialog : User -> res unit.







End Asking.

End CliFacts.


(** Three ids are listed, two are known, and the deletion of the user
    fails: both are attempted, one is counted deleted and one is an
    error. *)
Lemma delete_from_json_accounts_witness :
  let delete_dialog := fun item =>
    match item with
    | EUser _ => Raise (mkExn "RPCError" "peer flood")
    | _ => Ok tt
    end in
  let family := EChat (mkChat 1 "family" None) in
  let ann := EUser (Props.plain_user 2) in
  let log := CliTools.mkLog 3 2 1 [(ann, mkExn "RPCError" "peer flood")] in
  CliTools.delete_from_json_file delete_dialog [family; ann]
    [CliTools.mkJsonItem (Some 1%Z); CliTools.mkJsonItem (Some 5%Z);
     CliTools.mkJsonItem (Some 2%Z)] " DELETE "
  = (CliTools.Deleted log, [family; ann])
  /\ (CliTools.successfully_deleted log + length (CliTools.log_errors log)
      = CliTools.found log)%nat.
Proof.
  intros delete_dialog family ann log.
  assert (H : CliTools.delete_from_json_file delete_dialog [family; ann]
                [CliTools.mkJsonItem (Some 1%Z); CliTools.mkJsonItem (Some 5%Z);
                 CliTools.mkJsonItem (Some 2%Z)] " DELETE "
              = (CliTools.Deleted log, [family; ann])) by reflexivity.
  split; [exact H|].
  by destruct (delete_from_json_accounts delete_dialog _ _ _ _ _ H)
    as (_ & _ & _ & _ & _ & Hsum & _).
Defined.

(** The family group is exported and the file handed back: exactly this
    group is deleted. *)
Lemma export_then_delete_witness :
  let family := EChat (mkChat 1 "family" None) in
  let club := EChannel (mkChannel 5 "club" None (AttrVal false) AttrMissing None) in
  exists log,
    CliTools.delete_from_json_file (fun _ => Ok tt) [family; club]
      (CliTools.loaded <$> [CliTools.mkSimple 1 "basic_group"]) "DELETE"
    = (CliTools.Deleted log, [family])
    /\ CliTools.found log = 1%nat
    /\ CliTools.total_requested log = 1%nat.
Proof.
  intros family club.
  apply (export_then_delete (fun _ => Ok tt) [family; club] [family]
           [CliTools.mkSimple 1 "basic_group"]).
  - vm_compute. repeat constructor; set_solver.
  - discriminate.
  - repeat constructor.
  - reflexivity.
Defined.

(** A channel object with neither flag set is listed among the groups
    and exported with the type "unknown". *)
Lemma exported_types_witness :
  let club := EChannel (mkChannel 5 "club" None (AttrVal false) AttrMissing None) in
  club ∈ Classifier.groups (Classifier.categorize_chats [club])
  /\ CliTools.simple_entry club = Ok (CliTools.mkSimple 5 "unknown").
Proof.
  intros club.
  assert (Hin : club ∈ Classifier.groups (Classifier.categorize_chats [club]))
    by (vm_compute; apply list_elem_of_here).
  split; [exact Hin|].
  destruct (exported_types_of_categorized [club]) as (_ & H & _).
  destruct (H club Hin) as [[[chat Hc] _]|[[[_ Hm] _]|(_ & _ & Hu)]].
  - discriminate Hc.
  - discriminate Hm.
  - exact Hu.
Defined.


(** ** The page and the server *)

Section AnswerFacts.
Import Analyzer Server Coordinator Props More PageNotions.
Variable get_entity : Z -> res entity.
Variable delete_dialog : entity -> res unit.

Lemma delete_raises_unique chat_id e e' :
  delete_raises get_entity delete_dialog chat_id e ->
  delete_raises get_entity delete_dialog chat_id e' -> e = e'.
Proof.
  intros [H|(x & Hx & H)] [H'|(x' & Hx' & H')]; congruence.
Qed.

Lemma delete_chat_cases connected chat_id :
  let r := delete_chat get_entity delete_dialog connected chat_id in
  (connected = false /\ r = inl NotConnectedError)
  \/ (connected = true
      /\ (exists entity, get_entity chat_id = Ok entity
                         /\ delete_dialog entity = Ok tt)
      /\ r = inr DeleteSuccess)
  \/ (connected = true
      /\ exists e, delete_raises get_entity delete_dialog chat_id e
                   /\ r = delete_chat_except e).
Proof.
  unfold delete_chat, delete_raises. destruct connected; simpl; [|by left].
  right. destruct (get_entity chat_id) as [entity|e] eqn:Hg.
  - destruct (delete_dialog entity) as [[]|e] eqn:Hd.
    + left. split; [done|]. split; [by exists entity|done].
    + right. split; [done|]. exists e. split; [|done]. right. by exists entity.
  - right. split; [done|]. exists e. split; [by left|done].
Qed.

Lemma delete_chat_except_answer e :
  let r := Response (delete_chat_http (delete_chat_except e)) in
  succeeded r = false
  /\ (rate_limited r
      <-> is_flood e /\ default 30%Z (search_int (exc_str e)) <> 0%Z)
  /\ (failed_for_good r
      <-> ~ is_flood e \/ default 30%Z (search_int (exc_str e)) = 0%Z).
Proof.
  unfold delete_chat_except, is_flood.
  assert (Hlim : forall w : Z,
    let r := Response (delete_chat_http (inr (RateLimited w))) in
    succeeded r = false
    /\ (rate_limited r <-> w <> 0%Z) /\ (failed_for_good r <-> w = 0%Z)).
  { intros w. cbn zeta. unfold rate_limited, failed_for_good, succeeded,
      retry_after_truthy, ok. cbn [delete_chat_http status_code
      body_retry_after Nat.leb andb].
    split; [reflexivity|].
    destruct (w =? 0)%Z eqn:E.
    - apply Z.eqb_eq in E. split; split.
      + intros [_ [x Hx]]. discriminate Hx.
      + intros H. contradiction.
      + intros _. exact E.
      + intros _. split; reflexivity.
    - apply Z.eqb_neq in E. split; split.
      + intros _. exact E.
      + intros _. split; [reflexivity|]. by eexists.
      + intros [_ H]. discriminate H.
      + intros H. contradiction. }
  assert (Herr : forall message code,
    let r := Response (delete_chat_http (inl (TelegramError message code))) in
    succeeded r = false /\ ~ rate_limited r /\ failed_for_good r).
  { intros message code. simpl. split; [done|]. split; [|done].
    intros [_ [x Hx]]. done. }
  destruct (contains "FloodWaitError" (exc_type_name e)) eqn:E1;
    [|destruct (contains "flood" (lower (exc_str e))) eqn:E2].
  - cbn [orb]. destruct (Hlim (default 30%Z (search_int (exc_str e))))
      as (Hs & Hr & Hf).
    split; [exact Hs|]. rewrite Hr, Hf. split; split.
    + intros H. split; [by left|exact H].
    + intros [_ H]. exact H.
    + intros H. by right.
    + intros [H|H]; [|exact H]. exfalso. apply H. by left.
  - cbn [orb]. destruct (Hlim (default 30%Z (search_int (exc_str e))))
      as (Hs & Hr & Hf).
    split; [exact Hs|]. rewrite Hr, Hf. split; split.
    + intros H. split; [by right|exact H].
    + intros [_ H]. exact H.
    + intros H. by right.
    + intros [H|H]; [|exact H]. exfalso. apply H. by right.
  - cbn [orb]. destruct (Herr (exc_str e) "DELETE_ERROR") as (Hs & Hr & Hf).
    split; [exact Hs|]. split; split.
    + intros H. exfalso. by apply Hr.
    + intros [[H|H] _]; discriminate H.
    + intros _. left. intros [H|H]; discriminate H.
    + intros _. exact Hf.
Qed.

(** X18. What the page makes of the answer of [delete_chat]. The page
    takes the chat for deleted ([response.ok]) exactly when the server was
    connected and both the lookup of the entity and the delete call
    returned. It waits and retries exactly when one of the two raised an
    exception taken for a rate limit whose message gives a wait other than
    zero. In every other case, among them a rate limit with a wait of
    zero seconds and a server that is not connected, it takes the
    request for failed. *)
Theorem page_reads_the_answer (connected : bool) (chat_id : Z) :
  let r := Response (delete_chat_http
             (delete_chat get_entity delete_dialog connected chat_id)) in
  (succeeded r = true
   <-> connected = true
       /\ exists entity, get_entity chat_id = Ok entity
                         /\ delete_dialog entity = Ok tt)
  /\ (rate_limited r
      <-> connected = true
          /\ exists e, delete_raises get_entity delete_dialog chat_id e
                       /\ is_flood e
                       /\ default 30%Z (search_int (exc_str e)) <> 0%Z)
  /\ (failed_for_good r
      <-> connected = false
          \/ exists e, delete_raises get_entity delete_dialog chat_id e
                       /\ (~ is_flood e
                           \/ default 30%Z (search_int (exc_str e)) = 0%Z)).
Proof.
  intros r. subst r.
  destruct (delete_chat_cases connected chat_id)
    as [[-> ->]|[(-> & (entity & Hg & Hd) & ->)|(-> & e & He & ->)]].
  - cbn zeta. unfold rate_limited, failed_for_good, succeeded,
      retry_after_truthy, ok.
    cbn [delete_chat_http handle_error status_code body_retry_after
         Nat.leb andb].
    split; [|split]; split.
    + intros H. discriminate H.
    + intros [H _]. discriminate H.
    + intros [_ [x Hx]]. discriminate Hx.
    + intros [H _]. discriminate H.
    + intros _. by left.
    + intros _. split; reflexivity.
  - assert (Hno : forall e, ~ delete_raises get_entity delete_dialog chat_id e).
    { intros e [H|(x & Hx & H)]; congruence. }
    cbn zeta. unfold rate_limited, failed_for_good, succeeded,
      retry_after_truthy, ok.
    cbn [delete_chat_http status_code body_retry_after Nat.leb andb].
    split; [|split]; split.
    + intros _. split; [reflexivity|]. by exists entity.
    + intros _. reflexivity.
    + intros [H _]. discriminate H.
    + intros [_ (e & He & _)]. exfalso. by apply (Hno e).
    + intros [H _]. discriminate H.
    + intros [H|(e & He & _)]; [discriminate H|]. exfalso. by apply (Hno e).
  - destruct (delete_chat_except_answer e) as (Hs & Hr & Hf). cbn zeta in *.
    split; [|split]; split.
    + rewrite Hs. done.
    + intros [_ (entity & Hg & Hd)]. destruct He as [H|(x & Hx & H)]; congruence.
    + intros H%Hr. split; [done|]. by exists e.
    + intros [_ (e' & He' & H)]. apply Hr.
      by rewrite (delete_raises_unique _ _ _ He He').
    + intros H%Hf. right. by exists e.
    + intros [?|(e' & He' & H)]; [done|]. apply Hf.
      by rewrite (delete_raises_unique _ _ _ He He').
Qed.

End AnswerFacts.

(** ** fastapi_manager: the stored configuration *)

Section ConfigFacts.
Import PyMonad Analyzer Config.
Variable os_remove : string -> res unit.

Ltac run_monad :=
  unfold mbind, M_bind, bind, mret, M_ret, ret, gets, modify, lift,
    try_except, remove_session, save_config in *;
  cbn [config file client is_connected current_session_file session_files
       set_config set_file set_client set_is_connected
       set_current_session_file set_session_files fst snd] in *.

(** The phone on file after the part of [logout] that follows the calls
    of the client. *)
Lemma logout_tail (s : server) d :
  config s = Some d ->
  let saved := mkConfig (api_id d) (api_hash d) (current_phone (file s)) in
  exists listed,
    logout os_remove (set_client None s)
    = (Ok tt,
       mkServer (Some saved) (Stored saved) None false None listed).
Proof.
  intros Hc. destruct s as [cfg f cl ic csf sf]. simpl in Hc. subst cfg.
  unfold logout. run_monad.
  destruct (truthy csf && bool_decide (default "" csf ∈ sf)).
  - destruct (os_remove (default "" csf)) as [[]|e]; by eexists.
  - by eexists.
Qed.

(** X19. [logout] does not forget the phone number. Whatever the client
    does and however the endpoint ends, the phone number kept in the
    configuration file is still there afterwards; and when the endpoint
    returns, the global [config] holds it too, so [GET /api/config]
    reports it and [GET /api/me] answers with the saved phone, although
    the client is gone and the server is no longer connected: calling
    [save_config] with [None] keeps the number of the file. *)
Theorem logout_keeps_the_phone (s : server) (d : config_data) (p : string) :
  config s = Some d ->
  current_phone (file s) = Some p ->
  p <> "" ->
  let r := logout os_remove s in
  current_phone (file r.2) = Some p
  /\ (r.1 = Ok tt ->
      let saved := mkConfig (api_id d) (api_hash d) (Some p) in
      config r.2 = Some saved
      /\ file r.2 = Stored saved
      /\ client r.2 = None
      /\ is_connected r.2 = false
      /\ get_me r.2 = inr (SavedPhone p)
      /\ (get_config r.2).1
         = Ok (mkStatus true (Some (api_id d)) (Some p)
                 (truthy (Some (api_hash d))))).
Proof.
  intros Hc Hp Hne r.
  assert (Hgone : forall s0, client s0 = None -> config s0 = Some d ->
            current_phone (file s0) = Some p ->
            let r0 := logout os_remove s0 in
            r0.1 = Ok tt
            /\ config r0.2 = Some (mkConfig (api_id d) (api_hash d) (Some p))
            /\ file r0.2 = Stored (mkConfig (api_id d) (api_hash d) (Some p))
            /\ client r0.2 = None /\ is_connected r0.2 = false).
  { intros s0 Hcl Hc0 Hp0 r0.
    assert (Hs0 : s0 = set_client None s0) by (destruct s0; simpl in *; by subst).
    destruct (logout_tail s0 d Hc0) as (listed & Ht). cbn zeta in Ht.
    subst r0. rewrite Hs0, Ht. simpl. by rewrite Hp0. }
  assert (Hcases :
    (r.2 = s /\ exists e, r.1 = Raise e)
    \/ r = logout os_remove (set_client None s)).
  { subst r. destruct s as [cfg f cl ic csf sf]. simpl in *.
    destruct cl as [[lo ia cc di gm]|]; [|by right].
    unfold logout at 1. run_monad.
    destruct lo as [[]|e]; [|left; split; [done|by eexists]].
    destruct cc.
    - destruct di as [[]|e]; [|left; split; [done|by eexists]].
      right. unfold logout, set_client. by run_monad.
    - right. unfold logout, set_client. by run_monad. }
  clearbody r. destruct r as [r1 s1]. cbn [fst snd] in *.
  destruct Hcases as [[Hs [e He]]|Hr].
  - subst s1 r1. split; [done|]. done.
  - destruct (Hgone (set_client None s)) as (Hok & Hcfg & Hfile & Hcl & Hic).
    { by destruct s. } { by destruct s. } { by destruct s. }
    rewrite <- Hr in *. cbn [fst snd] in *.
    destruct s1 as [cfg1 f1 cl1 ic1 csf1 sf1]. simpl in Hcfg, Hfile, Hcl, Hic.
    subst cfg1 f1 cl1 ic1. split; [done|]. intros _. cbn zeta.
    repeat (split; [done|]). split.
    + unfold get_me. simpl. by destruct p.
    + unfold get_config. run_monad. done.
Qed.

(** The loop of [reset_app] over the session files. *)
Lemma reset_sessions_loop (l : list string) : forall s,
  exists listed,
    for_each l (fun path => try_except (remove_session os_remove path)
                                       (fun _ => mret tt)) s
    = (Ok tt, set_session_files listed s)
    /\ forall path,
         path ∈ listed
         <-> path ∈ session_files s
             /\ ~ (path ∈ l /\ os_remove path = Ok tt).
Proof.
  induction l as [|x l IH]; intros s.
  - exists (session_files s). split; [by destruct s|].
    intros path. split; [|naive_solver]. intros H. split; [done|].
    intros [Hin _]. by apply elem_of_nil in Hin.
  - cbn [for_each]. unfold bind at 1.
    destruct (os_remove x) as [[]|e] eqn:Hx.
    + assert (Hb : try_except (remove_session os_remove x) (fun _ => mret tt) s
                   = (Ok tt, set_session_files (session_files s ∖ {[x]}) s)).
      { run_monad. by rewrite Hx. }
      rewrite Hb.
      destruct (IH (set_session_files (session_files s ∖ {[x]}) s))
        as (listed & -> & Hl).
      exists listed. split; [by destruct s|].
      intros path. rewrite Hl. simpl. rewrite elem_of_difference,
        elem_of_singleton, elem_of_cons.
      split.
      * intros [[Hin Hne] Hno]. split; [done|].
        intros [[->|Hin'] Hok]; [done|]. by apply Hno.
      * intros [Hin Hno]. split; [split; [done|]|].
        -- intros ->. apply Hno. split; [by left|done].
        -- intros [Hin' Hok]. apply Hno. split; [by right|done].
    + assert (Hb : try_except (remove_session os_remove x) (fun _ => mret tt) s
                   = (Ok tt, s)).
      { run_monad. by rewrite Hx. }
      rewrite Hb. destruct (IH s) as (listed & -> & Hl).
      exists listed. split; [done|].
      intros path. rewrite Hl, elem_of_cons. split.
      * intros [Hin Hno]. split; [done|].
        intros [[->|Hin'] Hok]; [congruence|]. by apply Hno.
      * intros [Hin Hno]. split; [done|].
        intros [Hin' Hok]. apply Hno. split; [by right|done].
Qed.

(** X20. [reset_app] forgets everything: when it returns, there is no
    client, no global [config] and no configuration file, so
    [GET /api/config] answers "not configured" with no phone number and
    [GET /api/me] fails as not connected; and the session files left
    are exactly those whose removal raised. *)
Theorem reset_forgets_everything (s s' : server) :
  reset_app os_remove s = (Ok tt, s') ->
  config s' = None
  /\ file s' = NoFile
  /\ client s' = None
  /\ is_connected s' = false
  /\ (get_config s').1 = Ok (mkStatus false None None false)
  /\ get_me s' = inl NotConnectedError
  /\ forall path,
       path ∈ session_files s'
       <-> path ∈ session_files s /\ os_remove path <> Ok tt.
Proof.
  intros Hr.
  assert (Hfor :
    for_each (elements (session_files s))
      (fun path => try_except (remove_session os_remove path)
                              (fun _ => mret tt))
      (mkServer None NoFile None false (current_session_file s)
         (session_files s))
    = (Ok tt, s')).
  { destruct s as [cfg f cl ic csf sf]. unfold reset_app in Hr.
    unfold mbind, M_bind, bind, gets, modify, lift in Hr.
    cbn [config file client is_connected current_session_file session_files
         set_config set_file set_client set_is_connected] in Hr.
    destruct cl as [[lo ia cc di gm]|].
    - unfold try_except at 1 in Hr. cbn [is_user_authorized log_out
        client_is_connected disconnect] in Hr.
      destruct ia as [[]|]; [destruct lo as [[]|]| |];
        destruct cc; try (destruct di as [[]|]); try discriminate Hr;
        cbn [config file client is_connected current_session_file
             session_files set_config set_file set_client set_is_connected
             mret M_ret ret] in Hr;
        (destruct f; [exact Hr| |]);
        (destruct (os_remove CONFIG_FILE) as [[]|];
         [exact Hr | discriminate Hr]).
    - cbn [config file client is_connected current_session_file
           session_files set_config set_file set_client set_is_connected
           mret M_ret ret] in Hr.
      (destruct f; [exact Hr| |]);
        (destruct (os_remove CONFIG_FILE) as [[]|];
         [exact Hr | discriminate Hr]). }
  destruct (reset_sessions_loop (elements (session_files s))
              (mkServer None NoFile None false (current_session_file s)
                 (session_files s))) as (listed & Hl & Hin).
  pose proof (eq_trans (eq_sym Hl) Hfor) as Heq. injection Heq as <-.
  simpl. repeat (split; [done|]).
  intros path. rewrite Hin. cbn [session_files]. rewrite elem_of_elements.
  split.
  - intros [H1 H2]. split; [exact H1|]. intros Hok. apply H2. by split.
  - intros [H1 H2]. split; [exact H1|]. intros [_ Hok]. by apply H2.
Qed.

(** X21. Saving new API keys keeps the phone number of the file, and
    what is saved is what is loaded: after [POST /api/config] the global
    [config] and the file hold the new keys with the phone number the
    file held before (none when the file was missing or unreadable),
    [load_config] returns this dictionary, and [GET /api/config] reports
    it; saving the same keys again changes nothing. *)
Theorem saved_config_is_loaded (s : server) (new_id new_hash : string) :
  let saved := mkConfig new_id new_hash (current_phone (file s)) in
  let s1 := (save_app_config new_id new_hash s).2 in
  config s1 = Some saved
  /\ file s1 = Stored saved
  /\ load_config s1 = (Ok (Some saved), s1)
  /\ (get_config s1).1
     = Ok (mkStatus true (Some new_id) (current_phone (file s))
             (truthy (Some new_hash)))
  /\ (save_app_config new_id new_hash s1).2 = s1.
Proof.
  intros saved s1. subst s1 saved. destruct s as [cfg f cl ic csf sf].
  unfold save_app_config, get_config, load_config. run_monad.
  unfold or_else. simpl. repeat split.
Qed.

End ConfigFacts.

(** A connected server whose file holds a phone number: after the
    logout, [GET /api/me] still answers with this number. *)
Lemma logout_keeps_the_phone_witness :
  let d := Config.mkConfig "12345" "0123abcd" (Some "+15550100") in
  let c := Config.mkClient (Ok tt) (Ok true) true (Ok tt)
             (Ok (Config.mkAccount 7 None (Some "15550100") (Some "Ann"))) in
  let s := Config.mkServer (Some d) (Config.Stored d) (Some c) true
             (Some "15550100.session") {["15550100.session"]} in
  Config.get_me (Config.logout (fun _ => Ok tt) s).2
  = inr (Config.SavedPhone "+15550100").
Proof.
  intros d c s.
  destruct (logout_keeps_the_phone (fun _ => Ok tt) s d "+15550100")
    as [_ H].
  - reflexivity.
  - reflexivity.
  - discriminate.
  - destruct H as (_ & _ & _ & _ & Hme & _); [vm_compute; reflexivity|].
    exact Hme.
Defined.

(** A configured server with one session file: after the reset,
    [GET /api/me] fails as not connected and no session file is left. *)
Lemma reset_forgets_everything_witness :
  let d := Config.mkConfig "12345" "0123abcd" (Some "+15550100") in
  let s := Config.mkServer (Some d) (Config.Stored d) None false
             (Some "15550100.session") {["15550100.session"]} in
  let s' := (Config.reset_app (fun _ => Ok tt) s).2 in
  Config.get_me s' = inl Analyzer.NotConnectedError
  /\ Config.file s' = Config.NoFile.
Proof.
  intros d s s'.
  destruct (reset_forgets_everything (fun _ => Ok tt) s s')
    as (_ & Hfile & _ & _ & _ & Hme & _).
  - vm_compute. reflexivity.
  - split; [exact Hme | exact Hfile].
Defined.

(** ** get_chats: one unreadable dialog *)

Section ListingFailure.
Import Analyzer Server TelethonMore Props More.

Lemma listable_dec d : listable d \/ ~ listable d.
Proof.
  destruct d as [u|c|c|i t]; simpl; try (by left).
  - destruct (bot u); destruct (scam u); simpl; tauto.
  - destruct (broadcast c) as [b| |e].
    + left. by exists b.
    + right. by intros [b Hb].
    + right. by intros [b Hb].
Qed.

Lemma get_chats_body_listable d s :
  listable d ->
  exists s', get_chats_body d s = (Ok tt, s')
             /\ length (chats s') = S (length (chats s)).
Proof.
  unfold get_chats_body, mbind, M_bind, bind, lift, modify, mret, M_ret, ret.
  destruct d as [u|c|c|i t]; simpl.
  - intros [Hb Hs].
    destruct (bot u); try done; destruct (scam u); try done; simpl;
      eexists; (split; [reflexivity|]); simpl; rewrite length_app; simpl; lia.
  - intros _. eexists. split; [reflexivity|]. simpl. rewrite length_app.
    simpl. lia.
  - intros [b ->]. simpl.
    destruct b; eexists; (split; [reflexivity|]); simpl; rewrite length_app;
      simpl; lia.
  - intros _. eexists. split; [reflexivity|]. simpl. rewrite length_app.
    simpl. lia.
Qed.

Lemma get_chats_body_unlistable d s :
  ~ listable d -> exists e s', get_chats_body d s = (Raise e, s').
Proof.
  unfold get_chats_body, mbind, M_bind, bind, lift, modify, mret, M_ret, ret.
  destruct d as [u|c|c|i t]; simpl; try tauto.
  - intros H. destruct (bot u) as [b1| |e1]; simpl;
      try (by do 2 eexists);
      (destruct (scam u) as [b2| |e2]; simpl; try (by do 2 eexists);
       exfalso; apply H; by split).
  - intros H. destruct (broadcast c) as [b| |e]; simpl;
      try (by do 2 eexists).
    exfalso. apply H. by exists b.
Qed.

Lemma get_chats_loop_ok dialogs : forall s,
  Forall listable dialogs ->
  exists s', for_each dialogs get_chats_body s = (Ok tt, s')
             /\ length (chats s') = (length (chats s) + length dialogs)%nat.
Proof.
  induction dialogs as [|d dialogs IH]; intros s Hall.
  - exists s. split; [done|]. simpl. lia.
  - apply Forall_cons in Hall as [Hd Hall].
    destruct (get_chats_body_listable d s Hd) as (s1 & Hb & Hlen).
    destruct (IH s1 Hall) as (s' & Hrun & Hlen').
    exists s'. rewrite for_each_cons, Hb. split; [done|]. simpl. lia.
Qed.

Lemma get_chats_loop_fails dialogs : forall s,
  ~ Forall listable dialogs ->
  exists e s', for_each dialogs get_chats_body s = (Raise e, s').
Proof.
  induction dialogs as [|d dialogs IH]; intros s Hno.
  - destruct Hno. constructor.
  - rewrite for_each_cons.
    destruct (listable_dec d) as [Hd|Hd].
    + destruct (get_chats_body_listable d s Hd) as (s1 & -> & _).
      apply IH. intros Hall. apply Hno. by constructor.
    + destruct (get_chats_body_unlistable d s Hd) as (e & s1 & ->).
      by do 2 eexists.
Qed.

(** X22. The listing is all or nothing. When every dialog can be read
    (no flag of a user raises, every channel object has its [broadcast]
    attribute), [get_chats] answers with one dictionary per dialog and
    caches these dictionaries. When a single dialog cannot be read, the
    whole listing fails with the code "LOAD_CHATS_ERROR", no dictionary is
    returned, and the cache is left as it was. *)
Theorem get_chats_all_or_nothing
    (dialogs : list entity) (old : option (list pyobj)) :
  (Forall listable dialogs ->
   exists chats stats,
     get_chats true dialogs old = (inr (chats, stats), Some (PyDict <$> chats))
     /\ length chats = length dialogs)
  /\ (~ Forall listable dialogs ->
      exists message,
        get_chats true dialogs old
        = (inl (TelegramError message "LOAD_CHATS_ERROR"), old)).
Proof.
  unfold get_chats. simpl. split.
  - intros Hall.
    destruct (get_chats_loop_ok dialogs chats_state0 Hall) as (s' & -> & Hlen).
    by do 2 eexists.
  - intros Hno.
    destruct (get_chats_loop_fails dialogs chats_state0 Hno) as (e & s' & ->).
    by eexists.
Qed.

End ListingFailure.

(** A channel object without its [broadcast] attribute, after a user:
    the listing fails and the cache keeps its old value. *)
Lemma get_chats_all_or_nothing_witness :
  let dialogs :=
    [EUser (Props.plain_user 1);
     EChannel (mkChannel 3 "news" None AttrMissing AttrMissing None)] in
  exists message,
    Server.get_chats true dialogs None
    = (inl (Analyzer.TelegramError message "LOAD_CHATS_ERROR"), None).
Proof.
  intros dialogs.
  apply (proj2 (get_chats_all_or_nothing dialogs None)).
  intros Hall. apply Forall_cons in Hall as [_ Hall].
  apply Forall_cons in Hall as [[b Hb] _]. discriminate Hb.
Defined.

(** ** The statistics and the filters of the page *)

Section FilterFacts.
Import Analyzer Server Coordinator TelethonMore Props More PageFilter.

Lemma filter_has_type t (chats : list chat_data) :
  length (List.filter (has_type t) (chat_of_dict <$> chats))
  = count_type t chats.
Proof.
  unfold count_type. induction chats as [|d chats IH]; [done|].
  rewrite fmap_cons. cbn [List.filter]. unfold has_type at 1. cbn [type chat_of_dict].
  destruct (String.eqb (cd_type d) t); simpl; by rewrite IH.
Qed.

Lemma filter_groups (chats : list chat_data) :
  length (List.filter (fun c => has_type "group" c || has_type "supergroup" c)
            (chat_of_dict <$> chats))
  = (count_type "supergroup" chats + count_type "group" chats)%nat.
Proof.
  unfold count_type. induction chats as [|d chats IH]; [done|].
  rewrite fmap_cons. cbn [List.filter]. unfold has_type at 1 2.
  cbn [type chat_of_dict].
  destruct (String.eqb_spec (cd_type d) "group") as [Hg|Hg];
    destruct (String.eqb_spec (cd_type d) "supergroup") as [Hs|Hs];
    simpl; rewrite ?IH; try lia.
  congruence.
Qed.

(** X23. The statistics agree with the filters when the list arrives.
    After [loadChats] has stored the chats of a successful [get_chats],
    each filter of the page shows as many chats as the statistic beside
    it says: "all" shows [total] chats, "groups" [groups], "channels"
    [channels] and "users" [users]. *)
Theorem stats_match_the_filters
    (dialogs : list entity) (old new : option (list pyobj))
    (chats : list chat_data) (stats : Server.stats) :
  get_chats true dialogs old = (inr (chats, stats), new) ->
  let loaded := loadChats chats stats in
  let shown type := length <$> setFilter type loaded.1 in
  loaded.2 = (st_total stats, st_groups stats, st_channels stats,
              st_users stats)
  /\ shown "all" = Some (st_total stats)
  /\ shown "groups" = Some (st_groups stats)
  /\ shown "channels" = Some (st_channels stats)
  /\ shown "users" = Some (st_users stats).
Proof.
  unfold get_chats. simpl.
  destruct (for_each dialogs get_chats_body chats_state0)
    as [[[]|e] s'] eqn:Hrun; [|done].
  intros [= <- <- <-].
  assert (H0 : stats_agree chats_state0) by (repeat split).
  destruct (get_chats_loop dialogs _ _ Hrun H0)
    as [(Hu & Hc & Hg & Ht & Hsum) _].
  unfold setFilter. cbn [String.eqb Ascii.eqb Bool.eqb fmap option_fmap
                         option_map].
  split; [done|]. split; [by rewrite length_fmap, Ht|].
  split; [by rewrite filter_groups, Hg|].
  split; [by rewrite filter_has_type, Hc | by rewrite filter_has_type, Hu].
Qed.

End FilterFacts.

(** A person, a basic group and a broadcast channel are listed: the
    "groups" filter shows one chat, as the statistics say. *)
Lemma stats_match_the_filters_witness :
  let dialogs :=
    [EUser (Props.plain_user 1); EChat (mkChat 2 "family" None);
     EChannel (mkChannel 3 "news" None (AttrVal true) AttrMissing None)] in
  exists chats stats new,
    Server.get_chats true dialogs None = (inr (chats, stats), new)
    /\ length <$> PageFilter.setFilter "groups"
                    (PageFilter.loadChats chats stats).1
       = Some (Server.st_groups stats)
    /\ Server.st_groups stats = 1%nat.
Proof.
  intros dialogs. do 3 eexists. split; [reflexivity|].
  split; [|reflexivity].
  by destruct (stats_match_the_filters dialogs None _ _ _ eq_refl)
    as (_ & _ & Hg & _).
Defined.
